(** * Zingela Africa Locate: fleet dashboard glue code

    A shallow embedding of the pieces of the dashboard that carry logic:
    - [Str]: the JavaScript string primitives the code relies on
      ([replace] with an anchored pattern, [trim], [btoa]);
    - [Api]: [services/traccarApi.ts] ([getAuthHeaders], [apiRequest]);
    - [Utf16]: [getAuthHeaders] on credentials as the form hands them over,
      strings of 16-bit code units, where [btoa] can throw;
    - [Commands]: [services/commands.ts] (the command log in localStorage);
    - [Ws]: [services/traccarWebSocket.ts] (the reconnecting client);
    - [Modal]: [components/ImmobilisationModal.tsx] (the request workflow);
    - [Spec], [Rfc4648]: the endpoint derivation and base 64 as the
      specification and the RFC word them, to compare the code with.

    Strings are [string]s of 8-bit code units, the range on which [btoa]
    is defined, except in [Utf16], where a string is the list of its
    16-bit code units.  Numbers that the code only uses as integers are
    [Z]. *)

From stdpp Require Import base decidable option list strings gmap pretty.
From Stdlib Require Import ZArith Lia Ascii.

Local Open Scope string_scope.
Local Open Scope list_scope.
Local Open Scope Z_scope.

(** ** JavaScript string primitives *)
Module Str.

(** [s.startsWith(p)], returning the remainder after the prefix. *)
Fixpoint strip_prefix (p s : string) : option string :=
  match p with
  | EmptyString => Some s
  | String a p' =>
      match s with
      | EmptyString => None
      | String b s' => if Ascii.eqb a b then strip_prefix p' s' else None
      end
  end.

(** [s.replace(/^p/, r)] for a literal pattern [p] anchored at the start. *)
Definition replace_prefix (p r s : string) : string :=
  match strip_prefix p s with
  | Some rest => r +:+ rest
  | None => s
  end.

(** [s.replace(/\/$/, '')]: one slash removed, only at the very end. *)
Fixpoint strip_trailing_slash (s : string) : string :=
  match s with
  | EmptyString => EmptyString
  | String c EmptyString => if Ascii.eqb c "/"%char then EmptyString else s
  | String c s' => String c (strip_trailing_slash s')
  end.

(** WhiteSpace and LineTerminator code units below 256:
    TAB, LF, VT, FF, CR, SP and NBSP. *)
Definition is_whitespace (c : ascii) : bool :=
  let n := N_of_ascii c in
  ((9 <=? n) && (n <=? 13) || (n =? 32) || (n =? 160))%N.

Fixpoint trimStart (s : string) : string :=
  match s with
  | EmptyString => EmptyString
  | String c s' => if is_whitespace c then trimStart s' else s
  end.

Fixpoint trimEnd (s : string) : string :=
  match s with
  | EmptyString => EmptyString
  | String c s' =>
      match trimEnd s' with
      | EmptyString => if is_whitespace c then EmptyString else String c EmptyString
      | t => String c t
      end
  end.

(** [s.trim()] *)
Definition trim (s : string) : string := trimEnd (trimStart s).

(** [toUpperCase] on the letters a-z; other code units are kept. *)
Definition upper_ascii (c : ascii) : ascii :=
  let n := N_of_ascii c in
  if ((97 <=? n) && (n <=? 122))%N then ascii_of_N (n - 32) else c.

Fixpoint ascii_toUpperCase (s : string) : string :=
  match s with
  | EmptyString => EmptyString
  | String c s' => String (upper_ascii c) (ascii_toUpperCase s')
  end.

(** *** [btoa]: base64 of a binary string (RFC 4648, with padding) *)
Definition b64_alphabet : string :=
  "ABCDEFGHIJKLMNOPQRSTUVWXYZabcdefghijklmnopqrstuvwxyz0123456789+/".

Definition b64_digit (n : N) : ascii :=
  match String.get (N.to_nat n) b64_alphabet with
  | Some c => c
  | None => "="%char
  end.

Definition sextet (k : N) (w : N) : ascii :=
  b64_digit (N.land (N.shiftr w (6 * k)) 63).

Fixpoint b64_groups (l : list N) : string :=
  match l with
  | [] => EmptyString
  | [a] =>
      let w := N.shiftl a 16 in
      String (sextet 3 w) (String (sextet 2 w) "==")
  | [a; b] =>
      let w := N.lor (N.shiftl a 16) (N.shiftl b 8) in
      String (sextet 3 w) (String (sextet 2 w) (String (sextet 1 w) "="))
  | a :: b :: c :: rest =>
      let w := N.lor (N.lor (N.shiftl a 16) (N.shiftl b 8)) c in
      String (sextet 3 w) (String (sextet 2 w)
        (String (sextet 1 w) (String (sextet 0 w) (b64_groups rest))))
  end.

Definition btoa (s : string) : string :=
  b64_groups (N_of_ascii <$> String.list_ascii_of_string s).

End Str.

(** Results of code that may throw. *)
Inductive JsError : Type :=
  | Error (message : string)   (* [new Error(message)] *)
  | SyntaxError                (* [JSON.parse] / [response.json()] on bad input *)
  | TypeError.                 (* a rejected [fetch], a property read on [null] *)

Inductive Outcome (A : Type) : Type :=
  | Returned (a : A)
  | Thrown (e : JsError).
Arguments Returned {A} a.
Arguments Thrown {A} e.

(** ** services/traccarApi.ts *)
Module Api.

Inductive AuthMethod : Type := token | basic.

Record TraccarConfig : Type := {
  serverUrl : string;
  authMethod : AuthMethod;
  apiToken : option string;
  username : option string;
  password : option string;
  organizationId : string;
  lastTested : option string;
  isValid : bool
}.

(** Truthiness of an optional string field: defined and not empty. *)
Definition truthy (o : option string) : bool :=
  match o with
  | Some s => negb (String.eqb s "")
  | None => false
  end.

(** The checks of the settings form ([handleSave]) before a
    configuration is handed to [saveConfig]. *)
Definition handleSave_accepts (c : TraccarConfig) : bool :=
  negb (String.eqb (serverUrl c) "") &&
  match authMethod c with
  | token => truthy (apiToken c)
  | basic => truthy (username c) && truthy (password c)
  end.

(** On strings of 8-bit code units [btoa] cannot throw; what happens to
    credentials with a code unit above U+00FF is in [Utf16.getAuthHeaders],
    of which this function is the restriction. *)
Definition getAuthHeaders (config : TraccarConfig) : gmap string string :=
  let headers : gmap string string :=
    {[ "Content-Type" := "application/json" ]} in
  match authMethod config with
  | token =>
      if truthy (apiToken config)
      then <[ "Authorization" := "Bearer " +:+ default "" (apiToken config) ]> headers
      else headers
  | basic =>
      if truthy (username config) && truthy (password config)
      then
        let credentials :=
          Str.btoa (default "" (username config) +:+ ":" +:+
                    default "" (password config)) in
        <[ "Authorization" := "Basic " +:+ credentials ]> headers
      else headers
  end.

Section Request.
(** The type of parsed JSON values is left open. *)
Context {Json : Type}.

Record Response : Type := {
  status : Z;
  statusText : string;
  (** what [response.json()] resolves to; [None] when the body is not
      valid JSON and the promise rejects *)
  json : option Json
}.

(** [response.ok] *)
Definition ok (r : Response) : bool :=
  (200 <=? status r) && (status r <=? 299).

Record RequestInit : Type := {
  method : option string;
  body : option string;
  headers : gmap string string
}.

Inductive FetchResult : Type :=
  | Rejected            (* network failure: no response at all *)
  | Responded (r : Response).

(** The network: what [fetch(url, init)] settles to. *)
Variable fetch : string -> RequestInit -> FetchResult.

Definition not_configured : string :=
  "Traccar connection not configured or invalid. Please configure in Settings.".

(** [stored] is the result of [getTraccarConfig()]. *)
Definition apiRequest (stored : option TraccarConfig)
    (endpoint : string) (options : RequestInit) : Outcome Json :=
  match stored with
  | None => Thrown (Error not_configured)
  | Some config =>
      if negb (isValid config) then Thrown (Error not_configured)
      else
        let url := Str.strip_trailing_slash (serverUrl config) +:+ endpoint in
        let hdrs := getAuthHeaders config in
        let init := {| method := method options;
                       body := body options;
                       headers := headers options ∪ hdrs |} in
        match fetch url init with
        | Rejected => Thrown TypeError
        | Responded response =>
            if negb (ok response) then
              if status response =? 401 then
                Thrown (Error "Authentication failed. Please check your Traccar credentials.")
              else if status response =? 404 then
                Thrown (Error "Resource not found.")
              else
                Thrown (Error ("Traccar API error: " +:+ pretty (status response)
                               +:+ " " +:+ statusText response))
            else
              match json response with
              | Some v => Returned v
              | None => Thrown SyntaxError
              end
        end
  end.
End Request.
Arguments Response : clear implicits.
Arguments FetchResult : clear implicits.

Section Probe.
Context {Json : Type}.
Variable fetch : string -> RequestInit -> FetchResult Json.

(** The whole body runs inside [try]; every failure gives [false]. *)
Definition testTraccarConnection (config : TraccarConfig) : bool :=
  let url := Str.strip_trailing_slash (serverUrl config) +:+ "/api/server" in
  let hdrs := getAuthHeaders config in
  match fetch url {| method := Some "GET"; body := None; headers := hdrs |} with
  | Rejected => false
  | Responded response =>
      if negb (ok response) then false
      else
        match json response with
        | Some _ => true
        | None => false
        end
  end.
End Probe.

Inductive DeviceStatus : Type := online | offline | unknown.

#[global] Instance DeviceStatus_eq_dec : EqDecision DeviceStatus.
Proof. solve_decision. Defined.

(** A device as the server sends it; [organizationId] is added by the
    client. *)
Record Device : Type := {
  d_id : Z;
  d_name : string;
  d_uniqueId : string;
  d_status : DeviceStatus;
  d_lastUpdate : option string;
  d_positionId : option Z;
  d_groupId : option Z;
  d_phone : option string;
  d_model : option string;
  d_contact : option string;
  d_category : option string;
  d_disabled : option bool;
  d_organizationId : option string
}.

Record Organization : Type := {
  o_id : string;
  o_name : string;
  o_createdAt : string;
  o_updatedAt : string
}.

(** [org?.id || ''] *)
Definition orgId_or_empty (org : option Organization) : string :=
  match org with
  | Some o => o_id o
  | None => ""
  end.

(** [addOrganizationScope] on an array of devices; [org] is what
    [currentOrgStorage.get()] returns. *)
Definition addOrganizationScope (org : option Organization)
    (data : list Device) : list Device :=
  let orgId := orgId_or_empty org in
  (λ item,
     {| d_id := d_id item; d_name := d_name item; d_uniqueId := d_uniqueId item;
        d_status := d_status item; d_lastUpdate := d_lastUpdate item;
        d_positionId := d_positionId item; d_groupId := d_groupId item;
        d_phone := d_phone item; d_model := d_model item;
        d_contact := d_contact item; d_category := d_category item;
        d_disabled := d_disabled item;
        d_organizationId := Some orgId |}) <$> data.

Definition no_options : RequestInit :=
  {| method := None; body := None; headers := ∅ |}.

(** [getDevices()]: the devices of the server, tagged. *)
Definition getDevices (fetch : string -> RequestInit -> FetchResult (list Device))
    (stored : option TraccarConfig) (org : option Organization)
    : Outcome (list Device) :=
  match apiRequest fetch stored "/api/devices" no_options with
  | Returned devices => Returned (addOrganizationScope org devices)
  | Thrown e => Thrown e
  end.

End Api.

(** ** [getAuthHeaders] on JavaScript strings

    A JavaScript string is a sequence of 16-bit code units, and the
    settings form hands over whatever was typed.  [btoa] encodes a string
    whose code units are all at most U+00FF, one octet per code unit, and
    throws an [InvalidCharacterError] on any other string. *)
Module Utf16.

(** A string as the list of its code units. *)
Definition jsstring : Type := list N.

(** A string literal of the source. *)
Definition of_string (s : string) : jsstring :=
  N_of_ascii <$> String.list_ascii_of_string s.

Inductive Result (A : Type) : Type :=
  | Produced (a : A)
  | InvalidCharacterError.
Arguments Produced {A} a.
Arguments InvalidCharacterError {A}.

(** A string without a code unit above U+00FF as a string of 8-bit code
    units. *)
Definition narrow (s : jsstring) : string :=
  String.string_of_list_ascii (ascii_of_N <$> s).

(** [btoa(s)] *)
Definition btoa (s : jsstring) : Result jsstring :=
  if forallb (λ unit, unit <=? 255)%N s
  then Produced (of_string (Str.btoa (narrow s)))
  else InvalidCharacterError.

Record TraccarConfig : Type := {
  serverUrl : jsstring;
  authMethod : Api.AuthMethod;
  apiToken : option jsstring;
  username : option jsstring;
  password : option jsstring;
  organizationId : jsstring;
  lastTested : option jsstring;
  isValid : bool
}.

(** Truthiness of a string: not empty. *)
Definition nonempty (s : jsstring) : bool :=
  match s with
  | [] => false
  | _ :: _ => true
  end.

(** Truthiness of an optional string field: defined and not empty. *)
Definition truthy (o : option jsstring) : bool :=
  match o with
  | Some s => nonempty s
  | None => false
  end.

(** The checks of the settings form ([handleSave]). *)
Definition handleSave_accepts (c : TraccarConfig) : bool :=
  nonempty (serverUrl c) &&
  match authMethod c with
  | Api.token => truthy (apiToken c)
  | Api.basic => truthy (username c) && truthy (password c)
  end.

Definition getAuthHeaders (config : TraccarConfig)
    : Result (gmap string jsstring) :=
  let headers : gmap string jsstring :=
    {[ "Content-Type" := of_string "application/json" ]} in
  match authMethod config with
  | Api.token =>
      if truthy (apiToken config)
      then Produced (<[ "Authorization" :=
                        of_string "Bearer " ++ default [] (apiToken config) ]>
                       headers)
      else Produced headers
  | Api.basic =>
      if truthy (username config) && truthy (password config)
      then
        match btoa (default [] (username config) ++ of_string ":" ++
                    default [] (password config)) with
        | Produced credentials =>
            Produced (<[ "Authorization" := of_string "Basic " ++ credentials ]>
                        headers)
        | InvalidCharacterError => InvalidCharacterError
        end
      else Produced headers
  end.

(** A configuration of 8-bit strings as the JavaScript value it stands
    for. *)
Definition widen (c : Api.TraccarConfig) : TraccarConfig :=
  {| serverUrl := of_string (Api.serverUrl c);
     authMethod := Api.authMethod c;
     apiToken := of_string <$> Api.apiToken c;
     username := of_string <$> Api.username c;
     password := of_string <$> Api.password c;
     organizationId := of_string (Api.organizationId c);
     lastTested := of_string <$> Api.lastTested c;
     isValid := Api.isValid c |}.

End Utf16.

(** ** services/commands.ts *)
Module Commands.

Inductive CommandType : Type := IMMOBILISE | RESTORE_POWER.

Inductive CommandStatus : Type :=
  requested | pending | executed | failed | cancelled.

Record Command : Type := {
  id : string;
  type : CommandType;
  status : CommandStatus;
  deviceId : Z;
  organizationId : string;
  userId : string;
  reason : string;
  timestamp : string;
  executedAt : option string;
  notes : option string
}.

(** [Partial<Command>]: every field may be absent. *)
Record PartialCommand : Type := {
  p_id : option string;
  p_type : option CommandType;
  p_status : option CommandStatus;
  p_deviceId : option Z;
  p_organizationId : option string;
  p_userId : option string;
  p_reason : option string;
  p_timestamp : option string;
  p_executedAt : option string;
  p_notes : option string
}.

(** [Omit<Command, 'id' | 'timestamp'>] *)
Record NewCommand : Type := {
  n_type : CommandType;
  n_status : CommandStatus;
  n_deviceId : Z;
  n_organizationId : string;
  n_userId : string;
  n_reason : string;
  n_executedAt : option string;
  n_notes : option string
}.

(** The item under the key ['commands'] of localStorage. *)
Inductive Storage : Type :=
  | Missing                       (* [getItem] gives [null] (or an empty string) *)
  | Unparsable                    (* the item is not the JSON of a command array *)
  | Stored (allCommands : list Command).

(** [{ ...c, ...updates }] *)
Definition merge (c : Command) (updates : PartialCommand) : Command :=
  {| id := default (id c) (p_id updates);
     type := default (type c) (p_type updates);
     status := default (status c) (p_status updates);
     deviceId := default (deviceId c) (p_deviceId updates);
     organizationId := default (organizationId c) (p_organizationId updates);
     userId := default (userId c) (p_userId updates);
     reason := default (reason c) (p_reason updates);
     timestamp := default (timestamp c) (p_timestamp updates);
     executedAt := match p_executedAt updates with
                   | Some v => Some v
                   | None => executedAt c
                   end;
     notes := match p_notes updates with
              | Some v => Some v
              | None => notes c
              end |}.

(** [allCommands.findIndex(cmd => cmd.id === id)], with the element found. *)
Definition findIndex (id0 : string) (allCommands : list Command)
    : option (nat * Command) :=
  list_find (λ cmd, id cmd = id0) allCommands.

(** [uuid] and [now] are what [crypto.randomUUID()] and
    [new Date().toISOString()] return. *)
Definition createCommand (uuid now : string) (command : NewCommand)
    (st : Storage) : Outcome (Command * Storage) :=
  let newCommand :=
    {| id := uuid; type := n_type command; status := n_status command;
       deviceId := n_deviceId command;
       organizationId := n_organizationId command;
       userId := n_userId command; reason := n_reason command;
       timestamp := now; executedAt := n_executedAt command;
       notes := n_notes command |} in
  match st with
  | Missing => Returned (newCommand, Stored [newCommand])
  | Unparsable => Thrown SyntaxError
  | Stored allCommands => Returned (newCommand, Stored (allCommands ++ [newCommand]))
  end.

(** Returns the updated record ([None] for [null]) and the new storage. *)
Definition updateCommand (id0 : string) (updates : PartialCommand)
    (st : Storage) : option Command * Storage :=
  match st with
  | Missing => (None, st)
  | Unparsable => (None, st)
  | Stored allCommands =>
      match findIndex id0 allCommands with
      | None => (None, st)
      | Some (index, c) =>
          let c' := merge c updates in
          (Some c', Stored (<[index := c']> allCommands))
      end
  end.

Definition getCommands (orgId : string) (st : Storage) : list Command :=
  match st with
  | Stored allCommands =>
      filter (λ cmd, organizationId cmd = orgId) allCommands
  | _ => []
  end.

#[global] Instance CommandType_eq_dec : EqDecision CommandType.
Proof. solve_decision. Defined.

#[global] Instance CommandStatus_eq_dec : EqDecision CommandStatus.
Proof. solve_decision. Defined.

Definition getDeviceCommands (deviceId0 : Z) (orgId : string) (st : Storage)
    : list Command :=
  filter (λ cmd, deviceId cmd = deviceId0) (getCommands orgId st).

(** [allCommands.find(cmd => cmd.id === id) || null] *)
Definition getCommand (id0 : string) (st : Storage) : option Command :=
  match st with
  | Stored allCommands => snd <$> list_find (λ cmd, id cmd = id0) allCommands
  | _ => None
  end.

Definition getPendingCommands (orgId : string) (st : Storage) : list Command :=
  filter (λ cmd, status cmd = requested \/ status cmd = pending)
    (getCommands orgId st).

End Commands.

(** ** services/traccarWebSocket.ts *)
Module Ws.

Inductive WebSocketMessageType : Type := positions | devices | events.

#[global] Instance WebSocketMessageType_eq_dec : EqDecision WebSocketMessageType.
Proof. solve_decision. Defined.

#[global] Instance WebSocketMessageType_countable : Countable WebSocketMessageType.
Proof.
  refine (inj_countable'
    (λ t, match t with positions => 0 | devices => 1 | events => 2 end)%nat
    (λ n, match n with 0 => positions | 1 => devices | _ => events end)%nat _).
  intros []; reflexivity.
Defined.

Inductive ReadyState : Type := CONNECTING | OPEN | CLOSING | CLOSED.

#[global] Instance ReadyState_eq_dec : EqDecision ReadyState.
Proof. solve_decision. Defined.

Record Socket : Type := { url : string; readyState : ReadyState }.

(** A handler is a function value; two handlers are the same when they are
    the same reference. *)
Abbreviation MessageHandler := nat (only parsing).

(** The fields of [TraccarWebSocketClient], followed by what the client
    has set up in its environment: the sockets it constructed, the
    [setTimeout] callbacks not yet run, every delay it ever passed to
    [setTimeout], and the console. *)
Record State : Type := {
  ws : option nat;                  (* index into [sockets] *)
  config : option Api.TraccarConfig;
  reconnectAttempts : Z;
  handlers : gmap WebSocketMessageType (list MessageHandler);
  isConnecting : bool;
  sockets : list Socket;
  timers : list Z;
  scheduled : list Z;
  console : list string
}.

Definition maxReconnectAttempts : Z := 5.
Definition reconnectDelay : Z := 3000.

Definition init : State :=
  {| ws := None; config := None; reconnectAttempts := 0; handlers := ∅;
     isConnecting := false; sockets := []; timers := []; scheduled := [];
     console := [] |}.

Definition set_ws (v : option nat) (s : State) : State :=
  {| ws := v; config := config s; reconnectAttempts := reconnectAttempts s;
     handlers := handlers s; isConnecting := isConnecting s;
     sockets := sockets s; timers := timers s; scheduled := scheduled s;
     console := console s |}.

Definition set_config (v : option Api.TraccarConfig) (s : State) : State :=
  {| ws := ws s; config := v; reconnectAttempts := reconnectAttempts s;
     handlers := handlers s; isConnecting := isConnecting s;
     sockets := sockets s; timers := timers s; scheduled := scheduled s;
     console := console s |}.

Definition set_reconnectAttempts (v : Z) (s : State) : State :=
  {| ws := ws s; config := config s; reconnectAttempts := v;
     handlers := handlers s; isConnecting := isConnecting s;
     sockets := sockets s; timers := timers s; scheduled := scheduled s;
     console := console s |}.

Definition set_handlers (v : gmap WebSocketMessageType (list MessageHandler))
    (s : State) : State :=
  {| ws := ws s; config := config s; reconnectAttempts := reconnectAttempts s;
     handlers := v; isConnecting := isConnecting s;
     sockets := sockets s; timers := timers s; scheduled := scheduled s;
     console := console s |}.

Definition set_isConnecting (v : bool) (s : State) : State :=
  {| ws := ws s; config := config s; reconnectAttempts := reconnectAttempts s;
     handlers := handlers s; isConnecting := v;
     sockets := sockets s; timers := timers s; scheduled := scheduled s;
     console := console s |}.

Definition set_sockets (v : list Socket) (s : State) : State :=
  {| ws := ws s; config := config s; reconnectAttempts := reconnectAttempts s;
     handlers := handlers s; isConnecting := isConnecting s;
     sockets := v; timers := timers s; scheduled := scheduled s;
     console := console s |}.

Definition set_timers (v : list Z) (s : State) : State :=
  {| ws := ws s; config := config s; reconnectAttempts := reconnectAttempts s;
     handlers := handlers s; isConnecting := isConnecting s;
     sockets := sockets s; timers := v; scheduled := scheduled s;
     console := console s |}.

(** [console.log] / [console.error]: the message, without its arguments. *)
Definition log (msg : string) (s : State) : State :=
  {| ws := ws s; config := config s; reconnectAttempts := reconnectAttempts s;
     handlers := handlers s; isConnecting := isConnecting s;
     sockets := sockets s; timers := timers s; scheduled := scheduled s;
     console := console s ++ [msg] |}.

(** [setTimeout(callback, delay)]; the callback of this client is always
    the same closure, run by [fire_timer] below. *)
Definition setTimeout (delay : Z) (s : State) : State :=
  {| ws := ws s; config := config s; reconnectAttempts := reconnectAttempts s;
     handlers := handlers s; isConnecting := isConnecting s;
     sockets := sockets s; timers := timers s ++ [delay];
     scheduled := scheduled s ++ [delay]; console := console s |}.

(** The endpoint computed in [connect]. *)
Definition wsUrl (serverUrl : string) : string :=
  Str.strip_trailing_slash
    (Str.replace_prefix "https:" "wss:"
       (Str.replace_prefix "http:" "ws:" serverUrl))
  +:+ "/api/socket".

(** [this.ws && this.ws.readyState === WebSocket.OPEN] *)
Definition ws_open (s : State) : bool :=
  match ws s with
  | Some i =>
      match sockets s !! i with
      | Some sk => bool_decide (readyState sk = OPEN)
      | None => false
      end
  | None => false
  end.

Definition attemptReconnect (s : State) : State :=
  if maxReconnectAttempts <=? reconnectAttempts s then
    log "Max reconnection attempts reached" s
  else
    match config s with
    | None => s
    | Some _ =>
        let s1 := set_reconnectAttempts (reconnectAttempts s + 1) s in
        let delay := reconnectDelay * 2 ^ (reconnectAttempts s1 - 1) in
        setTimeout delay s1
    end.

(** [ws.close()]: an open or opening socket starts closing; its close
    event comes later. *)
Definition close_socket (i : nat) (s : State) : State :=
  match sockets s !! i with
  | Some sk =>
      match readyState sk with
      | CONNECTING | OPEN =>
          set_sockets (<[i := {| url := url sk; readyState := CLOSING |}]> (sockets s)) s
      | _ => s
      end
  | None => s
  end.

Definition disconnect (s : State) : State :=
  let s1 := match ws s with
            | Some i => set_ws None (close_socket i s)
            | None => s
            end in
  set_reconnectAttempts 0 (set_config None (set_handlers ∅ s1)).

(** The bodies of the three socket callbacks installed by [connect]. *)
Definition onopen (s : State) : State :=
  set_reconnectAttempts 0
    (set_isConnecting false (log "Traccar WebSocket connected" s)).

Definition onerror (s : State) : State :=
  set_isConnecting false (log "WebSocket error:" s).

Definition onclose (s : State) : State :=
  attemptReconnect
    (set_isConnecting false (log "Traccar WebSocket disconnected" s)).

Section Client.
(** Whether [new WebSocket(url)] returns; it throws on a URL it rejects. *)
Variable constructible : string -> bool.

(** [connect] takes the configuration as it arrives at run time: the timer
    callback passes [this.config!], which is [null] after [disconnect]. *)
Definition connect (config0 : option Api.TraccarConfig) (s : State) : State :=
  if isConnecting s || ws_open s then s
  else
    let s1 := set_isConnecting true (set_config config0 s) in
    let caught (s : State) : State :=
      attemptReconnect
        (set_isConnecting false (log "Failed to create WebSocket connection:" s)) in
    match config0 with
    | None => caught s1    (* [config.serverUrl] on [null] throws *)
    | Some cfg =>
        let u := wsUrl (Api.serverUrl cfg) in
        if constructible u then
          set_ws (Some (List.length (sockets s1)))
            (set_sockets (sockets s1 ++ [{| url := u; readyState := CONNECTING |}]) s1)
        else caught s1
    end.

(** The callback given to [setTimeout] by [attemptReconnect]. *)
Definition timer_callback (s : State) : State :=
  connect (config s)
    (log ("Attempting to reconnect (" +:+ pretty (reconnectAttempts s) +:+ "/"
          +:+ pretty maxReconnectAttempts +:+ ")...") s).

(** The [j]-th pending timer expires. *)
Definition fire_timer (j : nat) (s : State) : State :=
  match timers s !! j with
  | Some _ => timer_callback (set_timers (delete j (timers s)) s)
  | None => s
  end.

Definition set_readyState (i : nat) (r : ReadyState) (s : State) : State :=
  match sockets s !! i with
  | Some sk => set_sockets (<[i := {| url := url sk; readyState := r |}]> (sockets s)) s
  | None => s
  end.

Definition readyState_of (i : nat) (s : State) : option ReadyState :=
  readyState <$> sockets s !! i.

(** What can happen to the client.  The first four are calls made by the
    application; the others are delivered by the browser. *)
Inductive Event : Type :=
  | Connect (cfg : Api.TraccarConfig)
  | Disconnect
  | Subscribe (type : WebSocketMessageType) (handler : MessageHandler)
  | Unsubscribe (type : WebSocketMessageType) (handler : MessageHandler)
  | SockOpen (i : nat)
  | SockError (i : nat)
  | SockClose (i : nat)
  | SockMessage (i : nat) (parses : bool)
  | TimerFire (j : nat).

Definition automatic (e : Event) : bool :=
  match e with
  | Connect _ | Disconnect | Subscribe _ _ | Unsubscribe _ _ => false
  | _ => true
  end.

(** JavaScript [Set]: insertion ordered, no duplicates. *)
Definition set_add (h : MessageHandler) (l : list MessageHandler) : list MessageHandler :=
  if bool_decide (h ∈ l) then l else l ++ [h].

Definition set_delete (h : MessageHandler) (l : list MessageHandler) : list MessageHandler :=
  filter (λ h', h' ≠ h) l.

Definition subscribe (type : WebSocketMessageType) (handler : MessageHandler)
    (s : State) : State :=
  let hs := match handlers s !! type with
            | Some l => handlers s
            | None => <[type := []]> (handlers s)
            end in
  set_handlers (<[type := set_add handler (default [] (hs !! type))]> hs) s.

(** The function returned by [subscribe type handler]. *)
Definition unsubscribe (type : WebSocketMessageType) (handler : MessageHandler)
    (s : State) : State :=
  match handlers s !! type with
  | Some l => set_handlers (<[type := set_delete handler l]> (handlers s)) s
  | None => s
  end.

Definition step (e : Event) (s : State) : State :=
  match e with
  | Connect cfg => connect (Some cfg) s
  | Disconnect => disconnect s
  | Subscribe type h => subscribe type h s
  | Unsubscribe type h => unsubscribe type h s
  | SockOpen i =>
      match readyState_of i s with
      | Some CONNECTING => onopen (set_readyState i OPEN s)
      | _ => s
      end
  | SockError i =>
      match readyState_of i s with
      | Some CLOSED | None => s
      | _ => onerror s
      end
  | SockClose i =>
      match readyState_of i s with
      | Some CLOSED | None => s
      | _ => onclose (set_readyState i CLOSED s)
      end
  | SockMessage i parses =>
      match readyState_of i s with
      | Some OPEN =>
          if parses then s else log "Error parsing WebSocket message:" s
      | _ => s
      end
  | TimerFire j => fire_timer j s
  end.

Definition run (es : list Event) (s : State) : State :=
  foldl (λ s e, step e s) s es.
End Client.

Section Dispatch.
(** The payload of a message kind ([data: any]). *)
Context {Data : Type}.

(** A parsed inbound message; a field is [None] when the key is absent or
    its value is falsy. *)
Record WebSocketMessage : Type := {
  m_positions : option Data;
  m_devices : option Data;
  m_events : option Data
}.

(** The calls [handler(data)] made, in order.  A handler that throws is
    caught and the iteration goes on, so every registered handler is
    called. *)
Definition notifyHandlers (type : WebSocketMessageType) (data : Data)
    (s : State) : list (MessageHandler * WebSocketMessageType * Data) :=
  match handlers s !! type with
  | Some l => (λ h, (h, type, data)) <$> l
  | None => []
  end.

Definition handleMessage (message : WebSocketMessage) (s : State)
    : list (MessageHandler * WebSocketMessageType * Data) :=
  (match m_positions message with
   | Some d => notifyHandlers positions d s
   | None => []
   end) ++
  (match m_devices message with
   | Some d => notifyHandlers devices d s
   | None => []
   end) ++
  (match m_events message with
   | Some d => notifyHandlers events d s
   | None => []
   end).
End Dispatch.
Arguments WebSocketMessage : clear implicits.

(** [this.ws !== null && this.ws.readyState === WebSocket.OPEN] *)
Definition isConnected (s : State) : bool :=
  match ws s with
  | Some i =>
      match sockets s !! i with
      | Some sk => bool_decide (readyState sk = OPEN)
      | None => false
      end
  | None => false
  end.

End Ws.

(** ** components/ImmobilisationModal.tsx *)
Module Modal.

Record Checklist : Type := {
  vehicleStationary : bool;
  userAuthorized : bool;
  actionAudited : bool
}.

Inductive ChecklistKey : Type :=
  | key_vehicleStationary | key_userAuthorized | key_actionAudited.

(** The component state ([useState] cells), the [isOpen] flag kept by the
    parent page, and the command log the component writes to. *)
Record State : Type := {
  step : Z;
  checklist : Checklist;
  reason : string;
  confirmation : string;
  isSubmitting : bool;
  isOpen : bool;
  storage : Commands.Storage
}.

Definition unchecked : Checklist :=
  {| vehicleStationary := false; userAuthorized := false; actionAudited := false |}.

Definition initial (st : Commands.Storage) : State :=
  {| step := 1; checklist := unchecked; reason := ""; confirmation := "";
     isSubmitting := false; isOpen := false; storage := st |}.

Definition set_step (v : Z) (s : State) : State :=
  {| step := v; checklist := checklist s; reason := reason s;
     confirmation := confirmation s; isSubmitting := isSubmitting s;
     isOpen := isOpen s; storage := storage s |}.

Definition set_checklist (v : Checklist) (s : State) : State :=
  {| step := step s; checklist := v; reason := reason s;
     confirmation := confirmation s; isSubmitting := isSubmitting s;
     isOpen := isOpen s; storage := storage s |}.

Definition set_reason (v : string) (s : State) : State :=
  {| step := step s; checklist := checklist s; reason := v;
     confirmation := confirmation s; isSubmitting := isSubmitting s;
     isOpen := isOpen s; storage := storage s |}.

Definition set_confirmation (v : string) (s : State) : State :=
  {| step := step s; checklist := checklist s; reason := reason s;
     confirmation := v; isSubmitting := isSubmitting s;
     isOpen := isOpen s; storage := storage s |}.

Definition set_isSubmitting (v : bool) (s : State) : State :=
  {| step := step s; checklist := checklist s; reason := reason s;
     confirmation := confirmation s; isSubmitting := v;
     isOpen := isOpen s; storage := storage s |}.

Definition set_isOpen (v : bool) (s : State) : State :=
  {| step := step s; checklist := checklist s; reason := reason s;
     confirmation := confirmation s; isSubmitting := isSubmitting s;
     isOpen := v; storage := storage s |}.

Definition set_storage (v : Commands.Storage) (s : State) : State :=
  {| step := step s; checklist := checklist s; reason := reason s;
     confirmation := confirmation s; isSubmitting := isSubmitting s;
     isOpen := isOpen s; storage := v |}.

Definition fully_checked (c : Checklist) : bool :=
  vehicleStationary c && userAuthorized c && actionAudited c.

Definition requiredConfirmation (type : Commands.CommandType) : string :=
  match type with
  | Commands.IMMOBILISE => "IMMOBILISE"
  | Commands.RESTORE_POWER => "RESTORE POWER"
  end.

Definition canProceed (type : Commands.CommandType) (s : State) : bool :=
  if step s =? 1 then fully_checked (checklist s)
  else if step s =? 2 then (0 <? String.length (Str.trim (reason s)))%nat
  else String.eqb (confirmation s) (requiredConfirmation type).

Definition handleChecklistChange (key : ChecklistKey) (s : State) : State :=
  let prev := checklist s in
  set_checklist
    match key with
    | key_vehicleStationary =>
        {| vehicleStationary := negb (vehicleStationary prev);
           userAuthorized := userAuthorized prev;
           actionAudited := actionAudited prev |}
    | key_userAuthorized =>
        {| vehicleStationary := vehicleStationary prev;
           userAuthorized := negb (userAuthorized prev);
           actionAudited := actionAudited prev |}
    | key_actionAudited =>
        {| vehicleStationary := vehicleStationary prev;
           userAuthorized := userAuthorized prev;
           actionAudited := negb (actionAudited prev) |}
    end s.

(** [onClose()] is the parent's [setShow...Modal(false)]. *)
Definition handleClose (s : State) : State :=
  set_isOpen false
    (set_confirmation "" (set_reason "" (set_checklist unchecked (set_step 1 s)))).

Section Component.
(** The props of one modal instance. *)
Variable deviceId : Z.
Variable organizationId : string.
Variable userId : string.
Variable type : Commands.CommandType.
(** [String.prototype.toUpperCase] *)
Variable toUpperCase : string -> string.

(** Returns the next state and the command passed to [onSuccess], if any. *)
Definition handleSubmit (uuid now : string) (s : State)
    : State * option Commands.Command :=
  if negb (canProceed type s) then (s, None)
  else
    match Commands.createCommand uuid now
            {| Commands.n_type := type;
               Commands.n_status := Commands.requested;
               Commands.n_deviceId := deviceId;
               Commands.n_organizationId := organizationId;
               Commands.n_userId := userId;
               Commands.n_reason := Str.trim (reason s);
               Commands.n_executedAt := None;
               Commands.n_notes := None |}
            (storage s) with
    | Returned (command, st') =>
        (set_isSubmitting false (handleClose (set_storage st' s)), Some command)
    | Thrown _ =>
        (set_isSubmitting false s, None)
    end.

(** What the operator (or, for [Open], the page) can do.  A control that
    is not rendered or is disabled in the current state does nothing. *)
Inductive Action : Type :=
  | Open
  | ClickX
  | ClickCancel
  | ToggleCheck (key : ChecklistKey)
  | EditReason (value : string)
  | TypeConfirmation (value : string)
  | ClickBack
  | ClickNext
  | ClickSubmit (uuid now : string).

Definition dispatch (a : Action) (s : State) : State * option Commands.Command :=
  if negb (isOpen s) then
    match a with
    | Open => (set_isOpen true s, None)
    | _ => (s, None)
    end
  else
    match a with
    | Open => (s, None)
    | ClickX => (handleClose s, None)
    | ClickCancel =>
        if isSubmitting s then (s, None) else (handleClose s, None)
    | ToggleCheck key =>
        if step s =? 1 then (handleChecklistChange key s, None) else (s, None)
    | EditReason value =>
        if step s =? 2 then (set_reason value s, None) else (s, None)
    | TypeConfirmation value =>
        if step s =? 3 then (set_confirmation (toUpperCase value) s, None)
        else (s, None)
    | ClickBack =>
        if (1 <? step s) && negb (isSubmitting s)
        then (set_step (step s - 1) s, None) else (s, None)
    | ClickNext =>
        if (step s <? 3) && canProceed type s && negb (isSubmitting s)
        then (set_step (step s + 1) s, None) else (s, None)
    | ClickSubmit uuid now =>
        if negb (step s <? 3) && canProceed type s && negb (isSubmitting s)
        then handleSubmit uuid now s else (s, None)
    end.

(** Running a list of actions; the commands created are collected with
    the state each was submitted from. *)
Fixpoint play (acts : list Action) (s : State)
    : State * list (State * Commands.Command) :=
  match acts with
  | [] => (s, [])
  | a :: rest =>
      let '(s', out) := dispatch a s in
      let '(s'', outs) := play rest s' in
      (s'', match out with
            | Some c => (s, c) :: outs
            | None => outs
            end)
  end.
End Component.

End Modal.

(** ** The realtime endpoint as the specification words it *)
Module Spec.

(** "Scheme substitution (http→ws, https→wss)": the scheme is looked at
    once. *)
Definition scheme_substitution (baseUrl : string) : string :=
  match Str.strip_prefix "https:" baseUrl with
  | Some rest => "wss:" +:+ rest
  | None =>
      match Str.strip_prefix "http:" baseUrl with
      | Some rest => "ws:" +:+ rest
      | None => baseUrl
      end
  end.

(** "Stripping a trailing slash": drop the last character when it is a
    slash. *)
Definition without_trailing_slash (s : string) : string :=
  match reverse (String.list_ascii_of_string s) with
  | c :: r =>
      if Ascii.eqb c "/"%char then String.string_of_list_ascii (reverse r) else s
  | [] => s
  end.

Definition realtime_endpoint (baseUrl : string) : string :=
  without_trailing_slash (scheme_substitution baseUrl) +:+ "/api/socket".

End Spec.

(** ** Base 64 in the words of RFC 4648, section 4

    The input is read as a stream of bits, cut into groups of six bits,
    and each group is the index of a character in the alphabet; the last
    group is completed with zero bits and the output with [=]. *)
Module Rfc4648.

(** The eight bits of an octet, most significant first. *)
Definition bits_of_octet (n : N) : list bool :=
  N.testbit n <$> [7; 6; 5; 4; 3; 2; 1; 0]%N.

(** The input as one stream of bits, from left to right. *)
Definition bit_stream (octets : list N) : list bool :=
  octets ≫= bits_of_octet.

(** The stream cut into groups of six bits; when fewer than six bits are
    left at the end, bits with value zero are added on the right. *)
Fixpoint groups_of_six (bits : list bool) : list (list bool) :=
  match bits with
  | [] => []
  | b1 :: b2 :: b3 :: b4 :: b5 :: b6 :: rest =>
      [b1; b2; b3; b4; b5; b6] :: groups_of_six rest
  | short => [take 6 (short ++ replicate 5 false)]
  end.

(** The number that a group of bits writes in base two. *)
Definition index_of (group : list bool) : N :=
  foldl (λ n (b : bool), 2 * n + (if b then 1 else 0))%N 0%N group.

(** Table 1, the base 64 alphabet: A-Z, a-z, 0-9, [+] and [/]. *)
Definition letter (i : N) : ascii :=
  ascii_of_N
    (if i <? 26 then 65 + i
     else if i <? 52 then 97 + (i - 26)
     else if i <? 62 then 48 + (i - 52)
     else if i =? 62 then 43
     else 47)%N.

(** The final quantum: no padding after a multiple of three octets, two
    [=] when one octet is left over, one [=] when two are. *)
Definition padding (octets : list N) : nat :=
  match (List.length octets mod 3)%nat with
  | 0%nat => 0%nat
  | 1%nat => 2%nat
  | _ => 1%nat
  end.

Definition base64 (octets : list N) : string :=
  String.string_of_list_ascii
    ((letter ∘ index_of <$> groups_of_six (bit_stream octets)) ++
     replicate (padding octets) "="%char).

End Rfc4648.

(** ** Concrete inputs and statements taken from the specification *)

Definition token_config : Api.TraccarConfig :=
  {| Api.serverUrl := "https://x.test"; Api.authMethod := Api.token;
     Api.apiToken := Some "abc"; Api.username := None; Api.password := None;
     Api.organizationId := "org-1"; Api.lastTested := None;
     Api.isValid := true |}.

Definition basic_config : Api.TraccarConfig :=
  {| Api.serverUrl := "http://track.example.com/"; Api.authMethod := Api.basic;
     Api.apiToken := Some ""; Api.username := Some "admin";
     Api.password := Some "admin";
     Api.organizationId := "org-1"; Api.lastTested := None;
     Api.isValid := true |}.

(** Basic authentication with the password [p€ss]: the euro sign is the
    code unit U+20AC. *)
Definition euro_config : Utf16.TraccarConfig :=
  {| Utf16.serverUrl := Utf16.of_string "https://x.test";
     Utf16.authMethod := Api.basic;
     Utf16.apiToken := None;
     Utf16.username := Some (Utf16.of_string "admin");
     Utf16.password := Some [112; 8364; 115; 115]%N;
     Utf16.organizationId := Utf16.of_string "org-1";
     Utf16.lastTested := None;
     Utf16.isValid := true |}.

(** The basic half of the claim about the Authorization header, read
    literally: every configuration that the form accepts, flagged valid,
    with a user name and a password, gets a [Basic] header. *)
Definition basic_header_for_every_valid_config : Prop :=
  forall c u p,
    Utf16.handleSave_accepts c = true -> Utf16.isValid c = true ->
    Utf16.authMethod c = Api.basic ->
    Utf16.username c = Some u -> Utf16.password c = Some p ->
    exists h credentials,
      Utf16.getAuthHeaders c = Utf16.Produced h /\
      h !! "Authorization" = Some (Utf16.of_string "Basic " ++ credentials).

(** The request that [apiRequest] hands to [fetch]. *)
Definition request_url (config : Api.TraccarConfig) (endpoint : string) : string :=
  Str.strip_trailing_slash (Api.serverUrl config) +:+ endpoint.

Definition request_init (config : Api.TraccarConfig)
    (options : Api.RequestInit) : Api.RequestInit :=
  {| Api.method := Api.method options;
     Api.body := Api.body options;
     Api.headers := Api.headers options ∪ Api.getAuthHeaders config |}.

(** The success half of the error mapping, read literally: every response
    with a 2xx status makes [apiRequest] return. *)
Definition every_2xx_returns : Prop :=
  forall (fetch : string -> Api.RequestInit -> Api.FetchResult unit)
         config endpoint options response,
    Api.isValid config = true ->
    fetch (request_url config endpoint) (request_init config options)
    = Api.Responded response ->
    Api.ok response = true ->
    exists v, Api.apiRequest fetch (Some config) endpoint options = Returned v.

Definition delete_options : Api.RequestInit :=
  {| Api.method := Some "DELETE"; Api.body := None; Api.headers := ∅ |}.

(** A 200 whose body is not JSON, such as an HTML page served by a proxy. *)
Definition not_json : Api.Response unit :=
  {| Api.status := 200; Api.statusText := "OK"; Api.json := None |}.

(** The answer to a successful DELETE: no body to parse. *)
Definition no_content : Api.Response unit :=
  {| Api.status := 204; Api.statusText := "No Content"; Api.json := None |}.

Definition server_error : Api.Response unit :=
  {| Api.status := 500; Api.statusText := "Internal Server Error";
     Api.json := None |}.

Definition unauthorized : Api.Response unit :=
  {| Api.status := 401; Api.statusText := "Unauthorized"; Api.json := None |}.

Definition not_found : Api.Response unit :=
  {| Api.status := 404; Api.statusText := "Not Found"; Api.json := None |}.

Definition ok_body : Api.Response unit :=
  {| Api.status := 200; Api.statusText := "OK"; Api.json := Some tt |}.

Definition cmd_a : Commands.Command :=
  {| Commands.id := "a"; Commands.type := Commands.IMMOBILISE;
     Commands.status := Commands.requested; Commands.deviceId := 7;
     Commands.organizationId := "org-1"; Commands.userId := "u-1";
     Commands.reason := "theft"; Commands.timestamp := "2024-01-01T00:00:00.000Z";
     Commands.executedAt := None; Commands.notes := None |}.

Definition cmd_c : Commands.Command :=
  {| Commands.id := "c"; Commands.type := Commands.RESTORE_POWER;
     Commands.status := Commands.pending; Commands.deviceId := 8;
     Commands.organizationId := "org-1"; Commands.userId := "u-2";
     Commands.reason := "recovered"; Commands.timestamp := "2024-01-02T00:00:00.000Z";
     Commands.executedAt := None; Commands.notes := None |}.

(** [{ id: 'b' }] *)
Definition rename_to_b : Commands.PartialCommand :=
  {| Commands.p_id := Some "b"; Commands.p_type := None; Commands.p_status := None;
     Commands.p_deviceId := None; Commands.p_organizationId := None;
     Commands.p_userId := None; Commands.p_reason := None;
     Commands.p_timestamp := None; Commands.p_executedAt := None;
     Commands.p_notes := None |}.

(** [{ status: 'executed', executedAt: '2024-01-03T00:00:00.000Z' }] *)
Definition mark_executed : Commands.PartialCommand :=
  {| Commands.p_id := None; Commands.p_type := None;
     Commands.p_status := Some Commands.executed;
     Commands.p_deviceId := None; Commands.p_organizationId := None;
     Commands.p_userId := None; Commands.p_reason := None;
     Commands.p_timestamp := None;
     Commands.p_executedAt := Some "2024-01-03T00:00:00.000Z";
     Commands.p_notes := None |}.

(** The update operation never changes the id of the record it updates. *)
Definition update_never_changes_id : Prop :=
  forall id0 updates st c',
    (Commands.updateCommand id0 updates st).1 = Some c' ->
    Commands.id c' = id0.

(** A browser that accepts every endpoint. *)
Definition accepts_all : string -> bool := λ _, true.

(** The client right after [connect(token_config)]: socket 0 is opening. *)
Definition connecting_client : Ws.State :=
  Ws.connect accepts_all (Some token_config) Ws.init.

(** The same client after socket 0 failed: the first reconnect is scheduled
    and has not fired. *)
Definition reconnect_pending : Ws.State :=
  Ws.step accepts_all (Ws.SockClose 0) connecting_client.

(** An error event schedules a reconnect, as a close event does. *)
Definition error_schedules_reconnect : Prop :=
  forall constructible s i cfg,
    Ws.config s = Some cfg ->
    Ws.reconnectAttempts s < Ws.maxReconnectAttempts ->
    Ws.ws s = Some i ->
    Ws.readyState_of i s = Some Ws.CONNECTING \/
    Ws.readyState_of i s = Some Ws.OPEN ->
    Ws.scheduled (Ws.step constructible (Ws.SockError i) s) <> Ws.scheduled s.

(** [disconnect] leaves no reconnect timer pending. *)
Definition disconnect_cancels_timers : Prop :=
  forall s, Ws.timers (Ws.disconnect s) = [].

(** After [disconnect], a timer that expires runs no connect step: the
    client is left exactly as it was. *)
Definition no_connect_step_after_disconnect : Prop :=
  forall constructible s j,
    Ws.step constructible (Ws.TimerFire j) (Ws.disconnect s) = Ws.disconnect s.

(** [n] connection attempts in a row that fail: socket [k] closes without
    having opened, then the timer scheduled for it expires. *)
Definition failures (n : nat) : list Ws.Event :=
  flat_map (λ k, [Ws.SockClose k; Ws.TimerFire 0]) (seq 0 n).

(** The client is waiting for its [k]-th reconnect attempt (the first
    attempt when [k = 0]) to succeed: the newest socket is opening and
    nothing is scheduled. *)
Definition retrying (cfg : Api.TraccarConfig) (k : nat) (s : Ws.State) : Prop :=
  Ws.config s = Some cfg /\
  Ws.reconnectAttempts s = Z.of_nat k /\
  Ws.isConnecting s = true /\
  Ws.timers s = [] /\
  Ws.ws s = Some k /\
  List.length (Ws.sockets s) = S k /\
  Ws.readyState_of k s = Some Ws.CONNECTING.

(** Retries are used up: every socket is closed and nothing is scheduled. *)
Definition exhausted (cfg : Api.TraccarConfig) (s : Ws.State) : Prop :=
  Ws.config s = Some cfg /\
  Ws.reconnectAttempts s = Ws.maxReconnectAttempts /\
  Ws.isConnecting s = false /\
  Ws.timers s = [] /\
  Ws.ws s = Some 5%nat /\
  List.length (Ws.sockets s) = 6%nat /\
  Ws.readyState_of 5 s = Some Ws.CLOSED.

(** The handler sets are sets: no handler is held twice. *)
Definition handlers_wf (s : Ws.State) : Prop :=
  forall type l, Ws.handlers s !! type = Some l -> NoDup l.

(** How many of the calls are calls of [h] for messages of kind [type]. *)
Definition calls_of {Data : Type} (h : nat) (type : Ws.WebSocketMessageType)
    (calls : list (nat * Ws.WebSocketMessageType * Data)) : nat :=
  List.length (filter (λ c, c.1.1 = h /\ c.1.2 = type) calls).

(** The handlers registered for a kind, in subscription order. *)
Definition registered (type : Ws.WebSocketMessageType) (s : Ws.State) : list nat :=
  default [] (Ws.handlers s !! type).

Definition payload_of {Data : Type} (type : Ws.WebSocketMessageType)
    (m : Ws.WebSocketMessage Data) : option Data :=
  match type with
  | Ws.positions => Ws.m_positions m
  | Ws.devices => Ws.m_devices m
  | Ws.events => Ws.m_events m
  end.

(** The client after [connect(token_config)] and six failed attempts in a
    row (the first one and five reconnects). *)
Definition gave_up : Ws.State :=
  Ws.run accepts_all (Ws.Connect token_config :: failures 6) Ws.init.

(** The delays of the five reconnect attempts, in milliseconds. *)
Definition backoff_delays : list Z := [3000; 6000; 12000; 24000; 48000].

(** A client with two position handlers and one event handler. *)
Definition three_subscribers : Ws.State :=
  Ws.subscribe Ws.events 3
    (Ws.subscribe Ws.positions 2 (Ws.subscribe Ws.positions 1 Ws.init)).

(** [{ positions: [..] }] with payload [p]. *)
Definition positions_only (p : Z) : Ws.WebSocketMessage Z :=
  {| Ws.m_positions := Some p; Ws.m_devices := None; Ws.m_events := None |}.

(** What holds of the workflow state whatever the operator does: the step
    is 1, 2 or 3, step 2 is only shown with the checklist complete, and
    step 3 only with a reason that is not blank. *)
Definition workflow_inv (s : Modal.State) : Prop :=
  1 <= Modal.step s <= 3 /\
  (2 <= Modal.step s -> Modal.fully_checked (Modal.checklist s) = true) /\
  (3 <= Modal.step s -> Str.trim (Modal.reason s) <> "") /\
  Modal.isSubmitting s = false.

(** An operator going through the three steps, with a detour back to the
    reason, and submitting. *)
Definition careful_operator : list Modal.Action :=
  [ Modal.Open;
    Modal.ToggleCheck Modal.key_vehicleStationary;
    Modal.ClickNext;
    Modal.ToggleCheck Modal.key_userAuthorized;
    Modal.ToggleCheck Modal.key_actionAudited;
    Modal.ClickNext;
    Modal.EditReason "  stolen vehicle ";
    Modal.ClickNext;
    Modal.TypeConfirmation "immobilize";
    Modal.ClickSubmit "uuid-0" "2024-01-01T00:00:00.000Z";
    Modal.ClickBack;
    Modal.EditReason " stolen vehicle, case 12 ";
    Modal.ClickNext;
    Modal.TypeConfirmation "immobilise";
    Modal.ClickSubmit "uuid-1" "2024-01-01T00:05:00.000Z" ].

Definition submitted_from : Modal.State :=
  {| Modal.step := 3;
     Modal.checklist := {| Modal.vehicleStationary := true;
                           Modal.userAuthorized := true;
                           Modal.actionAudited := true |};
     Modal.reason := " stolen vehicle, case 12 ";
     Modal.confirmation := "IMMOBILISE";
     Modal.isSubmitting := false;
     Modal.isOpen := true;
     Modal.storage := Commands.Missing |}.

Definition submitted_command : Commands.Command :=
  {| Commands.id := "uuid-1"; Commands.type := Commands.IMMOBILISE;
     Commands.status := Commands.requested; Commands.deviceId := 7;
     Commands.organizationId := "org-1"; Commands.userId := "u-1";
     Commands.reason := "stolen vehicle, case 12";
     Commands.timestamp := "2024-01-01T00:05:00.000Z";
     Commands.executedAt := None; Commands.notes := None |}.

(** ** hooks/useTraccarConfig.ts *)
Module Settings.

Section SaveConfig.
Context {Json : Type}.
Variable fetch : string -> Api.RequestInit -> Api.FetchResult Json.
Variable constructible : string -> bool.

(** [saveConfig(newConfig)] from the point where the probe has settled:
    the configuration under ['traccar_config'], the realtime client and
    the [success] flag returned.  [now] is [new Date().toISOString()]. *)
Definition saveConfig (now : string) (newConfig : Api.TraccarConfig)
    (client : Ws.State) : option Api.TraccarConfig * Ws.State * bool :=
  let isValid := Api.testTraccarConnection fetch newConfig in
  let configToSave :=
    {| Api.serverUrl := Api.serverUrl newConfig;
       Api.authMethod := Api.authMethod newConfig;
       Api.apiToken := Api.apiToken newConfig;
       Api.username := Api.username newConfig;
       Api.password := Api.password newConfig;
       Api.organizationId := Api.organizationId newConfig;
       Api.lastTested := Some now;
       Api.isValid := isValid |} in
  (Some configToSave,
   if isValid
   then Ws.connect constructible (Some configToSave) (Ws.disconnect client)
   else client,
   isValid).
End SaveConfig.

End Settings.

(** ** pages/DeviceDetail.tsx and pages/Dashboard.tsx *)
Module Pages.

(** [cmd.type === T && (cmd.status === 'requested' || cmd.status === 'pending')] *)
Definition awaiting (T : Commands.CommandType) (cmd : Commands.Command) : Prop :=
  Commands.type cmd = T /\
  (Commands.status cmd = Commands.requested \/
   Commands.status cmd = Commands.pending).

#[global] Instance awaiting_dec T cmd : Decision (awaiting T cmd).
Proof. unfold awaiting. apply _. Defined.

(** [pendingImmobilise] / [pendingRestore] *)
Definition pendingOf (T : Commands.CommandType)
    (commands : list Commands.Command) : option Commands.Command :=
  snd <$> list_find (awaiting T) commands.

(** [commands.slice(0, 5)]: what the command history lists. *)
Definition history (commands : list Commands.Command) : list Commands.Command :=
  take 5 commands.

Section DevicePage.
Variable deviceId : Z.
Variable organizationId : string.
Variable userId : string.
Variable type : Commands.CommandType.
Variable toUpperCase : string -> string.

(** The modal for [type] as it sits in the device page: the button that
    opens it is only rendered while no command of that type is requested
    or pending for the device.  [deviceId] is both the id in the route,
    which the page queries the log with, and the id of the device fetched
    for it, which the modal records. *)
Definition page_dispatch (a : Modal.Action) (s : Modal.State)
    : Modal.State * option Commands.Command :=
  match a with
  | Modal.Open =>
      match pendingOf type
              (Commands.getDeviceCommands deviceId organizationId (Modal.storage s)) with
      | Some _ => (s, None)
      | None => Modal.dispatch deviceId organizationId userId type toUpperCase a s
      end
  | _ => Modal.dispatch deviceId organizationId userId type toUpperCase a s
  end.

Fixpoint page_play (acts : list Modal.Action) (s : Modal.State)
    : Modal.State * list Commands.Command :=
  match acts with
  | [] => (s, [])
  | a :: rest =>
      let '(s', out) := page_dispatch a s in
      let '(s'', outs) := page_play rest s' in
      (s'', match out with
            | Some c => c :: outs
            | None => outs
            end)
  end.
End DevicePage.

(** [devices.filter(d => d.organizationId === organizationId)] with
    [organizationId = organization?.id || ''] *)
Definition orgDevices (organization : option Api.Organization)
    (devices : list Api.Device) : list Api.Device :=
  filter (λ d, Api.d_organizationId d = Some (Api.orgId_or_empty organization))
    devices.

Definition onlineDevices (devices : list Api.Device) : nat :=
  List.length (filter (λ d, Api.d_status d = Api.online) devices).

Definition offlineDevices (devices : list Api.Device) : nat :=
  List.length (filter (λ d, Api.d_status d = Api.offline) devices).

End Pages.

(** ** Further notions used in the statements *)

(** The records of a command log; an absent or unreadable item holds none. *)
Definition log_of (st : Commands.Storage) : list Commands.Command :=
  match st with
  | Commands.Stored l => l
  | _ => []
  end.

(** The calls made for one message kind. *)
Definition calls_for {Data : Type} (type : Ws.WebSocketMessageType)
    (calls : list (nat * Ws.WebSocketMessageType * Data))
    : list (nat * Ws.WebSocketMessageType * Data) :=
  filter (λ c, c.1.2 = type) calls.

(** The retry counter is within its bounds and every delay handed to
    [setTimeout] is one of the five backoff delays. *)
Definition backoff_inv (s : Ws.State) : Prop :=
  0 <= Ws.reconnectAttempts s <= Ws.maxReconnectAttempts /\
  Forall (λ d, d ∈ backoff_delays) (Ws.scheduled s).



(** [{}]: an update without fields. *)
Definition empty_updates : Commands.PartialCommand :=
  {| Commands.p_id := None; Commands.p_type := None; Commands.p_status := None;
     Commands.p_deviceId := None; Commands.p_organizationId := None;
     Commands.p_userId := None; Commands.p_reason := None;
     Commands.p_timestamp := None; Commands.p_executedAt := None;
     Commands.p_notes := None |}.

(** [{ status }]: an update of the status alone. *)
Definition status_update (st : Commands.CommandStatus) : Commands.PartialCommand :=
  {| Commands.p_id := None; Commands.p_type := None; Commands.p_status := Some st;
     Commands.p_deviceId := None; Commands.p_organizationId := None;
     Commands.p_userId := None; Commands.p_reason := None;
     Commands.p_timestamp := None; Commands.p_executedAt := None;
     Commands.p_notes := None |}.

Definition new_restore : Commands.NewCommand :=
  {| Commands.n_type := Commands.RESTORE_POWER;
     Commands.n_status := Commands.requested; Commands.n_deviceId := 7;
     Commands.n_organizationId := "org-1"; Commands.n_userId := "u-1";
     Commands.n_reason := "found"; Commands.n_executedAt := None;
     Commands.n_notes := None |}.

(** The modal on its last step with everything filled in, over a log. *)
Definition ready_to_submit (st : Commands.Storage) : Modal.State :=
  {| Modal.step := 3;
     Modal.checklist := {| Modal.vehicleStationary := true;
                           Modal.userAuthorized := true;
                           Modal.actionAudited := true |};
     Modal.reason := "theft reported ";
     Modal.confirmation := "IMMOBILISE";
     Modal.isSubmitting := false;
     Modal.isOpen := true;
     Modal.storage := st |}.


(** A command of device 7 in organisation org-1 with a given id. *)
Definition numbered (i : string) : Commands.Command :=
  {| Commands.id := i; Commands.type := Commands.IMMOBILISE;
     Commands.status := Commands.executed; Commands.deviceId := 7;
     Commands.organizationId := "org-1"; Commands.userId := "u-1";
     Commands.reason := "theft"; Commands.timestamp := "2024-01-01T00:00:00.000Z";
     Commands.executedAt := None; Commands.notes := None |}.

Definition five_commands : list Commands.Command :=
  numbered <$> ["1"; "2"; "3"; "4"; "5"].


Definition healthy : string -> Api.RequestInit -> Api.FetchResult unit :=
  λ _ _, Api.Responded ok_body.

(** Two devices as the server lists them, of any tenant. *)
Definition device_1 : Api.Device :=
  {| Api.d_id := 1; Api.d_name := "Truck"; Api.d_uniqueId := "860001";
     Api.d_status := Api.online; Api.d_lastUpdate := None;
     Api.d_positionId := None; Api.d_groupId := None; Api.d_phone := None;
     Api.d_model := None; Api.d_contact := None; Api.d_category := None;
     Api.d_disabled := None; Api.d_organizationId := None |}.

Definition device_2 : Api.Device :=
  {| Api.d_id := 2; Api.d_name := "Van"; Api.d_uniqueId := "860002";
     Api.d_status := Api.unknown; Api.d_lastUpdate := None;
     Api.d_positionId := None; Api.d_groupId := None; Api.d_phone := None;
     Api.d_model := None; Api.d_contact := None; Api.d_category := None;
     Api.d_disabled := None; Api.d_organizationId := Some "someone-else" |}.

Definition org_1 : Api.Organization :=
  {| Api.o_id := "org-1"; Api.o_name := "Fleet"; Api.o_createdAt := "";
     Api.o_updatedAt := "" |}.

(** ** pages/LiveMap.tsx *)
Module LiveMap.

Section Positions.
(** A position is only looked at through its [deviceId]. *)
Context {Position : Type}.
Variable deviceId : Position -> Z.

(** The state update of the positions subscriber (and, from the empty map,
    of the initial fetch): [pos => updated.set(pos.deviceId, pos)] over
    the new positions, on a copy of the previous map. *)
Definition applyPositions (prev : gmap Z Position)
    (newPositions : list Position) : gmap Z Position :=
  foldl (λ updated pos, <[deviceId pos := pos]> updated) prev newPositions.
End Positions.

End LiveMap.

(** [{ ...config, serverUrl }] *)
Definition with_serverUrl (u : string) (c : Api.TraccarConfig) : Api.TraccarConfig :=
  {| Api.serverUrl := u; Api.authMethod := Api.authMethod c;
     Api.apiToken := Api.apiToken c; Api.username := Api.username c;
     Api.password := Api.password c;
     Api.organizationId := Api.organizationId c;
     Api.lastTested := Api.lastTested c; Api.isValid := Api.isValid c |}.

(** * Properties *)

(** ** Strings *)

Lemma strip_prefix_Some p s r :
  Str.strip_prefix p s = Some r -> s = p +:+ r.
Proof.
  revert s; induction p as [|a p IH]; intros s H; simpl in H.
  - injection H as ->. reflexivity.
  - destruct s as [|b s]; [discriminate|].
    destruct (Ascii.eqb a b) eqn:E; [|discriminate].
    apply Ascii.eqb_eq in E; subst b.
    change (String a s = String a (p +:+ r)).
    f_equal; auto.
Qed.

Lemma strip_trailing_slash_of_list l :
  Str.strip_trailing_slash (String.string_of_list_ascii l) =
  match reverse l with
  | c :: r =>
      if Ascii.eqb c "/"%char then String.string_of_list_ascii (reverse r)
      else String.string_of_list_ascii l
  | [] => String.string_of_list_ascii l
  end.
Proof.
  induction l as [|a l IH]; [reflexivity|].
  rewrite reverse_cons.
  destruct l as [|b l].
  - simpl. destruct (Ascii.eqb a "/"); reflexivity.
  - change (Str.strip_trailing_slash (String.string_of_list_ascii (a :: b :: l)))
      with (String a (Str.strip_trailing_slash (String.string_of_list_ascii (b :: l)))).
    rewrite IH.
    destruct (reverse (b :: l)) as [|c r] eqn:E.
    + apply (f_equal reverse) in E. rewrite reverse_involutive in E. discriminate.
    + simpl. destruct (Ascii.eqb c "/"); [|reflexivity].
      rewrite reverse_app. reflexivity.
Qed.

Lemma strip_trailing_slash_spec s :
  Str.strip_trailing_slash s = Spec.without_trailing_slash s.
Proof.
  unfold Spec.without_trailing_slash.
  rewrite <- (String.string_of_list_ascii_of_string s) at 1.
  rewrite strip_trailing_slash_of_list.
  rewrite String.string_of_list_ascii_of_string. reflexivity.
Qed.

Lemma scheme_replacements_spec url :
  Str.replace_prefix "https:" "wss:" (Str.replace_prefix "http:" "ws:" url)
  = Spec.scheme_substitution url.
Proof.
  unfold Spec.scheme_substitution, Str.replace_prefix at 2.
  destruct (Str.strip_prefix "http:" url) as [r|] eqn:Hhttp.
  - apply strip_prefix_Some in Hhttp; subst url. reflexivity.
  - reflexivity.
Qed.

Example wsUrl_http_trailing_slash :
  Ws.wsUrl "http://track.example.com/" = "ws://track.example.com/api/socket".
Proof. reflexivity. Qed.

Example wsUrl_other_scheme_kept :
  Ws.wsUrl "HTTPS://x.test//" = "HTTPS://x.test//api/socket".
Proof. reflexivity. Qed.

Example trim_reason : Str.trim "  stolen vehicle " = "stolen vehicle".
Proof. reflexivity. Qed.

Example trim_blank : Str.trim "   " = "".
Proof. reflexivity. Qed.

Example btoa_credentials : Str.btoa "admin:admin" = "YWRtaW46YWRtaW4=".
Proof. reflexivity. Qed.

(** The test vectors of RFC 4648, section 10. *)
Example base64_test_vectors :
  (Rfc4648.base64 ∘ Utf16.of_string)
    <$> [""; "f"; "fo"; "foo"; "foob"; "fooba"; "foobar"]
  = [""; "Zg=="; "Zm8="; "Zm9v"; "Zm9vYg=="; "Zm9vYmE="; "Zm9vYmFy"].
Proof. reflexivity. Qed.

Example base64_high_octets : Rfc4648.base64 [255; 254; 253; 0]%N = "//79AA==".
Proof. reflexivity. Qed.

Example btoa_latin1_password :
  Utf16.btoa [112; 228; 115; 115]%N = Utf16.Produced (Utf16.of_string "cORzcw==").
Proof. reflexivity. Qed.

Example btoa_euro_sign :
  Utf16.btoa [112; 8364; 115; 115]%N = Utf16.InvalidCharacterError.
Proof. reflexivity. Qed.

(** C6. The endpoint computed by [connect] is the base URL with its scheme
    substituted (http→ws, https→wss), one trailing slash removed and
    [/api/socket] appended; for [https://x.test] it is
    [wss://x.test/api/socket], and this is the URL of the socket that
    [connect] opens. *)
Theorem wsUrl_is_spec_endpoint :
  (forall serverUrl, Ws.wsUrl serverUrl = Spec.realtime_endpoint serverUrl) /\
  Ws.wsUrl "https://x.test" = "wss://x.test/api/socket" /\
  (forall cfg,
     Ws.sockets (Ws.connect (λ _, true) (Some cfg) Ws.init) =
     [ {| Ws.url := Spec.realtime_endpoint (Api.serverUrl cfg);
          Ws.readyState := Ws.CONNECTING |} ]).
Proof.
  assert (E : forall u, Ws.wsUrl u = Spec.realtime_endpoint u).
  { intros u. unfold Ws.wsUrl, Spec.realtime_endpoint.
    rewrite scheme_replacements_spec, strip_trailing_slash_spec. reflexivity. }
  split; [exact E|]. split; [reflexivity|].
  intros cfg. unfold Ws.connect. simpl. rewrite E. reflexivity.
Qed.

(** ** REST client *)

Lemma truthy_Some o s : o = Some s -> Api.truthy o = true -> default "" o = s.
Proof. intros -> _. reflexivity. Qed.

(** *** The encoder is base 64 as RFC 4648 defines it *)

Lemma octet_testbit_high (a i : N) :
  (a <= 255)%N -> (8 <= i)%N -> N.testbit a i = false.
Proof.
  intros Ha Hi.
  rewrite <- (N.mod_small a (2 ^ 8)) by (change (2 ^ 8)%N with 256%N; lia).
  apply N.mod_pow2_bits_high. exact Hi.
Qed.

(** The 24-bit word of three octets, bit by bit. *)
Lemma word_testbit (a b c i : N) :
  (a <= 255)%N -> (b <= 255)%N -> (c <= 255)%N ->
  N.testbit (N.lor (N.lor (N.shiftl a 16) (N.shiftl b 8)) c) i
  = if (i <? 8)%N then N.testbit c i
    else if (i <? 16)%N then N.testbit b (i - 8)
    else N.testbit a (i - 16).
Proof.
  intros Ha Hb Hc. rewrite !N.lor_spec.
  destruct (N.ltb_spec i 8) as [H8|H8].
  - rewrite !N.shiftl_spec_low by lia. reflexivity.
  - rewrite (octet_testbit_high c i) by assumption. rewrite orb_false_r.
    destruct (N.ltb_spec i 16) as [H16|H16].
    + rewrite N.shiftl_spec_low by lia.
      rewrite N.shiftl_spec_high' by lia. reflexivity.
    + rewrite !N.shiftl_spec_high' by lia.
      rewrite (octet_testbit_high b (i - 8)) by (assumption || lia).
      rewrite orb_false_r. reflexivity.
Qed.

Lemma land_63_bits (x : N) :
  N.land x 63 = Rfc4648.index_of (N.testbit x <$> [5; 4; 3; 2; 1; 0]%N).
Proof.
  change 63%N with (N.ones 6). rewrite N.land_ones.
  assert (Hlt : (x mod 2 ^ 6 < 64)%N)
    by (apply N.mod_upper_bound; discriminate).
  assert (Hb : forall i, (i < 6)%N ->
                         N.testbit x i = N.testbit (x mod 2 ^ 6) i).
  { intros i Hi. symmetry. apply N.mod_pow2_bits_low. exact Hi. }
  simpl fmap. rewrite !Hb by lia.
  generalize dependent (x mod 2 ^ 6)%N. clear. intros y Hy.
  destruct y as [|p]; [reflexivity|].
  do 6 (destruct p as [p|p|]; try reflexivity); exfalso; lia.
Qed.

(** The lookup in the alphabet string is Table 1. *)
Lemma b64_digit_letter (b5 b4 b3 b2 b1 b0 : bool) :
  Str.b64_digit (Rfc4648.index_of [b5; b4; b3; b2; b1; b0])
  = Rfc4648.letter (Rfc4648.index_of [b5; b4; b3; b2; b1; b0]).
Proof. destruct b5, b4, b3, b2, b1, b0; reflexivity. Qed.

Lemma sextet_letter (k w : N) :
  Str.sextet k w
  = Rfc4648.letter
      (Rfc4648.index_of
         (N.testbit w <$> [6 * k + 5; 6 * k + 4; 6 * k + 3;
                           6 * k + 2; 6 * k + 1; 6 * k]%N)).
Proof.
  unfold Str.sextet. rewrite land_63_bits. simpl fmap.
  rewrite !N.shiftr_spec'. rewrite b64_digit_letter.
  rewrite (N.add_comm 5), (N.add_comm 4), (N.add_comm 3), (N.add_comm 2),
    (N.add_comm 1), N.add_0_l.
  reflexivity.
Qed.

(** The four characters of a group of three octets. *)
Lemma word_sextets (a b c : N) :
  (a <= 255)%N -> (b <= 255)%N -> (c <= 255)%N ->
  let w := N.lor (N.lor (N.shiftl a 16) (N.shiftl b 8)) c in
  let sextet_of bits := Rfc4648.letter (Rfc4648.index_of bits) in
  Str.sextet 3 w
  = sextet_of (N.testbit a <$> [7; 6; 5; 4; 3; 2]%N) /\
  Str.sextet 2 w
  = sextet_of ((N.testbit a <$> [1; 0]%N) ++ (N.testbit b <$> [7; 6; 5; 4]%N)) /\
  Str.sextet 1 w
  = sextet_of ((N.testbit b <$> [3; 2; 1; 0]%N) ++ (N.testbit c <$> [7; 6]%N)) /\
  Str.sextet 0 w
  = sextet_of (N.testbit c <$> [5; 4; 3; 2; 1; 0]%N).
Proof.
  intros Ha Hb Hc w sextet_of. subst w sextet_of. cbv beta.
  rewrite !sextet_letter. cbn [fmap list_fmap app].
  rewrite !word_testbit by assumption.
  repeat split; reflexivity.
Qed.

Lemma list_ind3 {A : Type} (P : list A -> Prop) :
  P [] -> (forall a, P [a]) -> (forall a b, P [a; b]) ->
  (forall a b c l, P l -> P (a :: b :: c :: l)) ->
  forall l, P l.
Proof.
  intros H0 H1 H2 H3.
  fix IH 1. intros [|a [|b [|c l]]]; [exact H0|apply H1|apply H2|].
  apply H3, IH.
Qed.

Lemma padding_group (a b c : N) (l : list N) :
  Rfc4648.padding (a :: b :: c :: l) = Rfc4648.padding l.
Proof.
  unfold Rfc4648.padding.
  change (List.length (a :: b :: c :: l)) with (3 + List.length l)%nat.
  replace ((3 + List.length l) mod 3)%nat with (List.length l mod 3)%nat;
    [reflexivity|].
  rewrite <- (Nat.Div0.add_mod_idemp_l 3 (List.length l) 3). reflexivity.
Qed.

(** On octets, the encoder behind [btoa] computes the base 64 encoding of
    RFC 4648. *)
Lemma b64_groups_base64 (l : list N) :
  Forall (λ x, (x <= 255)%N) l -> Str.b64_groups l = Rfc4648.base64 l.
Proof.
  induction l as [|a|a b|a b c l IH] using list_ind3; intros Hl.
  - reflexivity.
  - apply Forall_cons in Hl as [Ha _].
    destruct (word_sextets a 0 0 Ha) as (E3 & E2 & _); [lia|lia|].
    rewrite N.shiftl_0_l, !N.lor_0_r in E3, E2.
    cbn [Str.b64_groups]. rewrite E3, E2. reflexivity.
  - apply Forall_cons in Hl as [Ha Hl]. apply Forall_cons in Hl as [Hb _].
    destruct (word_sextets a b 0 Ha Hb) as (E3 & E2 & E1 & _); [lia|].
    rewrite N.lor_0_r in E3, E2, E1.
    cbn [Str.b64_groups]. rewrite E3, E2, E1. reflexivity.
  - apply Forall_cons in Hl as [Ha Hl]. apply Forall_cons in Hl as [Hb Hl].
    apply Forall_cons in Hl as [Hc Hl].
    destruct (word_sextets a b c Ha Hb Hc) as (E3 & E2 & E1 & E0).
    cbn [Str.b64_groups]. rewrite E3, E2, E1, E0, IH by exact Hl.
    unfold Rfc4648.base64. rewrite padding_group. reflexivity.
Qed.

(** *** [getAuthHeaders] on JavaScript strings *)

Lemma latin1_forallb (s : Utf16.jsstring) :
  forallb (λ unit, unit <=? 255)%N s = true
  <-> Forall (λ unit, (unit <= 255)%N) s.
Proof.
  rewrite forallb_forall, Forall_forall. split; intros H x Hx.
  - apply N.leb_le, H, list_elem_of_In, Hx.
  - apply N.leb_le, H, list_elem_of_In, Hx.
Qed.

Lemma of_string_narrow (s : Utf16.jsstring) :
  Forall (λ unit, (unit <= 255)%N) s ->
  Utf16.of_string (Utf16.narrow s) = s.
Proof.
  intros Hs. unfold Utf16.of_string, Utf16.narrow.
  rewrite String.list_ascii_of_string_of_list_ascii.
  induction Hs as [|x l Hx _ IH]; [reflexivity|].
  rewrite !fmap_cons, IH, N_ascii_embedding by lia. reflexivity.
Qed.

Lemma narrow_of_string (s : string) : Utf16.narrow (Utf16.of_string s) = s.
Proof.
  unfold Utf16.of_string, Utf16.narrow.
  rewrite <- (String.string_of_list_ascii_of_string s) at 2. f_equal.
  induction (String.list_ascii_of_string s) as [|c l IH]; [reflexivity|].
  rewrite !fmap_cons, IH, ascii_N_embedding. reflexivity.
Qed.

(** [btoa] on a string without a code unit above U+00FF. *)
Lemma btoa_latin1 (s : Utf16.jsstring) :
  Forall (λ unit, (unit <= 255)%N) s ->
  Utf16.btoa s = Utf16.Produced (Utf16.of_string (Rfc4648.base64 s)).
Proof.
  intros Hs. unfold Utf16.btoa, Str.btoa.
  rewrite (proj2 (latin1_forallb s) Hs).
  fold (Utf16.of_string (Utf16.narrow s)).
  rewrite of_string_narrow, b64_groups_base64 by exact Hs.
  reflexivity.
Qed.

(** [btoa] on any other string. *)
Lemma btoa_above_latin1 (s : Utf16.jsstring) :
  ~ Forall (λ unit, (unit <= 255)%N) s ->
  Utf16.btoa s = Utf16.InvalidCharacterError.
Proof.
  intros Hs. unfold Utf16.btoa.
  destruct (forallb _ s) eqn:E; [|reflexivity].
  exfalso. apply Hs, latin1_forallb, E.
Qed.

Lemma of_string_latin1 (s : string) :
  Forall (λ unit, (unit <= 255)%N) (Utf16.of_string s).
Proof.
  unfold Utf16.of_string. apply Forall_fmap, Forall_true. intros c. simpl.
  pose proof (N_ascii_bounded c). lia.
Qed.

Lemma of_string_append (s t : string) :
  Utf16.of_string (s +:+ t) = Utf16.of_string s ++ Utf16.of_string t.
Proof.
  unfold Utf16.of_string. induction s as [|c s IH]; [reflexivity|].
  change (String c s +:+ t) with (String c (s +:+ t)). simpl.
  f_equal. exact IH.
Qed.

Lemma truthy_widen (o : option string) :
  Utf16.truthy (Utf16.of_string <$> o) = Api.truthy o.
Proof. destruct o as [[|c s]|]; reflexivity. Qed.

Lemma default_widen (o : option string) :
  default [] (Utf16.of_string <$> o) = Utf16.of_string (default "" o).
Proof. destruct o; reflexivity. Qed.

Lemma btoa_widen (s : string) :
  Utf16.btoa (Utf16.of_string s)
  = Utf16.Produced (Utf16.of_string (Str.btoa s)).
Proof.
  unfold Utf16.btoa.
  rewrite (proj2 (latin1_forallb _) (of_string_latin1 s)), narrow_of_string.
  reflexivity.
Qed.

(** [Api.getAuthHeaders] is the restriction of [Utf16.getAuthHeaders] to
    strings of 8-bit code units: there the function never throws and
    returns the same headers. *)
Lemma getAuthHeaders_restriction (c : Api.TraccarConfig) :
  Utf16.getAuthHeaders (Utf16.widen c)
  = Utf16.Produced (Utf16.of_string <$> Api.getAuthHeaders c).
Proof.
  unfold Utf16.getAuthHeaders, Api.getAuthHeaders, Utf16.widen.
  cbn [Utf16.authMethod Utf16.apiToken Utf16.username Utf16.password].
  rewrite !truthy_widen, !default_widen.
  destruct (Api.authMethod c).
  - destruct (Api.truthy (Api.apiToken c)).
    + rewrite fmap_insert, map_fmap_singleton, of_string_append. reflexivity.
    + rewrite map_fmap_singleton. reflexivity.
  - destruct (Api.truthy (Api.username c) && Api.truthy (Api.password c)).
    + rewrite <- !of_string_append, btoa_widen.
      rewrite fmap_insert, map_fmap_singleton.
      rewrite (of_string_append "Basic "). reflexivity.
    + rewrite map_fmap_singleton. reflexivity.
Qed.

(** A password with a code unit above U+00FF passes the checks of the
    settings form, and [getAuthHeaders] throws instead of producing a
    header. *)
Lemma getAuthHeaders_throws_above_latin1 :
  Utf16.handleSave_accepts euro_config = true /\
  Utf16.isValid euro_config = true /\
  Utf16.getAuthHeaders euro_config = Utf16.InvalidCharacterError /\
  ~ basic_header_for_every_valid_config.
Proof.
  repeat (split; [reflexivity|]).
  intros H.
  destruct (H euro_config (Utf16.of_string "admin") [112; 8364; 115; 115]%N
              eq_refl eq_refl eq_refl eq_refl eq_refl) as (h & e & Hh & _).
  discriminate Hh.
Qed.

(** C7, amended. For a configuration that the settings form accepts, the
    headers carry the JSON content type and the Authorization header is
    exactly [Bearer <token>] under token authentication and, when no code
    unit of the user name and the password is above U+00FF, exactly
    [Basic <base64(username:password)>] under basic authentication, base 64
    being the encoding of RFC 4648 applied to the code units as octets. *)
Theorem getAuthHeaders_authorization (c : Utf16.TraccarConfig) :
  Utf16.handleSave_accepts c = true ->
  (forall t,
     Utf16.authMethod c = Api.token -> Utf16.apiToken c = Some t ->
     exists h,
       Utf16.getAuthHeaders c = Utf16.Produced h /\
       h !! "Authorization" = Some (Utf16.of_string "Bearer " ++ t) /\
       h !! "Content-Type" = Some (Utf16.of_string "application/json")) /\
  (forall u p,
     Utf16.authMethod c = Api.basic ->
     Utf16.username c = Some u -> Utf16.password c = Some p ->
     Forall (λ unit, (unit <= 255)%N) (u ++ p) ->
     exists h,
       Utf16.getAuthHeaders c = Utf16.Produced h /\
       h !! "Authorization"
       = Some (Utf16.of_string "Basic " ++
               Utf16.of_string
                 (Rfc4648.base64 (u ++ Utf16.of_string ":" ++ p))) /\
       h !! "Content-Type" = Some (Utf16.of_string "application/json")).
Proof.
  unfold Utf16.handleSave_accepts, Utf16.getAuthHeaders.
  intros Hok. apply andb_true_iff in Hok as [_ Hok].
  split.
  - intros t Hm Ht. rewrite Hm in *. rewrite Hok, Ht.
    change (default [] (Some t)) with t.
    eexists. split; [reflexivity|]. split; [apply lookup_insert_eq|].
    rewrite lookup_insert_ne by discriminate. apply lookup_singleton_eq.
  - intros u p Hm Hu Hp Hl. rewrite Hm in *. rewrite Hok, Hu, Hp.
    change (default [] (Some u)) with u. change (default [] (Some p)) with p.
    rewrite btoa_latin1.
    + eexists. split; [reflexivity|]. split; [apply lookup_insert_eq|].
      rewrite lookup_insert_ne by discriminate. apply lookup_singleton_eq.
    + apply Forall_app in Hl as [Hu' Hp'].
      apply Forall_app. split; [exact Hu'|].
      apply Forall_app. split; [apply of_string_latin1|exact Hp'].
Qed.

(** Without the credentials of the configured method, no Authorization
    header is sent at all. *)
Lemma getAuthHeaders_no_credentials (c : Api.TraccarConfig) :
  match Api.authMethod c with
  | Api.token => Api.truthy (Api.apiToken c)
  | Api.basic => Api.truthy (Api.username c) && Api.truthy (Api.password c)
  end = false ->
  Api.getAuthHeaders c !! "Authorization" = None.
Proof.
  unfold Api.getAuthHeaders.
  destruct (Api.authMethod c); intros ->; reflexivity.
Qed.

Lemma getAuthHeaders_authorization_witness :
  (exists h,
     Utf16.getAuthHeaders (Utf16.widen token_config) = Utf16.Produced h /\
     h !! "Authorization" = Some (Utf16.of_string "Bearer abc") /\
     h !! "Content-Type" = Some (Utf16.of_string "application/json")) /\
  (exists h,
     Utf16.getAuthHeaders (Utf16.widen basic_config) = Utf16.Produced h /\
     h !! "Authorization" = Some (Utf16.of_string "Basic YWRtaW46YWRtaW4=") /\
     h !! "Content-Type" = Some (Utf16.of_string "application/json")).
Proof.
  split.
  - exact (proj1 (getAuthHeaders_authorization (Utf16.widen token_config)
                    eq_refl)
             (Utf16.of_string "abc") eq_refl eq_refl).
  - refine (proj2 (getAuthHeaders_authorization (Utf16.widen basic_config)
                     eq_refl)
              (Utf16.of_string "admin") (Utf16.of_string "admin")
              eq_refl eq_refl eq_refl _).
    apply Forall_app. split; apply of_string_latin1.
Defined.

(** A response with a 2xx status whose body cannot be read as JSON: the
    status is accepted, reading the body fails, and [apiRequest] throws. *)
Lemma apiRequest_2xx_empty_body_throws :
  Api.ok not_json = true /\
  Api.apiRequest (λ _ _, Api.Responded not_json) (Some token_config)
    "/api/devices" delete_options = Thrown SyntaxError /\
  Api.ok no_content = true /\
  Api.apiRequest (λ _ _, Api.Responded no_content) (Some token_config)
    "/api/devices/7" delete_options = Thrown SyntaxError /\
  ~ every_2xx_returns.
Proof.
  repeat (split; [reflexivity|]).
  intros H.
  destruct (H (λ _ _, Api.Responded not_json) token_config
              "/api/devices" delete_options not_json
              eq_refl eq_refl eq_refl) as [v Hv].
  discriminate Hv.
Qed.

(** C8, amended. When a request made with a valid stored configuration
    receives a response: 401 raises the authentication error, 404 the
    not-found error, any other non-2xx status the generic error with the
    status code and text; a 2xx response whose body parses as JSON returns
    the parsed body. *)
Theorem apiRequest_error_mapping {Json : Type}
    (fetch : string -> Api.RequestInit -> Api.FetchResult Json)
    (config : Api.TraccarConfig) (endpoint : string)
    (options : Api.RequestInit) (response : Api.Response Json) :
  Api.isValid config = true ->
  fetch (request_url config endpoint) (request_init config options)
  = Api.Responded response ->
  let result := Api.apiRequest fetch (Some config) endpoint options in
  (Api.ok response = false -> Api.status response = 401 ->
   result = Thrown (Error
     "Authentication failed. Please check your Traccar credentials.")) /\
  (Api.ok response = false -> Api.status response = 404 ->
   result = Thrown (Error "Resource not found.")) /\
  (Api.ok response = false ->
   Api.status response <> 401 -> Api.status response <> 404 ->
   result = Thrown (Error ("Traccar API error: " +:+ pretty (Api.status response)
                           +:+ " " +:+ Api.statusText response))) /\
  (Api.ok response = true ->
   forall v, Api.json response = Some v -> result = Returned v).
Proof.
  intros Hvalid Hfetch result. subst result.
  unfold Api.apiRequest. rewrite Hvalid. simpl.
  unfold request_url, request_init in Hfetch. rewrite Hfetch.
  split; [|split; [|split]].
  - intros -> ->. reflexivity.
  - intros -> ->. reflexivity.
  - intros -> H1 H2. simpl.
    destruct (Z.eqb_spec (Api.status response) 401); [contradiction|].
    destruct (Z.eqb_spec (Api.status response) 404); [contradiction|].
    reflexivity.
  - intros -> v ->. reflexivity.
Qed.

Lemma apiRequest_error_mapping_witness :
  Api.apiRequest (λ _ _, Api.Responded unauthorized) (Some token_config)
    "/api/devices" delete_options
  = Thrown (Error "Authentication failed. Please check your Traccar credentials.") /\
  Api.apiRequest (λ _ _, Api.Responded not_found) (Some token_config)
    "/api/devices" delete_options
  = Thrown (Error "Resource not found.") /\
  Api.apiRequest (λ _ _, Api.Responded server_error) (Some token_config)
    "/api/devices" delete_options
  = Thrown (Error "Traccar API error: 500 Internal Server Error") /\
  Api.apiRequest (λ _ _, Api.Responded ok_body) (Some token_config)
    "/api/devices" delete_options
  = Returned tt.
Proof.
  split; [|split; [|split]].
  - exact (proj1 (apiRequest_error_mapping (λ _ _, Api.Responded unauthorized)
      token_config "/api/devices" delete_options unauthorized eq_refl eq_refl)
      eq_refl eq_refl).
  - exact (proj1 (proj2 (apiRequest_error_mapping (λ _ _, Api.Responded not_found)
      token_config "/api/devices" delete_options not_found eq_refl eq_refl))
      eq_refl eq_refl).
  - refine (proj1 (proj2 (proj2 (apiRequest_error_mapping
      (λ _ _, Api.Responded server_error)
      token_config "/api/devices" delete_options server_error eq_refl eq_refl)))
      eq_refl _ _); discriminate.
  - exact (proj2 (proj2 (proj2 (apiRequest_error_mapping
      (λ _ _, Api.Responded ok_body)
      token_config "/api/devices" delete_options ok_body eq_refl eq_refl)))
      eq_refl tt eq_refl).
Defined.

(** ** Command store *)

(** With an [id] among the fields, [updateCommand] writes it over the
    record's own. *)
Lemma updateCommand_overwrites_id :
  (Commands.updateCommand "a" rename_to_b (Commands.Stored [cmd_a; cmd_c])).1
  = Some {| Commands.id := "b"; Commands.type := Commands.IMMOBILISE;
            Commands.status := Commands.requested; Commands.deviceId := 7;
            Commands.organizationId := "org-1"; Commands.userId := "u-1";
            Commands.reason := "theft";
            Commands.timestamp := "2024-01-01T00:00:00.000Z";
            Commands.executedAt := None; Commands.notes := None |} /\
  ~ update_never_changes_id.
Proof.
  split; [reflexivity|].
  intros H.
  specialize (H "a" rename_to_b (Commands.Stored [cmd_a; cmd_c]) _ eq_refl).
  discriminate H.
Qed.

(** C2, amended. [updateCommand id updates] returns [null] and leaves the
    log untouched when the item is missing, unreadable, or holds no record
    with that id.  Otherwise it replaces the first record with that id by
    the record merged with [updates] (fields present in [updates] win),
    returns the merged record and leaves every other record as it was; the
    merged record keeps the id when [updates] has no id field, and takes
    the id of [updates] when it has one. *)
Theorem updateCommand_merges (id0 : string) (updates : Commands.PartialCommand)
    (allCommands : list Commands.Command) :
  Commands.updateCommand id0 updates Commands.Missing = (None, Commands.Missing) /\
  Commands.updateCommand id0 updates Commands.Unparsable
  = (None, Commands.Unparsable) /\
  ((forall c, c ∈ allCommands -> Commands.id c <> id0) ->
   Commands.updateCommand id0 updates (Commands.Stored allCommands)
   = (None, Commands.Stored allCommands)) /\
  (forall i c,
     allCommands !! i = Some c -> Commands.id c = id0 ->
     (forall j c', (j < i)%nat -> allCommands !! j = Some c' ->
                   Commands.id c' <> id0) ->
     let merged := Commands.merge c updates in
     exists all',
       Commands.updateCommand id0 updates (Commands.Stored allCommands)
       = (Some merged, Commands.Stored all') /\
       all' !! i = Some merged /\
       List.length all' = List.length allCommands /\
       (forall j, j <> i -> all' !! j = allCommands !! j) /\
       Commands.id merged = default id0 (Commands.p_id updates) /\
       Commands.status merged
       = default (Commands.status c) (Commands.p_status updates) /\
       Commands.executedAt merged
       = match Commands.p_executedAt updates with
         | Some v => Some v
         | None => Commands.executedAt c
         end /\
       Commands.notes merged
       = match Commands.p_notes updates with
         | Some v => Some v
         | None => Commands.notes c
         end).
Proof.
  split; [reflexivity|]. split; [reflexivity|]. split.
  - intros Hnone. unfold Commands.updateCommand, Commands.findIndex.
    destruct (list_find _ allCommands) as [[i c]|] eqn:E; [|reflexivity].
    apply list_find_Some in E as (Hi & Hc & _).
    exfalso. apply (Hnone c); [|exact Hc].
    apply list_elem_of_lookup. eauto.
  - intros i c Hi Hc Hfirst merged.
    exists (<[i := merged]> allCommands).
    assert (E : Commands.findIndex id0 allCommands = Some (i, c)).
    { unfold Commands.findIndex. apply list_find_Some.
      split; [exact Hi|]. split; [exact Hc|].
      intros j y Hj Hlt. exact (Hfirst j y Hlt Hj). }
    unfold Commands.updateCommand. rewrite E.
    split; [reflexivity|].
    split; [apply list_lookup_insert_eq; eapply lookup_lt_Some; eauto|].
    split; [apply length_insert|].
    split; [intros j Hj; apply list_lookup_insert_ne; congruence|].
    subst merged. simpl. rewrite Hc. auto.
Qed.

Lemma updateCommand_merges_witness :
  Commands.updateCommand "zz" mark_executed (Commands.Stored [cmd_a; cmd_c])
  = (None, Commands.Stored [cmd_a; cmd_c]) /\
  exists all',
    Commands.updateCommand "c" mark_executed (Commands.Stored [cmd_a; cmd_c])
    = (Some (Commands.merge cmd_c mark_executed), Commands.Stored all') /\
    all' !! 1%nat = Some (Commands.merge cmd_c mark_executed) /\
    List.length all' = 2%nat /\
    (forall j, j <> 1%nat -> all' !! j = [cmd_a; cmd_c] !! j) /\
    Commands.id (Commands.merge cmd_c mark_executed) = "c" /\
    Commands.status (Commands.merge cmd_c mark_executed) = Commands.executed /\
    Commands.executedAt (Commands.merge cmd_c mark_executed)
    = Some "2024-01-03T00:00:00.000Z" /\
    Commands.notes (Commands.merge cmd_c mark_executed) = None.
Proof.
  destruct (updateCommand_merges "zz" mark_executed [cmd_a; cmd_c])
    as (_ & _ & Hnone & _).
  destruct (updateCommand_merges "c" mark_executed [cmd_a; cmd_c])
    as (_ & _ & _ & Hsome).
  split.
  - apply Hnone. intros c Hc.
    repeat (apply elem_of_cons in Hc as [->|Hc]; [discriminate|]).
    inversion Hc.
  - apply (Hsome 1%nat cmd_c eq_refl eq_refl).
    intros j c' Hj Hl. destruct j as [|j]; [|lia].
    injection Hl as <-. discriminate.
Defined.

(** ** Realtime client *)

Lemma attemptReconnect_schedules s cfg :
  Ws.config s = Some cfg ->
  Ws.reconnectAttempts s < Ws.maxReconnectAttempts ->
  Ws.attemptReconnect s =
  Ws.setTimeout (Ws.reconnectDelay * 2 ^ Ws.reconnectAttempts s)
    (Ws.set_reconnectAttempts (Ws.reconnectAttempts s + 1) s).
Proof.
  intros Hc Hlt. unfold Ws.attemptReconnect.
  destruct (Z.leb_spec Ws.maxReconnectAttempts (Ws.reconnectAttempts s)); [lia|].
  rewrite Hc. simpl.
  replace (Ws.reconnectAttempts s + 1 - 1) with (Ws.reconnectAttempts s) by lia.
  reflexivity.
Qed.

Lemma attemptReconnect_capped s :
  Ws.maxReconnectAttempts <= Ws.reconnectAttempts s ->
  Ws.attemptReconnect s = Ws.log "Max reconnection attempts reached" s.
Proof.
  intros Hle. unfold Ws.attemptReconnect.
  destruct (Z.leb_spec Ws.maxReconnectAttempts (Ws.reconnectAttempts s)); [reflexivity|lia].
Qed.

Lemma attemptReconnect_no_config s :
  Ws.config s = None ->
  Ws.attemptReconnect s = s \/
  Ws.attemptReconnect s = Ws.log "Max reconnection attempts reached" s.
Proof.
  intros Hc. unfold Ws.attemptReconnect. rewrite Hc.
  destruct (_ <=? _); auto.
Qed.

Lemma readyState_of_Some i s r :
  Ws.readyState_of i s = Some r ->
  exists sk, Ws.sockets s !! i = Some sk /\ Ws.readyState sk = r.
Proof.
  unfold Ws.readyState_of. destruct (Ws.sockets s !! i) as [sk|]; simpl; [|discriminate].
  intros [= <-]. eauto.
Qed.

(** An error event alone schedules nothing. *)
Lemma error_event_schedules_nothing :
  Ws.config connecting_client = Some token_config /\
  Ws.reconnectAttempts connecting_client = 0 /\
  Ws.ws connecting_client = Some 0%nat /\
  Ws.readyState_of 0 connecting_client = Some Ws.CONNECTING /\
  Ws.scheduled (Ws.step accepts_all (Ws.SockError 0) connecting_client) = [] /\
  Ws.timers (Ws.step accepts_all (Ws.SockError 0) connecting_client) = [] /\
  ~ error_schedules_reconnect.
Proof.
  repeat (split; [reflexivity|]).
  intros H.
  apply (H accepts_all connecting_client 0%nat token_config);
    [reflexivity | reflexivity | reflexivity | left; reflexivity | reflexivity].
Qed.

(** C4, amended. For a connected or connecting client with a stored
    configuration and fewer than the maximum number of attempts, a close
    event schedules one reconnect (delay [3000 * 2^attempts]) and counts
    the attempt.  An error event only clears [isConnecting]: it schedules
    nothing and leaves the counter alone; the reconnect is scheduled by
    the close event that follows it. *)
Theorem close_schedules_error_does_not
    (constructible : string -> bool) (s : Ws.State) (i : nat)
    (cfg : Api.TraccarConfig) :
  Ws.config s = Some cfg ->
  Ws.reconnectAttempts s < Ws.maxReconnectAttempts ->
  Ws.ws s = Some i ->
  Ws.readyState_of i s = Some Ws.CONNECTING \/
  Ws.readyState_of i s = Some Ws.OPEN ->
  let delay := Ws.reconnectDelay * 2 ^ Ws.reconnectAttempts s in
  let closed := Ws.step constructible (Ws.SockClose i) s in
  let failed := Ws.step constructible (Ws.SockError i) s in
  (Ws.scheduled closed = Ws.scheduled s ++ [delay] /\
   Ws.timers closed = Ws.timers s ++ [delay] /\
   Ws.reconnectAttempts closed = Ws.reconnectAttempts s + 1 /\
   Ws.isConnecting closed = false) /\
  (Ws.scheduled failed = Ws.scheduled s /\
   Ws.timers failed = Ws.timers s /\
   Ws.reconnectAttempts failed = Ws.reconnectAttempts s /\
   Ws.isConnecting failed = false) /\
  Ws.scheduled (Ws.step constructible (Ws.SockClose i) failed)
  = Ws.scheduled s ++ [delay].
Proof.
  intros Hc Hlt Hws Hrs delay closed failed.
  assert (Hclose : forall s0, Ws.config s0 = Some cfg ->
            Ws.reconnectAttempts s0 = Ws.reconnectAttempts s ->
            Ws.readyState_of i s0 = Ws.readyState_of i s ->
            let c := Ws.step constructible (Ws.SockClose i) s0 in
            Ws.scheduled c = Ws.scheduled s0 ++ [delay] /\
            Ws.timers c = Ws.timers s0 ++ [delay] /\
            Ws.reconnectAttempts c = Ws.reconnectAttempts s + 1 /\
            Ws.isConnecting c = false).
  { intros s0 Hc0 Ha0 Hr0. simpl. rewrite Hr0.
    assert (E : Ws.onclose (Ws.set_readyState i Ws.CLOSED s0) =
                Ws.setTimeout delay
                  (Ws.set_reconnectAttempts (Ws.reconnectAttempts s + 1)
                     (Ws.set_isConnecting false
                        (Ws.log "Traccar WebSocket disconnected"
                           (Ws.set_readyState i Ws.CLOSED s0))))).
    { unfold Ws.onclose, Ws.set_readyState.
      destruct (Ws.sockets s0 !! i);
        (rewrite attemptReconnect_schedules with (cfg := cfg);
         [simpl; rewrite Ha0; reflexivity | exact Hc0 | simpl; lia]). }
    destruct Hrs as [-> | ->]; rewrite E; unfold Ws.set_readyState;
      destruct (Ws.sockets s0 !! i); simpl; auto. }
  split; [apply Hclose; auto|].
  assert (Hf : failed = Ws.onerror s).
  { subst failed. simpl. destruct Hrs as [-> | ->]; reflexivity. }
  split; [rewrite Hf; simpl; auto|].
  rewrite Hf. apply (Hclose (Ws.onerror s)); auto.
Qed.

Lemma close_schedules_error_does_not_witness :
  Ws.scheduled (Ws.step accepts_all (Ws.SockClose 0) connecting_client) = [3000] /\
  Ws.scheduled (Ws.step accepts_all (Ws.SockError 0) connecting_client) = [] /\
  Ws.scheduled (Ws.step accepts_all (Ws.SockClose 0)
                  (Ws.step accepts_all (Ws.SockError 0) connecting_client))
  = [3000].
Proof.
  destruct (close_schedules_error_does_not accepts_all connecting_client 0
              token_config eq_refl eq_refl eq_refl (or_introl eq_refl))
    as ((H1 & _) & (H2 & _) & H3).
  split; [exact H1|]. split; [exact H2|exact H3].
Defined.

(** What [attemptReconnect] may do to the fields the proofs look at. *)
Lemma attemptReconnect_fields s :
  let s' := Ws.attemptReconnect s in
  Ws.config s' = Ws.config s /\
  Ws.sockets s' = Ws.sockets s /\
  Ws.ws s' = Ws.ws s /\
  Ws.isConnecting s' = Ws.isConnecting s /\
  Ws.handlers s' = Ws.handlers s /\
  ((Ws.reconnectAttempts s' = Ws.reconnectAttempts s /\
    Ws.scheduled s' = Ws.scheduled s /\ Ws.timers s' = Ws.timers s /\
    (Ws.config s = None \/ Ws.maxReconnectAttempts <= Ws.reconnectAttempts s)) \/
   (Ws.reconnectAttempts s' = Ws.reconnectAttempts s + 1 /\
    Ws.reconnectAttempts s < Ws.maxReconnectAttempts /\
    Ws.config s <> None /\
    Ws.scheduled s' =
      Ws.scheduled s ++ [Ws.reconnectDelay * 2 ^ Ws.reconnectAttempts s] /\
    Ws.timers s' =
      Ws.timers s ++ [Ws.reconnectDelay * 2 ^ Ws.reconnectAttempts s])).
Proof.
  unfold Ws.attemptReconnect.
  destruct (Z.leb_spec Ws.maxReconnectAttempts (Ws.reconnectAttempts s)) as [H|H].
  - simpl. repeat (split; [reflexivity|]). left. auto.
  - destruct (Ws.config s) eqn:Hc; simpl.
    + rewrite Hc. repeat (split; [reflexivity|]). right.
      replace (Ws.reconnectAttempts s + 1 - 1) with (Ws.reconnectAttempts s) by lia.
      repeat split; auto.
    + rewrite Hc. repeat (split; [reflexivity|]). left. auto.
Qed.

(** What [connect] may do: nothing, open a socket, or fail and go through
    [attemptReconnect]. *)
Lemma connect_cases constructible c s :
  let s' := Ws.connect constructible c s in
  s' = s \/
  (exists cfg u, c = Some cfg /\ u = Ws.wsUrl (Api.serverUrl cfg) /\
     constructible u = true /\
     s' = Ws.set_ws (Some (List.length (Ws.sockets s)))
            (Ws.set_sockets
               (Ws.sockets s ++ [{| Ws.url := u; Ws.readyState := Ws.CONNECTING |}])
               (Ws.set_isConnecting true (Ws.set_config c s)))) \/
  s' = Ws.attemptReconnect
         (Ws.set_isConnecting false
            (Ws.log "Failed to create WebSocket connection:"
               (Ws.set_isConnecting true (Ws.set_config c s)))).
Proof.
  unfold Ws.connect.
  destruct (Ws.isConnecting s || Ws.ws_open s); [left; reflexivity|].
  right. destruct c as [cfg|]; [|right; reflexivity].
  destruct (constructible (Ws.wsUrl (Api.serverUrl cfg))) eqn:E.
  - left. exists cfg, (Ws.wsUrl (Api.serverUrl cfg)). auto.
  - right. reflexivity.
Qed.

Lemma set_readyState_fields i r s :
  let s' := Ws.set_readyState i r s in
  Ws.config s' = Ws.config s /\
  Ws.reconnectAttempts s' = Ws.reconnectAttempts s /\
  Ws.scheduled s' = Ws.scheduled s /\
  Ws.timers s' = Ws.timers s /\
  Ws.handlers s' = Ws.handlers s /\
  Ws.ws s' = Ws.ws s /\
  List.length (Ws.sockets s') = List.length (Ws.sockets s).
Proof.
  unfold Ws.set_readyState.
  destruct (Ws.sockets s !! i); simpl; rewrite ?length_insert; auto 10.
Qed.

Lemma run_app constructible es1 es2 s :
  Ws.run constructible (es1 ++ es2) s
  = Ws.run constructible es2 (Ws.run constructible es1 s).
Proof. unfold Ws.run. apply foldl_app. Qed.

Lemma disconnect_fields s :
  Ws.config (Ws.disconnect s) = None /\
  Ws.reconnectAttempts (Ws.disconnect s) = 0 /\
  Ws.timers (Ws.disconnect s) = Ws.timers s /\
  Ws.scheduled (Ws.disconnect s) = Ws.scheduled s /\
  List.length (Ws.sockets (Ws.disconnect s)) = List.length (Ws.sockets s) /\
  Ws.ws (Ws.disconnect s) = None /\
  Ws.handlers (Ws.disconnect s) = ∅.
Proof.
  unfold Ws.disconnect, Ws.close_socket.
  destruct (Ws.ws s) as [i|] eqn:Hws; simpl; [|repeat split; exact Hws].
  destruct (Ws.sockets s !! i) as [sk|]; simpl; [|repeat split].
  destruct (Ws.readyState sk); simpl; rewrite ?length_insert; repeat split.
Qed.

(** Without a stored configuration, no step other than an explicit
    [connect] makes the client open a socket or schedule a reconnect. *)
Lemma step_without_config constructible e s :
  (forall cfg, e <> Ws.Connect cfg) -> Ws.config s = None ->
  let s' := Ws.step constructible e s in
  Ws.config s' = None /\
  List.length (Ws.sockets s') = List.length (Ws.sockets s) /\
  Ws.scheduled s' = Ws.scheduled s.
Proof.
  intros Ha Hc.
  destruct e; simpl.
  - exfalso. apply (Ha cfg). reflexivity.
  - (* disconnect *)
    destruct (disconnect_fields s) as (H1 & _ & _ & H4 & H5 & _). auto.
  - (* subscribe *) auto.
  - (* unsubscribe *)
    unfold Ws.unsubscribe. destruct (Ws.handlers s !! type); auto.
  - (* open *)
    destruct (Ws.readyState_of i s) as [[]|]; auto.
    destruct (set_readyState_fields i Ws.OPEN s) as (H1 & _ & H3 & _ & _ & _ & H7).
    simpl. rewrite H1, H3, H7. auto.
  - (* error *)
    destruct (Ws.readyState_of i s) as [[]|]; auto.
  - (* close *)
    assert (forall s0, Ws.config s0 = None ->
              Ws.config (Ws.onclose s0) = None /\
              List.length (Ws.sockets (Ws.onclose s0)) = List.length (Ws.sockets s0) /\
              Ws.scheduled (Ws.onclose s0) = Ws.scheduled s0) as Hoc.
    { intros s0 H0. unfold Ws.onclose.
      destruct (attemptReconnect_fields
        (Ws.set_isConnecting false (Ws.log "Traccar WebSocket disconnected" s0)))
        as (E1 & E2 & _ & _ & _ & [(_ & E3 & _) | (_ & _ & E3 & _)]).
      - rewrite E1, E2, E3. auto.
      - simpl in E3. congruence. }
    destruct (set_readyState_fields i Ws.CLOSED s) as (H1 & _ & H3 & _ & _ & _ & H7).
    destruct (Ws.readyState_of i s) as [[]|]; auto;
      (destruct (Hoc (Ws.set_readyState i Ws.CLOSED s)) as (G1 & G2 & G3);
       [congruence | rewrite G1, G2, G3; auto]).
  - (* message *)
    destruct (Ws.readyState_of i s) as [[]|]; auto. destruct parses; auto.
  - (* timer *)
    unfold Ws.fire_timer. destruct (Ws.timers s !! j); [|auto].
    unfold Ws.timer_callback. simpl. rewrite Hc.
    match goal with |- context [Ws.connect _ _ ?x] => set (s0 := x) end.
    destruct (connect_cases constructible None s0) as [E | [(? & ? & ? & _) | E]];
      [rewrite E; auto | discriminate |].
    rewrite E.
    match goal with |- context [Ws.attemptReconnect ?x] => set (s1 := x) end.
    destruct (attemptReconnect_fields s1)
      as (E1 & E2 & _ & _ & _ & [(_ & E3 & _) | (_ & _ & E3 & _)]).
    + rewrite E1, E2, E3. auto.
    + exfalso. apply E3. reflexivity.
Qed.

(** The reconnect timer survives [disconnect]; when it expires its
    callback runs [connect], which fails on the cleared configuration. *)
Lemma disconnect_keeps_timer :
  Ws.timers reconnect_pending = [3000] /\
  Ws.timers (Ws.disconnect reconnect_pending) = [3000] /\
  Ws.console (Ws.step accepts_all (Ws.TimerFire 0) (Ws.disconnect reconnect_pending))
  = Ws.console (Ws.disconnect reconnect_pending)
    ++ ["Attempting to reconnect (0/5)..."; "Failed to create WebSocket connection:"] /\
  ~ disconnect_cancels_timers /\
  ~ no_connect_step_after_disconnect.
Proof.
  repeat (split; [reflexivity|]).
  split.
  - intros H. specialize (H reconnect_pending). discriminate H.
  - intros H. specialize (H accepts_all reconnect_pending 0%nat).
    apply (f_equal Ws.console) in H. vm_compute in H. discriminate H.
Qed.

(** C3, amended. [disconnect] does not cancel a pending reconnect timer:
    the timer stays scheduled.  It clears the stored configuration, and
    from then on, whatever happens short of an explicit [connect] (timer
    expiries, socket events, other calls), the client constructs no socket
    and schedules no reconnect. *)
Theorem disconnect_stops_reconnecting
    (constructible : string -> bool) (s : Ws.State) (es : list Ws.Event) :
  Forall (λ e, forall cfg, e <> Ws.Connect cfg) es ->
  let s' := Ws.run constructible es (Ws.disconnect s) in
  Ws.timers (Ws.disconnect s) = Ws.timers s /\
  Ws.config s' = None /\
  List.length (Ws.sockets s') = List.length (Ws.sockets s) /\
  Ws.scheduled s' = Ws.scheduled s.
Proof.
  intros Hes.
  destruct (disconnect_fields s) as (Hc & _ & Ht & Hs & Hl & _).
  split; [exact Ht|].
  revert Hes. induction es as [|e es IH] using rev_ind; intros Hes.
  - simpl. auto.
  - apply Forall_app in Hes as [Hes He]. apply Forall_cons in He as [He _].
    rewrite run_app. simpl.
    destruct (IH Hes) as (I1 & I2 & I3).
    destruct (step_without_config constructible e _ He I1)
      as (J1 & J2 & J3).
    split; [exact J1|]. split; congruence.
Qed.

Lemma disconnect_stops_reconnecting_witness :
  let s' := Ws.run accepts_all
              [Ws.TimerFire 0; Ws.SockClose 0; Ws.Subscribe Ws.events 1]
              (Ws.disconnect reconnect_pending) in
  Ws.timers (Ws.disconnect reconnect_pending) = [3000] /\
  Ws.config s' = None /\
  List.length (Ws.sockets s') = 1%nat /\
  Ws.scheduled s' = [3000].
Proof.
  apply (disconnect_stops_reconnecting accepts_all reconnect_pending
           [Ws.TimerFire 0; Ws.SockClose 0; Ws.Subscribe Ws.events 1]).
  repeat (apply Forall_cons; split; [intros cfg; discriminate|]).
  apply Forall_nil. exact I.
Defined.

(** How [connect] moves the retry counter and the timers. *)
Lemma connect_fields constructible c s :
  let s' := Ws.connect constructible c s in
  (Ws.reconnectAttempts s' = Ws.reconnectAttempts s /\
   Ws.scheduled s' = Ws.scheduled s /\ Ws.timers s' = Ws.timers s) \/
  (Ws.reconnectAttempts s < Ws.maxReconnectAttempts /\
   Ws.reconnectAttempts s' = Ws.reconnectAttempts s + 1 /\
   Ws.scheduled s' =
     Ws.scheduled s ++ [Ws.reconnectDelay * 2 ^ Ws.reconnectAttempts s] /\
   Ws.timers s' =
     Ws.timers s ++ [Ws.reconnectDelay * 2 ^ Ws.reconnectAttempts s]).
Proof.
  destruct (connect_cases constructible c s) as [E | [(cfg & u & _ & _ & _ & E) | E]];
    simpl in *; rewrite E.
  - left. auto.
  - left. simpl. auto.
  - match goal with |- context [Ws.attemptReconnect ?x] => set (s1 := x) end.
    destruct (attemptReconnect_fields s1)
      as (_ & _ & _ & _ & _ & [(E1 & E2 & E3 & _) | (E1 & E2 & _ & E3 & E4)]).
    + left. rewrite E1, E2, E3. auto.
    + right. rewrite E1, E3, E4. auto.
Qed.

Lemma onclose_fields s :
  let s' := Ws.onclose s in
  (Ws.reconnectAttempts s' = Ws.reconnectAttempts s /\
   Ws.scheduled s' = Ws.scheduled s /\ Ws.timers s' = Ws.timers s) \/
  (Ws.reconnectAttempts s < Ws.maxReconnectAttempts /\
   Ws.reconnectAttempts s' = Ws.reconnectAttempts s + 1 /\
   Ws.scheduled s' =
     Ws.scheduled s ++ [Ws.reconnectDelay * 2 ^ Ws.reconnectAttempts s] /\
   Ws.timers s' =
     Ws.timers s ++ [Ws.reconnectDelay * 2 ^ Ws.reconnectAttempts s]).
Proof.
  unfold Ws.onclose.
  match goal with |- context [Ws.attemptReconnect ?x] => set (s1 := x) end.
  destruct (attemptReconnect_fields s1)
    as (_ & _ & _ & _ & _ & [(E1 & E2 & E3 & _) | (E1 & E2 & _ & E3 & E4)]).
  - left. simpl. rewrite E1, E2, E3. auto.
  - right. simpl. rewrite E1, E3, E4. auto.
Qed.

(** Every step other than [disconnect] and a socket opening keeps the
    retry counter or adds one to it. *)
Lemma step_counts_up constructible e s :
  e <> Ws.Disconnect -> (forall i, e <> Ws.SockOpen i) ->
  Ws.reconnectAttempts (Ws.step constructible e s) = Ws.reconnectAttempts s \/
  Ws.reconnectAttempts (Ws.step constructible e s) = Ws.reconnectAttempts s + 1.
Proof.
  intros Hd Ho. destruct e; simpl.
  - destruct (connect_fields constructible (Some cfg) s) as [(E & _) | (_ & E & _)]; auto.
  - contradiction.
  - left. reflexivity.
  - left. unfold Ws.unsubscribe. destruct (Ws.handlers s !! type); reflexivity.
  - exfalso. apply (Ho i). reflexivity.
  - left. destruct (Ws.readyState_of i s) as [[]|]; reflexivity.
  - destruct (set_readyState_fields i Ws.CLOSED s) as (_ & H2 & _).
    destruct (Ws.readyState_of i s) as [[]|]; auto;
      (destruct (onclose_fields (Ws.set_readyState i Ws.CLOSED s))
         as [(E & _) | (_ & E & _)]; simpl in E; rewrite E, H2; auto).
  - left. destruct (Ws.readyState_of i s) as [[]|]; try reflexivity.
    destruct parses; reflexivity.
  - unfold Ws.fire_timer. destruct (Ws.timers s !! j); [|auto].
    unfold Ws.timer_callback.
    match goal with |- context [Ws.connect _ ?c ?x] =>
      destruct (connect_fields constructible c x) as [(E & _) | (_ & E & _)]
    end; rewrite E; simpl; auto.
Qed.

(** C9. The retry counter goes back to zero only in [onopen] and in
    [disconnect], which both reset it.  [connect] called with the retries
    used up leaves the counter where it is and schedules nothing, and when
    that attempt fails (close event) no reconnect is scheduled either. *)
Theorem reconnectAttempts_reset_points (constructible : string -> bool) :
  (forall e s,
     0 < Ws.reconnectAttempts s ->
     Ws.reconnectAttempts (Ws.step constructible e s) = 0 ->
     e = Ws.Disconnect \/ exists i, e = Ws.SockOpen i) /\
  (forall s, Ws.reconnectAttempts (Ws.disconnect s) = 0) /\
  (forall s, Ws.reconnectAttempts (Ws.onopen s) = 0) /\
  (forall s cfg,
     Ws.maxReconnectAttempts <= Ws.reconnectAttempts s ->
     let s' := Ws.connect constructible (Some cfg) s in
     Ws.reconnectAttempts s' = Ws.reconnectAttempts s /\
     Ws.scheduled s' = Ws.scheduled s /\
     Ws.timers s' = Ws.timers s /\
     forall i,
       let s'' := Ws.step constructible (Ws.SockClose i) s' in
       Ws.reconnectAttempts s'' = Ws.reconnectAttempts s /\
       Ws.scheduled s'' = Ws.scheduled s /\
       Ws.timers s'' = Ws.timers s).
Proof.
  split; [|split; [|split; [|]]].
  - intros e s Hpos Hzero.
    assert (Hother : e <> Ws.Disconnect -> (forall i, e <> Ws.SockOpen i) -> False).
    { intros A B.
      destruct (step_counts_up constructible e s A B) as [E|E];
        rewrite E in Hzero; lia. }
    destruct e;
      try (exfalso; apply Hother; [discriminate | intros; discriminate]).
    + left. reflexivity.
    + right. eauto.
  - intros s. apply disconnect_fields.
  - reflexivity.
  - intros s cfg Hcap s'.
    destruct (connect_fields constructible (Some cfg) s)
      as [(E1 & E2 & E3) | (Hlt & _)]; [|lia].
    fold s' in E1, E2, E3.
    split; [exact E1|]. split; [exact E2|]. split; [exact E3|].
    intros i s''. subst s''. simpl.
    destruct (set_readyState_fields i Ws.CLOSED s') as (_ & H2 & H3 & H4 & _).
    destruct (Ws.readyState_of i s') as [[]|]; auto;
      (destruct (onclose_fields (Ws.set_readyState i Ws.CLOSED s'))
         as [(G1 & G2 & G3) | (Hlt & _)];
       [ rewrite G1, G2, G3; split; [|split]; congruence
       | simpl in Hlt; lia ]).
Qed.

Lemma reconnectAttempts_reset_points_witness :
  Ws.reconnectAttempts gave_up = 5 /\
  (let s' := Ws.connect accepts_all (Some basic_config) gave_up in
   Ws.reconnectAttempts s' = 5 /\
   Ws.scheduled s' = backoff_delays /\
   Ws.timers s' = [] /\
   let s'' := Ws.step accepts_all (Ws.SockClose 6) s' in
   Ws.reconnectAttempts s'' = 5 /\
   Ws.scheduled s'' = backoff_delays /\
   Ws.timers s'' = []) /\
  (Ws.Disconnect = Ws.Disconnect \/ exists i, Ws.Disconnect = Ws.SockOpen i).
Proof.
  destruct (reconnectAttempts_reset_points accepts_all) as (H1 & _ & _ & H4).
  split; [reflexivity|]. split.
  - destruct (H4 gave_up basic_config) as (G1 & G2 & G3 & G4).
    + vm_compute. discriminate.
    + split; [exact G1|]. split; [exact G2|]. split; [exact G3|].
      exact (G4 6%nat).
  - apply (H1 Ws.Disconnect reconnect_pending); reflexivity.
Defined.

Lemma failures_S n :
  failures (S n) = failures n ++ [Ws.SockClose n; Ws.TimerFire 0].
Proof.
  unfold failures. rewrite seq_S, flat_map_app. simpl. reflexivity.
Qed.

Lemma backoff_delays_nth k :
  (k < 5)%nat ->
  take (S k) backoff_delays
  = take k backoff_delays ++ [Ws.reconnectDelay * 2 ^ Z.of_nat k].
Proof.
  intros Hk.
  do 5 (destruct k as [|k]; [reflexivity|]). lia.
Qed.

Section Backoff.
Variable constructible : string -> bool.
Variable cfg : Api.TraccarConfig.
Hypothesis endpoint_accepted :
  constructible (Ws.wsUrl (Api.serverUrl cfg)) = true.

Lemma connect_starts_retrying :
  retrying cfg 0 (Ws.connect constructible (Some cfg) Ws.init) /\
  Ws.scheduled (Ws.connect constructible (Some cfg) Ws.init) = [].
Proof.
  unfold Ws.connect. simpl. rewrite endpoint_accepted.
  unfold retrying. simpl. repeat split.
Qed.

(** One failed attempt while retries remain: the close event schedules
    the next delay, the timer expires, a new socket is opened. *)
Lemma failed_attempt_retries k s :
  (k < 5)%nat -> retrying cfg k s ->
  let s' := Ws.run constructible [Ws.SockClose k; Ws.TimerFire 0] s in
  retrying cfg (S k) s' /\
  Ws.scheduled s' = Ws.scheduled s ++ [Ws.reconnectDelay * 2 ^ Z.of_nat k].
Proof.
  intros Hk (Hc & Ha & Hi & Ht & Hw & Hl & Hr).
  destruct (readyState_of_Some _ _ _ Hr) as (sk & Hsk & Hst).
  destruct s as [ws0 config0 att hs isC socks tms sched cons].
  simpl in *. subst.
  unfold Ws.run. simpl. rewrite Hr.
  unfold Ws.onclose, Ws.set_readyState. simpl. rewrite Hsk.
  rewrite attemptReconnect_schedules with (cfg := cfg);
    [| reflexivity | simpl; unfold Ws.maxReconnectAttempts; lia ].
  simpl.
  unfold Ws.fire_timer. simpl.
  unfold Ws.timer_callback, Ws.connect, Ws.ws_open. simpl.
  rewrite list_lookup_insert_eq by (eapply lookup_lt_Some; eauto).
  simpl. rewrite endpoint_accepted.
  unfold retrying, Ws.readyState_of. simpl.
  rewrite length_insert, Hl.
  split; [|reflexivity].
  split; [reflexivity|]. split; [lia|]. split; [reflexivity|].
  split; [reflexivity|]. split; [reflexivity|].
  split; [rewrite length_app, length_insert, Hl; simpl; lia|].
  rewrite lookup_app_r by (rewrite length_insert; lia).
  rewrite length_insert, Hl, Nat.sub_diag. reflexivity.
Qed.

(** The failure that uses up the retries: nothing is scheduled. *)
Lemma last_attempt_gives_up s :
  retrying cfg 5 s ->
  let s' := Ws.run constructible [Ws.SockClose 5; Ws.TimerFire 0] s in
  exhausted cfg s' /\ Ws.scheduled s' = Ws.scheduled s.
Proof.
  intros (Hc & Ha & Hi & Ht & Hw & Hl & Hr).
  destruct (readyState_of_Some _ _ _ Hr) as (sk & Hsk & Hst).
  destruct s as [ws0 config0 att hs isC socks tms sched cons].
  simpl in *. subst.
  unfold Ws.run. simpl. rewrite Hr.
  unfold Ws.onclose, Ws.set_readyState. simpl. rewrite Hsk.
  rewrite attemptReconnect_capped by (simpl; unfold Ws.maxReconnectAttempts; lia).
  unfold Ws.fire_timer. simpl.
  unfold exhausted, Ws.readyState_of. simpl.
  rewrite length_insert, list_lookup_insert_eq by (eapply lookup_lt_Some; eauto).
  repeat split; auto.
Qed.

Lemma exhausted_ignores_failures s m :
  exhausted cfg s -> (6 <= m)%nat ->
  Ws.run constructible [Ws.SockClose m; Ws.TimerFire 0] s = s.
Proof.
  intros (Hc & Ha & Hi & Ht & Hw & Hl & Hr) Hm.
  unfold Ws.run. simpl.
  assert (E : Ws.readyState_of m s = None).
  { unfold Ws.readyState_of. rewrite lookup_ge_None_2 by lia. reflexivity. }
  rewrite E. unfold Ws.fire_timer. rewrite Ht. reflexivity.
Qed.

Lemma retries_progress n :
  (n <= 5)%nat ->
  let s := Ws.run constructible (Ws.Connect cfg :: failures n) Ws.init in
  retrying cfg n s /\ Ws.scheduled s = take n backoff_delays.
Proof.
  induction n as [|n IH]; intros Hn.
  - apply connect_starts_retrying.
  - rewrite failures_S.
    change (Ws.Connect cfg :: failures n ++ [Ws.SockClose n; Ws.TimerFire 0])
      with ((Ws.Connect cfg :: failures n) ++ [Ws.SockClose n; Ws.TimerFire 0]).
    rewrite run_app.
    destruct IH as (IH1 & IH2); [lia|].
    destruct (failed_attempt_retries n _ ltac:(lia) IH1) as (H1 & H2).
    split; [exact H1|].
    rewrite H2, IH2. symmetry. apply backoff_delays_nth. lia.
Qed.

Lemma retries_end d :
  let s := Ws.run constructible (Ws.Connect cfg :: failures (6 + d)) Ws.init in
  exhausted cfg s /\ Ws.scheduled s = backoff_delays.
Proof.
  induction d as [|d IH].
  - rewrite Nat.add_0_r, failures_S.
    change (Ws.Connect cfg :: failures 5 ++ [Ws.SockClose 5; Ws.TimerFire 0])
      with ((Ws.Connect cfg :: failures 5) ++ [Ws.SockClose 5; Ws.TimerFire 0]).
    rewrite run_app.
    destruct (retries_progress 5 ltac:(lia)) as (H1 & H2).
    destruct (last_attempt_gives_up _ H1) as (G1 & G2).
    split; [exact G1|]. rewrite G2, H2. reflexivity.
  - replace (6 + S d)%nat with (S (6 + d)) by lia.
    rewrite failures_S.
    change (Ws.Connect cfg :: failures (6 + d) ++ [Ws.SockClose (6 + d); Ws.TimerFire 0])
      with ((Ws.Connect cfg :: failures (6 + d))
            ++ [Ws.SockClose (6 + d); Ws.TimerFire 0]).
    rewrite run_app.
    destruct IH as (IH1 & IH2).
    rewrite (exhausted_ignores_failures _ (6 + d) IH1) by lia.
    auto.
Qed.
End Backoff.

(** C5. With the base delay of 3000 ms, the delays scheduled over
    consecutive failed attempts are 3000, 6000, 12000, 24000, 48000: the
    [k]-th is [3000 * 2^(k-1)].  Once the fifth reconnect attempt has
    failed, nothing more is scheduled, however many failures follow. *)
Theorem reconnect_delay_sequence
    (constructible : string -> bool) (cfg : Api.TraccarConfig) :
  constructible (Ws.wsUrl (Api.serverUrl cfg)) = true ->
  Ws.reconnectDelay = 3000 /\
  (forall s, Ws.config s <> None ->
     let attempt := Ws.reconnectAttempts s + 1 in
     Ws.scheduled (Ws.attemptReconnect s)
     = Ws.scheduled s ++
       (if attempt <=? 5 then [Ws.reconnectDelay * 2 ^ (attempt - 1)] else [])) /\
  (forall n,
     Ws.scheduled (Ws.run constructible (Ws.Connect cfg :: failures n) Ws.init)
     = take n [3000; 6000; 12000; 24000; 48000]) /\
  (forall k, (1 <= k <= 5)%nat ->
     [3000; 6000; 12000; 24000; 48000] !! (k - 1)%nat
     = Some (Ws.reconnectDelay * 2 ^ (Z.of_nat k - 1))) /\
  (forall n, (6 <= n)%nat ->
     let s := Ws.run constructible (Ws.Connect cfg :: failures n) Ws.init in
     Ws.timers s = [] /\
     Ws.reconnectAttempts s = Ws.maxReconnectAttempts /\
     Ws.scheduled s = [3000; 6000; 12000; 24000; 48000]).
Proof.
  intros Hok. split; [reflexivity|]. split; [|split; [|split]].
  - intros s Hc attempt. subst attempt.
    destruct (attemptReconnect_fields s)
      as (_ & _ & _ & _ & _ & [(_ & E & _ & [Hn | Hcap]) | (_ & Hlt & _ & E & _)]).
    + contradiction.
    + rewrite E. unfold Ws.maxReconnectAttempts in Hcap.
      destruct (Z.leb_spec (Ws.reconnectAttempts s + 1) 5); [lia|].
      symmetry. apply app_nil_r.
    + rewrite E. unfold Ws.maxReconnectAttempts in Hlt.
      destruct (Z.leb_spec (Ws.reconnectAttempts s + 1) 5); [|lia].
      replace (Ws.reconnectAttempts s + 1 - 1) with (Ws.reconnectAttempts s) by lia.
      reflexivity.
  - intros n. destruct (le_lt_dec n 5) as [Hn|Hn].
    + apply (retries_progress constructible cfg Hok n Hn).
    + replace n with (6 + (n - 6))%nat by lia.
      destruct (retries_end constructible cfg Hok (n - 6)) as (_ & H).
      rewrite H. reflexivity.
  - intros k Hk.
    destruct k as [|k]; [lia|].
    do 5 (destruct k as [|k]; [reflexivity|]). lia.
  - intros n Hn s. subst s.
    replace n with (6 + (n - 6))%nat by lia.
    destruct (retries_end constructible cfg Hok (n - 6))
      as ((_ & Ha & _ & Ht & _) & H).
    auto.
Qed.

Lemma reconnect_delay_sequence_witness :
  Ws.scheduled (Ws.run accepts_all (Ws.Connect token_config :: failures 3) Ws.init)
  = [3000; 6000; 12000] /\
  Ws.scheduled (Ws.run accepts_all (Ws.Connect token_config :: failures 5) Ws.init)
  = [3000; 6000; 12000; 24000; 48000] /\
  Ws.scheduled (Ws.run accepts_all (Ws.Connect token_config :: failures 9) Ws.init)
  = [3000; 6000; 12000; 24000; 48000] /\
  Ws.timers (Ws.run accepts_all (Ws.Connect token_config :: failures 9) Ws.init)
  = [] /\
  Ws.scheduled (Ws.attemptReconnect reconnect_pending) = [3000; 6000].
Proof.
  destruct (reconnect_delay_sequence accepts_all token_config eq_refl)
    as (_ & H1 & H2 & _ & H4).
  split; [exact (H2 3%nat)|]. split; [exact (H2 5%nat)|].
  split; [exact (H2 9%nat)|].
  split; [apply (H4 9%nat); lia|].
  apply (H1 reconnect_pending). discriminate.
Defined.

(** ** Handler sets *)

Lemma set_add_idem h l : Ws.set_add h (Ws.set_add h l) = Ws.set_add h l.
Proof.
  unfold Ws.set_add. destruct (bool_decide (h ∈ l)) eqn:E.
  - rewrite E. reflexivity.
  - rewrite bool_decide_eq_true_2; [reflexivity|].
    apply elem_of_app. right. apply list_elem_of_singleton. reflexivity.
Qed.

Lemma set_add_NoDup h l : NoDup l -> NoDup (Ws.set_add h l).
Proof.
  intros Hl. unfold Ws.set_add. case_bool_decide as Hin; [exact Hl|].
  apply NoDup_app. split; [exact Hl|]. split; [|apply NoDup_singleton].
  intros x Hx Hx'. apply list_elem_of_singleton in Hx'. subst. contradiction.
Qed.

Lemma set_add_elem h l : h ∈ Ws.set_add h l.
Proof.
  unfold Ws.set_add. case_bool_decide; [assumption|].
  apply elem_of_app. right. apply list_elem_of_singleton. reflexivity.
Qed.

Lemma set_delete_add h l :
  Ws.set_delete h (Ws.set_add h l) = Ws.set_delete h l.
Proof.
  unfold Ws.set_add, Ws.set_delete. case_bool_decide; [reflexivity|].
  rewrite filter_app, filter_cons_False, filter_nil by (intros H'; apply H'; reflexivity).
  apply app_nil_r.
Qed.

Lemma count_in_set (h : nat) l :
  NoDup l -> h ∈ l -> List.length (filter (λ x, x = h) l) = 1%nat.
Proof.
  induction 1 as [|x l Hx Hl IH]; intros Hin; [inversion Hin|].
  destruct (decide (x = h)) as [->|Hne].
  - rewrite filter_cons_True by reflexivity. simpl. f_equal.
    destruct (filter (λ x, x = h) l) as [|y r] eqn:E; [reflexivity|].
    exfalso. apply Hx.
    assert (Hy : y ∈ filter (λ x, x = h) l) by (rewrite E; left).
    apply list_elem_of_filter in Hy as [-> Hy]. exact Hy.
  - rewrite filter_cons_False by exact Hne.
    apply IH. apply elem_of_cons in Hin as [->|Hin]; [contradiction|exact Hin].
Qed.

Lemma count_not_in_set (h : nat) l :
  h ∉ l -> List.length (filter (λ x, x = h) l) = 0%nat.
Proof.
  intros Hn. destruct (filter (λ x, x = h) l) as [|y r] eqn:E; [reflexivity|].
  exfalso. apply Hn.
  assert (Hy : y ∈ filter (λ x, x = h) l) by (rewrite E; left).
  apply list_elem_of_filter in Hy as [-> Hy]. exact Hy.
Qed.

Lemma subscribe_handlers type h s :
  Ws.handlers (Ws.subscribe type h s)
  = <[type := Ws.set_add h (registered type s)]> (Ws.handlers s).
Proof.
  unfold Ws.subscribe, registered. simpl.
  destruct (Ws.handlers s !! type) as [l|] eqn:E.
  - rewrite E. reflexivity.
  - rewrite lookup_insert_eq. simpl. apply insert_insert_eq.
Qed.

Lemma registered_subscribe type h s type' :
  registered type' (Ws.subscribe type h s)
  = if decide (type = type') then Ws.set_add h (registered type s)
    else registered type' s.
Proof.
  unfold registered at 1. rewrite subscribe_handlers, lookup_insert.
  destruct (decide (type = type')); reflexivity.
Qed.

Lemma registered_unsubscribe type h s type' :
  registered type' (Ws.unsubscribe type h s)
  = if decide (type = type') then Ws.set_delete h (registered type s)
    else registered type' s.
Proof.
  unfold registered, Ws.unsubscribe.
  destruct (Ws.handlers s !! type) as [l|] eqn:E; simpl.
  - rewrite lookup_insert. destruct (decide (type = type')); reflexivity.
  - destruct (decide (type = type')) as [<-|]; [rewrite E|]; reflexivity.
Qed.

Lemma subscribe_wf type h s : handlers_wf s -> handlers_wf (Ws.subscribe type h s).
Proof.
  intros Hwf type' l. rewrite subscribe_handlers, lookup_insert.
  destruct (decide (type = type')) as [<-|Hne].
  - intros [= <-]. apply set_add_NoDup. unfold registered.
    destruct (Ws.handlers s !! type) as [l0|] eqn:E; simpl.
    + exact (Hwf _ _ E).
    + apply NoDup_nil. exact I.
  - apply Hwf.
Qed.

Lemma registered_NoDup type s : handlers_wf s -> NoDup (registered type s).
Proof.
  intros Hwf. unfold registered.
  destruct (Ws.handlers s !! type) as [l|] eqn:E; simpl.
  - exact (Hwf _ _ E).
  - apply NoDup_nil. exact I.
Qed.

Lemma calls_of_notifyHandlers {Data : Type} h type type' (d : Data) s :
  calls_of h type (Ws.notifyHandlers type' d s)
  = if decide (type' = type)
    then List.length (filter (λ x, x = h) (registered type s))
    else 0%nat.
Proof.
  unfold calls_of, Ws.notifyHandlers, registered.
  destruct (decide (type' = type)) as [->|Hne].
  - destruct (Ws.handlers s !! type) as [l|]; simpl; [|reflexivity].
    induction l as [|x l IH]; [reflexivity|].
    rewrite fmap_cons.
    destruct (decide (x = h)) as [->|Hx].
    + rewrite !filter_cons_True by (simpl; auto). simpl. f_equal. exact IH.
    + rewrite !filter_cons_False
        by (intros Hc; simpl in Hc; first [contradiction | destruct Hc; contradiction]).
      exact IH.
  - destruct (Ws.handlers s !! type') as [l|]; simpl; [|reflexivity].
    induction l as [|x l IH]; [reflexivity|].
    rewrite fmap_cons, filter_cons_False
      by (intros Hc; simpl in Hc; destruct Hc; contradiction).
    exact IH.
Qed.

Lemma calls_of_app {Data : Type} h type
    (c1 c2 : list (nat * Ws.WebSocketMessageType * Data)) :
  calls_of h type (c1 ++ c2) = (calls_of h type c1 + calls_of h type c2)%nat.
Proof. unfold calls_of. rewrite filter_app, length_app. reflexivity. Qed.

Lemma calls_of_handleMessage {Data : Type} h type (m : Ws.WebSocketMessage Data) s :
  calls_of h type (Ws.handleMessage m s)
  = match payload_of type m with
    | Some _ => List.length (filter (λ x, x = h) (registered type s))
    | None => 0%nat
    end.
Proof.
  unfold Ws.handleMessage. rewrite !calls_of_app.
  destruct m as [p d e]; simpl.
  destruct p, d, e, type; simpl;
    rewrite ?calls_of_notifyHandlers; simpl; unfold calls_of; simpl; lia.
Qed.

Lemma subscribe_member type h s l :
  Ws.handlers s !! type = Some l -> h ∈ l -> Ws.subscribe type h s = s.
Proof.
  intros E Hin. unfold Ws.subscribe. rewrite !E. simpl.
  unfold Ws.set_add. rewrite bool_decide_eq_true_2 by exact Hin.
  rewrite insert_id by exact E.
  destruct s; reflexivity.
Qed.

Example events_only_message :
  Ws.handleMessage
    {| Ws.m_positions := None; Ws.m_devices := None; Ws.m_events := Some 9 |}
    three_subscribers
  = [(3%nat, Ws.events, 9)].
Proof. reflexivity. Qed.

Example positions_in_subscription_order :
  Ws.handleMessage (positions_only 9) three_subscribers
  = [(1%nat, Ws.positions, 9); (2%nat, Ws.positions, 9)].
Proof. reflexivity. Qed.

(** C10. Handlers are held in a set per message kind.  Subscribing the
    same function a second time changes nothing: it is registered once
    and called once per inbound message of that kind.  One call of the
    unsubscribe function removes it, so it is called no more, and every
    other handler stays registered, in the same order. *)
Theorem subscribe_is_set_based (s : Ws.State)
    (type : Ws.WebSocketMessageType) (h : nat) :
  handlers_wf s ->
  let s1 := Ws.subscribe type h s in
  let s2 := Ws.subscribe type h s1 in
  let s3 := Ws.unsubscribe type h s2 in
  s2 = s1 /\
  handlers_wf s2 /\
  List.length (filter (λ x, x = h) (registered type s2)) = 1%nat /\
  (forall (Data : Type) (m : Ws.WebSocketMessage Data),
     calls_of h type (Ws.handleMessage m s2)
     = match payload_of type m with Some _ => 1%nat | None => 0%nat end) /\
  (h ∉ registered type s3) /\
  (forall (Data : Type) (m : Ws.WebSocketMessage Data),
     calls_of h type (Ws.handleMessage m s3) = 0%nat) /\
  registered type s3 = filter (λ h', h' <> h) (registered type s) /\
  (forall h', h' <> h ->
     (h' ∈ registered type s3) <-> (h' ∈ registered type s2)) /\
  (forall type', type' <> type -> registered type' s3 = registered type' s2).
Proof.
  intros Hwf s1 s2 s3.
  assert (E21 : s2 = s1).
  { subst s2. apply subscribe_member with (l := Ws.set_add h (registered type s)).
    - subst s1. rewrite subscribe_handlers. apply lookup_insert_eq.
    - apply set_add_elem. }
  assert (Hwf2 : handlers_wf s2) by (rewrite E21; apply subscribe_wf, Hwf).
  assert (R2 : registered type s2 = Ws.set_add h (registered type s)).
  { rewrite E21. subst s1. rewrite registered_subscribe.
    destruct (decide (type = type)); [reflexivity|contradiction]. }
  assert (C2 : List.length (filter (λ x, x = h) (registered type s2)) = 1%nat).
  { apply count_in_set; [apply registered_NoDup, Hwf2|].
    rewrite R2. apply set_add_elem. }
  assert (R3 : registered type s3 = filter (λ h', h' <> h) (registered type s)).
  { subst s3. rewrite registered_unsubscribe.
    destruct (decide (type = type)); [|contradiction].
    rewrite R2. apply set_delete_add. }
  assert (N3 : h ∉ registered type s3).
  { rewrite R3. intros Hin. apply list_elem_of_filter in Hin as [Hne _].
    apply Hne. reflexivity. }
  split; [exact E21|]. split; [exact Hwf2|]. split; [exact C2|].
  split; [intros Data m; rewrite calls_of_handleMessage, C2; reflexivity|].
  split; [exact N3|].
  split; [intros Data m; rewrite calls_of_handleMessage, (count_not_in_set _ _ N3);
          destruct (payload_of type m); reflexivity|].
  split; [exact R3|].
  split.
  - intros h' Hne. rewrite R3, R2, list_elem_of_filter.
    unfold Ws.set_add. case_bool_decide; [tauto|].
    rewrite elem_of_app, list_elem_of_singleton. tauto.
  - intros type' Hne. subst s3. rewrite registered_unsubscribe.
    destruct (decide (type = type')); [congruence|reflexivity].
Qed.

Lemma init_handlers_wf : handlers_wf Ws.init.
Proof.
  intros type l H.
  change ((∅ : gmap Ws.WebSocketMessageType (list nat)) !! type = Some l) in H.
  rewrite lookup_empty in H. discriminate.
Qed.

Lemma subscribe_is_set_based_witness :
  let s1 := Ws.subscribe Ws.positions 1 three_subscribers in
  let s2 := Ws.subscribe Ws.positions 1 s1 in
  let s3 := Ws.unsubscribe Ws.positions 1 s2 in
  registered Ws.positions s2 = [1; 2]%nat /\
  calls_of 1 Ws.positions (Ws.handleMessage (positions_only 42) s2) = 1%nat /\
  registered Ws.positions s3 = [2]%nat /\
  registered Ws.events s3 = [3]%nat /\
  calls_of 1 Ws.positions (Ws.handleMessage (positions_only 42) s3) = 0%nat.
Proof.
  assert (Hwf : handlers_wf three_subscribers)
    by (repeat apply subscribe_wf; apply init_handlers_wf).
  destruct (subscribe_is_set_based three_subscribers Ws.positions 1 Hwf)
    as (_ & _ & _ & H4 & _ & H6 & H7 & _ & H9).
  split; [reflexivity|].
  split; [exact (H4 Z (positions_only 42))|].
  split; [exact H7|].
  split; [reflexivity|].
  exact (H6 Z (positions_only 42)).
Defined.

(** ** Request workflow *)

Section Workflow.
Variable deviceId : Z.
Variable organizationId : string.
Variable userId : string.
Variable type : Commands.CommandType.
Variable toUpperCase : string -> string.

Let dispatch := Modal.dispatch deviceId organizationId userId type toUpperCase.
Let handleSubmit := Modal.handleSubmit deviceId organizationId userId type.

Lemma initial_inv st0 : workflow_inv (Modal.initial st0).
Proof.
  unfold workflow_inv. simpl.
  split; [lia|]. split; [lia|]. split; [lia|reflexivity].
Qed.

Lemma handleClose_inv s :
  Modal.isSubmitting s = false -> workflow_inv (Modal.handleClose s).
Proof.
  intros H. unfold workflow_inv. simpl.
  split; [lia|]. split; [lia|]. split; [lia|exact H].
Qed.

Lemma trim_nonblank r :
  (0 <? String.length (Str.trim r))%nat = true -> Str.trim r <> "".
Proof.
  intros H E. rewrite E in H. discriminate H.
Qed.

Lemma handleSubmit_inv uuid now s :
  workflow_inv s -> workflow_inv (handleSubmit uuid now s).1.
Proof.
  intros Hinv. subst handleSubmit. unfold Modal.handleSubmit.
  destruct (Modal.canProceed type s); simpl; [|exact Hinv].
  destruct (Commands.createCommand _ _ _ _) as [[c st']|e]; simpl.
  - unfold workflow_inv. simpl.
    split; [lia|]. split; [lia|]. split; [lia|reflexivity].
  - destruct Hinv as (H1 & H2 & H3 & H4).
    unfold workflow_inv. simpl. auto.
Qed.

Lemma dispatch_inv a s : workflow_inv s -> workflow_inv (dispatch a s).1.
Proof.
  intros Hinv. pose proof Hinv as (H1 & H2 & H3 & H4).
  subst dispatch. unfold Modal.dispatch.
  destruct (Modal.isOpen s); simpl.
  - destruct a; simpl; try exact Hinv.
    + apply handleClose_inv, H4.
    + rewrite H4. apply handleClose_inv, H4.
    + destruct (Z.eqb_spec (Modal.step s) 1) as [E|E]; simpl; [|exact Hinv].
      unfold workflow_inv. simpl.
      split; [lia|]. split; [lia|]. split; [lia|exact H4].
    + destruct (Z.eqb_spec (Modal.step s) 2) as [E|E]; simpl; [|exact Hinv].
      unfold workflow_inv. simpl.
      split; [lia|]. split; [exact H2|]. split; [lia|exact H4].
    + destruct (Z.eqb_spec (Modal.step s) 3) as [E|E]; simpl; [|exact Hinv].
      unfold workflow_inv. simpl. auto.
    + rewrite H4. simpl.
      destruct (Z.ltb_spec 1 (Modal.step s)) as [E|E]; simpl; [|exact Hinv].
      unfold workflow_inv. simpl.
      split; [lia|]. split; [intros; apply H2; lia|].
      split; [intros; apply H3; lia|exact H4].
    + rewrite H4.
      destruct (Z.ltb_spec (Modal.step s) 3) as [E|E]; simpl; [|exact Hinv].
      destruct (Modal.canProceed type s) eqn:Hcan; simpl; [|exact Hinv].
      unfold workflow_inv. simpl.
      unfold Modal.canProceed in Hcan.
      split; [lia|].
      destruct (Z.eqb_spec (Modal.step s) 1) as [E1|E1].
      * split; [intros; exact Hcan|]. split; [lia|exact H4].
      * destruct (Z.eqb_spec (Modal.step s) 2) as [E2|E2]; [|lia].
        split; [intros; apply H2; lia|].
        split; [intros; apply trim_nonblank, Hcan|exact H4].
    + destruct (negb (Modal.step s <? 3) && Modal.canProceed type s
                && negb (Modal.isSubmitting s)); [|exact Hinv].
      apply handleSubmit_inv, Hinv.
  - destruct a; exact Hinv.
Qed.

(** A step that creates a command starts from a state that passes the
    three gates. *)
Lemma dispatch_creates a s s' command :
  workflow_inv s -> dispatch a s = (s', Some command) ->
  Modal.step s = 3 /\
  Modal.fully_checked (Modal.checklist s) = true /\
  Str.trim (Modal.reason s) <> "" /\
  Modal.confirmation s = Modal.requiredConfirmation type /\
  Commands.reason command = Str.trim (Modal.reason s) /\
  Commands.type command = type /\
  Commands.status command = Commands.requested.
Proof.
  intros (H1 & H2 & H3 & H4). subst dispatch. unfold Modal.dispatch.
  destruct (Modal.isOpen s); simpl.
  2: { destruct a; discriminate. }
  destruct a; try discriminate;
    try (match goal with |- (if ?b then _ else _) = _ -> _ =>
           destruct b; discriminate end).
  destruct (Z.ltb_spec (Modal.step s) 3) as [E|E]; simpl; [discriminate|].
  destruct (Modal.canProceed type s) eqn:Hcan; simpl; [|discriminate].
  rewrite H4. simpl.
  unfold Modal.handleSubmit. rewrite Hcan. simpl.
  assert (Hstep : Modal.step s = 3) by lia.
  unfold Modal.canProceed in Hcan. rewrite Hstep in Hcan. simpl in Hcan.
  apply String.eqb_eq in Hcan.
  unfold Commands.createCommand.
  destruct (Modal.storage s); simpl; intros [= <- <-]; simpl;
    (split; [exact Hstep|]; split; [apply H2; lia|]; split; [apply H3; lia|];
     split; [exact Hcan|]; auto).
Qed.

Lemma play_creates acts : forall s0 s command,
  workflow_inv s0 ->
  (s, command) ∈ (Modal.play deviceId organizationId userId type toUpperCase acts s0).2 ->
  Modal.step s = 3 /\
  Modal.fully_checked (Modal.checklist s) = true /\
  Str.trim (Modal.reason s) <> "" /\
  Modal.confirmation s = Modal.requiredConfirmation type /\
  Commands.reason command = Str.trim (Modal.reason s) /\
  Commands.type command = type /\
  Commands.status command = Commands.requested.
Proof.
  induction acts as [|a acts IH]; intros s0 s command Hinv Hin; simpl in Hin.
  - inversion Hin.
  - pose proof (dispatch_inv a s0 Hinv) as Hinv'.
    pose proof (dispatch_creates a s0) as Hc.
    subst dispatch.
    destruct (Modal.dispatch _ _ _ _ _ a s0) as [s1 out] eqn:Ed.
    simpl in Hinv'.
    specialize (IH s1 s command Hinv').
    destruct (Modal.play _ _ _ _ _ acts s1) as [s2 outs] eqn:Ep.
    simpl in *.
    destruct out as [c|].
    + apply elem_of_cons in Hin as [[= -> ->]|Hin].
      * apply (Hc s1 c Hinv eq_refl).
      * apply IH, Hin.
    + apply IH, Hin.
Qed.
End Workflow.

Example typed_confirmation_is_uppercased :
  Modal.canProceed Commands.IMMOBILISE
    (Modal.set_confirmation (Str.ascii_toUpperCase "immobilise") submitted_from)
  = true /\
  Modal.canProceed Commands.IMMOBILISE
    (Modal.set_confirmation (Str.ascii_toUpperCase "immobilize") submitted_from)
  = false.
Proof. split; reflexivity. Qed.

(** C1. Whatever the operator does (open, close, tick and untick boxes,
    edit the reason, type the confirmation, Next, Back, Submit), every
    command that [handleSubmit] creates is created from a state where the
    three checklist items are all ticked, the trimmed reason is not empty
    and the confirmation text is the phrase required for the command type;
    the command is of that type, has status requested and carries the
    trimmed reason. *)
Theorem submission_passes_all_gates
    (deviceId : Z) (organizationId userId : string)
    (type : Commands.CommandType) (toUpperCase : string -> string)
    (st0 : Commands.Storage) (acts : list Modal.Action)
    (s : Modal.State) (command : Commands.Command) :
  (s, command) ∈
    (Modal.play deviceId organizationId userId type toUpperCase acts
       (Modal.initial st0)).2 ->
  (Modal.vehicleStationary (Modal.checklist s) = true /\
   Modal.userAuthorized (Modal.checklist s) = true /\
   Modal.actionAudited (Modal.checklist s) = true) /\
  Str.trim (Modal.reason s) <> "" /\
  Modal.confirmation s
  = match type with
    | Commands.IMMOBILISE => "IMMOBILISE"
    | Commands.RESTORE_POWER => "RESTORE POWER"
    end /\
  Modal.step s = 3 /\
  Commands.reason command = Str.trim (Modal.reason s) /\
  Commands.type command = type /\
  Commands.status command = Commands.requested.
Proof.
  intros Hin.
  destruct (play_creates deviceId organizationId userId type toUpperCase
              acts _ s command (initial_inv st0) Hin)
    as (H1 & H2 & H3 & H4 & H5 & H6 & H7).
  unfold Modal.fully_checked in H2.
  apply andb_true_iff in H2 as [H2 H2c]. apply andb_true_iff in H2 as [H2a H2b].
  split; [auto|]. split; [exact H3|].
  split; [rewrite H4; destruct type; reflexivity|]. auto.
Qed.

Lemma submission_passes_all_gates_witness :
  (Modal.play 7 "org-1" "u-1" Commands.IMMOBILISE Str.ascii_toUpperCase
     careful_operator (Modal.initial Commands.Missing)).2
  = [(submitted_from, submitted_command)] /\
  Str.trim (Modal.reason submitted_from) <> "" /\
  Modal.confirmation submitted_from = "IMMOBILISE" /\
  Commands.reason submitted_command = "stolen vehicle, case 12".
Proof.
  split; [reflexivity|].
  destruct (submission_passes_all_gates 7 "org-1" "u-1" Commands.IMMOBILISE
              Str.ascii_toUpperCase Commands.Missing careful_operator
              submitted_from submitted_command)
    as (_ & H2 & H3 & _ & H5 & _).
  - apply list_elem_of_singleton. reflexivity.
  - split; [exact H2|]. split; [exact H3|exact H5].
Defined.

(** * Further properties of the code *)

(** ** Command store: create and the queries *)

(** What a successful [createCommand] returns. *)
Lemma createCommand_Returned uuid now command st c st' :
  Commands.createCommand uuid now command st = Returned (c, st') ->
  st <> Commands.Unparsable /\
  st' = Commands.Stored (log_of st ++ [c]) /\
  c = {| Commands.id := uuid; Commands.type := Commands.n_type command;
         Commands.status := Commands.n_status command;
         Commands.deviceId := Commands.n_deviceId command;
         Commands.organizationId := Commands.n_organizationId command;
         Commands.userId := Commands.n_userId command;
         Commands.reason := Commands.n_reason command;
         Commands.timestamp := now;
         Commands.executedAt := Commands.n_executedAt command;
         Commands.notes := Commands.n_notes command |}.
Proof.
  unfold Commands.createCommand.
  destruct st as [| |l]; intros H; try discriminate H;
    injection H as <- <-; (split; [discriminate|]); split; reflexivity.
Qed.

Lemma getCommands_log orgId st :
  Commands.getCommands orgId st
  = filter (λ cmd, Commands.organizationId cmd = orgId) (log_of st).
Proof. destruct st; reflexivity. Qed.

Lemma getDeviceCommands_snoc d o l c :
  Commands.getDeviceCommands d o (Commands.Stored (l ++ [c]))
  = Commands.getDeviceCommands d o (Commands.Stored l) ++
    (if decide (Commands.deviceId c = d /\ Commands.organizationId c = o)
     then [c] else []).
Proof.
  unfold Commands.getDeviceCommands. simpl. rewrite !filter_app. f_equal.
  destruct (decide (Commands.organizationId c = o)) as [Eo|Eo].
  - rewrite (filter_cons_True _ c) by exact Eo. rewrite filter_nil.
    destruct (decide (Commands.deviceId c = d)) as [Ed|Ed].
    + rewrite filter_cons_True by exact Ed. rewrite decide_True by auto.
      reflexivity.
    + rewrite filter_cons_False by exact Ed. rewrite decide_False by tauto.
      reflexivity.
  - rewrite (filter_cons_False _ c) by exact Eo.
    rewrite decide_False by tauto. reflexivity.
Qed.

(** X1. [createCommand] appends: on a readable (or absent) log the new record
    gets the generated id and timestamp and goes to the end, every stored
    record stays at its index; on an unreadable log it throws and writes
    nothing. *)
Theorem createCommand_appends (uuid now : string)
    (command : Commands.NewCommand) (st : Commands.Storage) :
  (st = Commands.Unparsable ->
   Commands.createCommand uuid now command st = Thrown SyntaxError) /\
  (st <> Commands.Unparsable ->
   exists c,
     Commands.createCommand uuid now command st
     = Returned (c, Commands.Stored (log_of st ++ [c])) /\
     Commands.id c = uuid /\ Commands.timestamp c = now /\
     Commands.type c = Commands.n_type command /\
     Commands.status c = Commands.n_status command /\
     Commands.deviceId c = Commands.n_deviceId command /\
     Commands.organizationId c = Commands.n_organizationId command /\
     Commands.reason c = Commands.n_reason command /\
     (forall i old, log_of st !! i = Some old ->
                    (log_of st ++ [c]) !! i = Some old) /\
     (log_of st ++ [c]) !! List.length (log_of st) = Some c).
Proof.
  split.
  - intros ->. reflexivity.
  - intros Hst. unfold Commands.createCommand.
    destruct st as [| |l]; [| contradiction |]; eexists;
      (split; [reflexivity|]); simpl; repeat (split; [reflexivity|]).
    + split; [intros i old H; rewrite lookup_nil in H; discriminate|reflexivity].
    + split; [intros i old H; apply lookup_app_l_Some; exact H|].
      rewrite lookup_app_r by lia. rewrite Nat.sub_diag. reflexivity.
Qed.

Lemma createCommand_appends_witness :
  Commands.createCommand "z" "2024-02-01T00:00:00.000Z" new_restore
    Commands.Unparsable = Thrown SyntaxError /\
  exists c,
    Commands.createCommand "z" "2024-02-01T00:00:00.000Z" new_restore
      (Commands.Stored [cmd_a; cmd_c])
    = Returned (c, Commands.Stored ([cmd_a; cmd_c] ++ [c])) /\
    Commands.id c = "z".
Proof.
  destruct (createCommand_appends "z" "2024-02-01T00:00:00.000Z" new_restore
              Commands.Unparsable) as (H1 & _).
  destruct (createCommand_appends "z" "2024-02-01T00:00:00.000Z" new_restore
              (Commands.Stored [cmd_a; cmd_c])) as (_ & H2).
  split; [exact (H1 eq_refl)|].
  destruct (H2 ltac:(discriminate)) as (c & E & Hid & _).
  exists c. split; [exact E|exact Hid].
Defined.

(** X2. [getDeviceCommands(d, o)] returns exactly the stored records of device
    [d] in organisation [o]: the log with every other record left out, so
    each such record as often as it is stored and in the order of the log;
    an absent or unreadable log gives the empty list. *)
Theorem getDeviceCommands_selects (d : Z) (o : string) (st : Commands.Storage) :
  Commands.getDeviceCommands d o st
  = filter (λ c, Commands.deviceId c = d /\ Commands.organizationId c = o)
      (log_of st) /\
  (forall c, c ∈ Commands.getDeviceCommands d o st <->
             c ∈ log_of st /\ Commands.deviceId c = d /\
             Commands.organizationId c = o) /\
  sublist (Commands.getDeviceCommands d o st) (log_of st) /\
  Commands.getDeviceCommands d o Commands.Missing = [] /\
  Commands.getDeviceCommands d o Commands.Unparsable = [].
Proof.
  unfold Commands.getDeviceCommands. rewrite getCommands_log.
  split; [|split; [|split; [|split; reflexivity]]].
  - apply list_filter_filter.
  - intros c. rewrite !list_elem_of_filter. tauto.
  - etransitivity; apply sublist_filter.
Qed.

Lemma find_app_fresh (P : Commands.Command -> Prop) `{forall x, Decision (P x)}
    (l : list Commands.Command) c :
  snd <$> list_find P (l ++ [c])
  = match snd <$> list_find P l with
    | Some x => Some x
    | None => if decide (P c) then Some c else None
    end.
Proof.
  induction l as [|a l IH]; simpl.
  - destruct (decide (P c)); reflexivity.
  - destruct (decide (P a)); [reflexivity|].
    destruct (list_find P (l ++ [c])) as [[i x]|], (list_find P l) as [[j y]|];
      simpl in *; exact IH.
Qed.

(** X3. A command can be read back by its id right after it is created,
    provided the id is not already in the log; if it is, the older record
    is the one found.  Looking up any other id is unaffected. *)
Theorem getCommand_after_create (uuid now : string)
    (command : Commands.NewCommand) (st st' : Commands.Storage)
    (c : Commands.Command) :
  Commands.createCommand uuid now command st = Returned (c, st') ->
  ((forall old, old ∈ log_of st -> Commands.id old <> uuid) ->
   Commands.getCommand uuid st' = Some c) /\
  (forall old, Commands.getCommand uuid st = Some old ->
               Commands.getCommand uuid st' = Some old) /\
  (forall id', id' <> uuid ->
               Commands.getCommand id' st' = Commands.getCommand id' st).
Proof.
  intros Hc.
  destruct (createCommand_Returned _ _ _ _ _ _ Hc) as (Hst & -> & Hrec).
  assert (Hid : Commands.id c = uuid) by (rewrite Hrec; reflexivity).
  clear Hrec. rename c into c0.
  assert (G : forall id', Commands.getCommand id' (Commands.Stored (log_of st ++ [c0]))
            = match Commands.getCommand id' st with
              | Some x => Some x
              | None => if decide (Commands.id c0 = id') then Some c0 else None
              end).
  { intros id'. unfold Commands.getCommand at 1. rewrite find_app_fresh.
    destruct st as [| |l]; [reflexivity|contradiction|reflexivity]. }
  split; [|split].
  - intros Hfresh. rewrite G.
    destruct (Commands.getCommand uuid st) as [x|] eqn:Ex.
    + exfalso. destruct st as [| |l]; try discriminate Ex.
      unfold Commands.getCommand in Ex.
      destruct (list_find _ l) as [[i y]|] eqn:Ef; [|discriminate].
      apply list_find_Some in Ef as (Hi & Hy & _).
      apply (Hfresh y); [|exact Hy].
      apply list_elem_of_lookup. eauto.
    + rewrite decide_True by exact Hid. reflexivity.
  - intros old Hold. rewrite G, Hold. reflexivity.
  - intros id' Hne. rewrite G.
    destruct (Commands.getCommand id' st); [reflexivity|].
    rewrite decide_False by congruence. reflexivity.
Qed.

Lemma getCommand_after_create_witness :
  exists c st',
    Commands.createCommand "z" "2024-02-01T00:00:00.000Z" new_restore
      (Commands.Stored [cmd_a; cmd_c]) = Returned (c, st') /\
    Commands.getCommand "z" st' = Some c /\
    Commands.getCommand "a" st' = Some cmd_a.
Proof.
  eexists _, _. split; [reflexivity|].
  destruct (getCommand_after_create "z" "2024-02-01T00:00:00.000Z" new_restore
              (Commands.Stored [cmd_a; cmd_c]) _ _ eq_refl) as (H1 & _ & H3).
  split.
  - apply H1. intros old Hold.
    repeat (apply elem_of_cons in Hold as [->|Hold]; [discriminate|]).
    inversion Hold.
  - rewrite (H3 "a") by discriminate. reflexivity.
Defined.

(** X4. Creating a command extends the list of its own device and
    organisation by that command and, when its status is requested or
    pending, the pending list of its organisation; the lists of every
    other device or organisation are unchanged. *)
Theorem create_extends_queries (uuid now : string)
    (command : Commands.NewCommand) (st st' : Commands.Storage)
    (c : Commands.Command) :
  Commands.createCommand uuid now command st = Returned (c, st') ->
  (forall d o,
     Commands.getDeviceCommands d o st'
     = Commands.getDeviceCommands d o st ++
       (if decide (Commands.n_deviceId command = d /\
                   Commands.n_organizationId command = o)
        then [c] else [])) /\
  (forall o,
     Commands.getPendingCommands o st'
     = Commands.getPendingCommands o st ++
       (if decide (Commands.n_organizationId command = o /\
                   (Commands.n_status command = Commands.requested \/
                    Commands.n_status command = Commands.pending))
        then [c] else [])).
Proof.
  intros Hc.
  destruct (createCommand_Returned _ _ _ _ _ _ Hc) as (Hst & -> & Hrec).
  assert (Hd : Commands.deviceId c = Commands.n_deviceId command)
    by (rewrite Hrec; reflexivity).
  assert (Ho : Commands.organizationId c = Commands.n_organizationId command)
    by (rewrite Hrec; reflexivity).
  assert (Hs : Commands.status c = Commands.n_status command)
    by (rewrite Hrec; reflexivity).
  clear Hrec. rewrite <- Hd, <- Ho, <- Hs.
  split.
  - intros d o. rewrite getDeviceCommands_snoc.
    destruct st as [| |l]; [reflexivity|contradiction|reflexivity].
  - intros o. unfold Commands.getPendingCommands.
    rewrite !getCommands_log. simpl. rewrite !filter_app.
    f_equal.
    destruct (decide (Commands.organizationId c = o)) as [Eo|Eo].
    + rewrite (filter_cons_True _ c) by exact Eo. rewrite filter_nil.
      destruct (decide (Commands.status c = Commands.requested \/
                        Commands.status c = Commands.pending)) as [Ep|Ep].
      * rewrite filter_cons_True by exact Ep. rewrite decide_True by auto.
        reflexivity.
      * rewrite filter_cons_False by exact Ep. rewrite decide_False by tauto.
        reflexivity.
    + rewrite (filter_cons_False _ c) by exact Eo.
      rewrite decide_False by tauto. reflexivity.
Qed.

Lemma create_extends_queries_witness :
  exists c st',
    Commands.createCommand "z" "2024-02-01T00:00:00.000Z" new_restore
      (Commands.Stored [cmd_a; cmd_c]) = Returned (c, st') /\
    Commands.getDeviceCommands 7 "org-1" st' = [cmd_a; c] /\
    Commands.getDeviceCommands 8 "org-1" st' = [cmd_c] /\
    Commands.getPendingCommands "org-1" st' = [cmd_a; cmd_c; c].
Proof.
  eexists _, _. split; [reflexivity|].
  destruct (create_extends_queries "z" "2024-02-01T00:00:00.000Z" new_restore
              (Commands.Stored [cmd_a; cmd_c]) _ _ eq_refl) as (H1 & H2).
  split; [exact (H1 7 "org-1")|].
  split; [exact (H1 8 "org-1")|exact (H2 "org-1")].
Defined.

Lemma merge_empty c : Commands.merge c empty_updates = c.
Proof. destruct c; reflexivity. Qed.

(** X5. Reading back after an update: when [updates] has no id field and a
    record with the id exists, [updateCommand] returns the merged record
    and [getCommand] then finds exactly that record.  An update without any
    field returns what [getCommand] returns and leaves the log as it is. *)
Theorem update_then_getCommand (id0 : string)
    (updates : Commands.PartialCommand) (st : Commands.Storage) :
  (Commands.p_id updates = None ->
   forall c, Commands.getCommand id0 st = Some c ->
     exists st',
       Commands.updateCommand id0 updates st
       = (Some (Commands.merge c updates), st') /\
       Commands.getCommand id0 st' = Some (Commands.merge c updates) /\
       List.length (log_of st') = List.length (log_of st)) /\
  Commands.updateCommand id0 empty_updates st = (Commands.getCommand id0 st, st).
Proof.
  split.
  - intros Hid c Hget.
    destruct st as [| |l]; try discriminate Hget.
    unfold Commands.getCommand in Hget.
    unfold Commands.updateCommand, Commands.findIndex.
    destruct (list_find _ l) as [[i x]|] eqn:Ef; [|discriminate].
    injection Hget as ->.
    pose proof Ef as Ef'.
    apply list_find_Some in Ef' as (Hi & Hc & Hfirst).
    eexists. split; [reflexivity|]. split.
    + unfold Commands.getCommand.
      assert (E : list_find (λ cmd, Commands.id cmd = id0)
                    (<[i := Commands.merge c updates]> l)
                  = Some (i, Commands.merge c updates)).
      { apply list_find_Some. split; [|split].
        - apply list_lookup_insert_eq. eapply lookup_lt_Some; eauto.
        - simpl. rewrite Hid. exact Hc.
        - intros j y Hj Hlt. rewrite list_lookup_insert_ne in Hj by lia.
          eapply Hfirst; eauto. }
      rewrite E. reflexivity.
    + simpl. apply length_insert.
  - destruct st as [| |l]; try reflexivity.
    unfold Commands.updateCommand, Commands.getCommand, Commands.findIndex.
    destruct (list_find _ l) as [[i x]|] eqn:Ef; [|reflexivity].
    apply list_find_Some in Ef as (Hi & _).
    rewrite merge_empty, list_insert_id by exact Hi. reflexivity.
Qed.

Lemma update_then_getCommand_witness :
  exists st',
    Commands.updateCommand "c" mark_executed (Commands.Stored [cmd_a; cmd_c])
    = (Some (Commands.merge cmd_c mark_executed), st') /\
    Commands.getCommand "c" st' = Some (Commands.merge cmd_c mark_executed) /\
    List.length (log_of st') = 2%nat.
Proof.
  destruct (update_then_getCommand "c" mark_executed
              (Commands.Stored [cmd_a; cmd_c])) as (H & _).
  exact (H eq_refl cmd_c eq_refl).
Defined.

Lemma filter_all {A} (P : A -> Prop) `{forall x, Decision (P x)} (l : list A) :
  (forall x, x ∈ l -> P x) -> filter P l = l.
Proof.
  induction l as [|a l IH]; intros Hall; [reflexivity|].
  rewrite filter_cons_True by (apply Hall; left).
  f_equal. apply IH. intros x Hx. apply Hall. right. exact Hx.
Qed.

Lemma filter_insert_drop (P : Commands.Command -> Prop)
    `{forall x, Decision (P x)} (l : list Commands.Command) i c x :
  NoDup (Commands.id <$> l) -> l !! i = Some c -> ~ P x ->
  filter P (<[i := x]> l)
  = filter (λ c', Commands.id c' <> Commands.id c) (filter P l).
Proof.
  revert i. induction l as [|a l IH]; intros i Hnd Hi Hx; [discriminate|].
  rewrite fmap_cons in Hnd. apply NoDup_cons in Hnd as [Ha Hnd].
  destruct i as [|i]; simpl in Hi.
  - injection Hi as ->. simpl.
    rewrite filter_cons_False by exact Hx.
    assert (Hrest : filter (λ c', Commands.id c' <> Commands.id c) (filter P l)
                    = filter P l).
    { apply filter_all. intros y Hy E.
      apply list_elem_of_filter in Hy as [_ Hy].
      apply Ha. rewrite <- E. apply list_elem_of_fmap. eauto. }
    destruct (decide (P c)) as [Hp|Hp].
    + rewrite (filter_cons_True P) by exact Hp.
      rewrite filter_cons_False by (intros E; apply E; reflexivity).
      symmetry. exact Hrest.
    + rewrite (filter_cons_False P) by exact Hp. symmetry. exact Hrest.
  - simpl.
    assert (Hne : Commands.id a <> Commands.id c).
    { intros E. apply Ha. rewrite E. apply list_elem_of_fmap.
      exists c. split; [reflexivity|]. apply list_elem_of_lookup. eauto. }
    destruct (decide (P a)) as [Hp|Hp].
    + rewrite !(filter_cons_True P) by exact Hp.
      rewrite filter_cons_True by exact Hne.
      f_equal. apply IH; assumption.
    + rewrite !(filter_cons_False P) by exact Hp.
      apply IH; assumption.
Qed.

(** X6. With distinct ids in the log, setting the status of a command to
    executed, failed or cancelled takes that command, and no other, off
    the pending list of every organisation. *)
Theorem finished_command_leaves_pending (id0 : string)
    (final : Commands.CommandStatus) (l : list Commands.Command)
    (c : Commands.Command) :
  NoDup (Commands.id <$> l) ->
  final <> Commands.requested -> final <> Commands.pending ->
  c ∈ l -> Commands.id c = id0 ->
  forall o,
    Commands.getPendingCommands o
      (Commands.updateCommand id0 (status_update final) (Commands.Stored l)).2
    = filter (λ c', Commands.id c' <> id0)
        (Commands.getPendingCommands o (Commands.Stored l)).
Proof.
  intros Hnd Hf1 Hf2 Hin Hid o.
  unfold Commands.updateCommand, Commands.findIndex.
  destruct (list_find _ l) as [[i x]|] eqn:Ef.
  - apply list_find_Some in Ef as (Hi & Hx & _). simpl.
    unfold Commands.getPendingCommands. simpl.
    rewrite (list_filter_filter _ _ (<[i := _]> l)), (list_filter_filter _ _ l).
    rewrite <- Hx.
    apply filter_insert_drop; [exact Hnd | exact Hi |].
    simpl. intros [[E|E] _]; [apply Hf1 | apply Hf2]; exact E.
  - exfalso. apply list_find_None in Ef.
    rewrite Forall_forall in Ef. apply (Ef c Hin). exact Hid.
Qed.

Lemma finished_command_leaves_pending_witness :
  Commands.getPendingCommands "org-1"
    (Commands.updateCommand "a" (status_update Commands.executed)
       (Commands.Stored [cmd_a; cmd_c])).2
  = filter (λ c', Commands.id c' <> "a")
      (Commands.getPendingCommands "org-1" (Commands.Stored [cmd_a; cmd_c])).
Proof.
  apply (finished_command_leaves_pending "a" Commands.executed
           [cmd_a; cmd_c] cmd_a).
  - simpl. repeat constructor; rewrite ?elem_of_cons, ?elem_of_nil;
      intros H; repeat (destruct H as [H|H]; try discriminate H); exact H.
  - discriminate.
  - discriminate.
  - left.
  - reflexivity.
Defined.

(** ** Request workflow: closing, submitting, and the device page *)

Section WorkflowEffects.
Variable deviceId : Z.
Variable organizationId : string.
Variable userId : string.
Variable type : Commands.CommandType.
Variable toUpperCase : string -> string.

Let dispatch := Modal.dispatch deviceId organizationId userId type toUpperCase.
Let play := Modal.play deviceId organizationId userId type toUpperCase.

(** What one action does to the log: nothing, unless it creates a command,
    which is then the record appended and the modal is back to its initial
    state, closed. *)
Lemma dispatch_effect a s :
  match (dispatch a s).2 with
  | None => Modal.storage (dispatch a s).1 = Modal.storage s
  | Some c =>
      Modal.isOpen s = true /\
      Modal.storage s <> Commands.Unparsable /\
      (dispatch a s).1
      = Modal.initial (Commands.Stored (log_of (Modal.storage s) ++ [c])) /\
      Commands.deviceId c = deviceId /\
      Commands.organizationId c = organizationId /\
      Commands.type c = type /\
      Commands.status c = Commands.requested
  end.
Proof.
  subst dispatch. unfold Modal.dispatch.
  destruct (Modal.isOpen s) eqn:Hopen.
  2: { destruct a; reflexivity. }
  destruct a; simpl; try reflexivity;
    try (match goal with |- context [if ?b then _ else _] =>
           destruct b; reflexivity end).
  destruct (negb (Modal.step s <? 3) && Modal.canProceed type s
            && negb (Modal.isSubmitting s)) eqn:Hgo; [|reflexivity].
  apply andb_true_iff in Hgo as [Hgo _]. apply andb_true_iff in Hgo as [_ Hcan].
  unfold Modal.handleSubmit. rewrite Hcan. simpl.
  destruct (Commands.createCommand _ _ _ _) as [[c st']|e] eqn:Ec; simpl.
  - destruct (createCommand_Returned _ _ _ _ _ _ Ec) as (Hst & -> & ->).
    simpl. repeat (split; [auto; fail|]). reflexivity.
  - reflexivity.
Qed.

Lemma play_inv acts s0 :
  workflow_inv s0 -> workflow_inv (play acts s0).1.
Proof.
  revert s0. induction acts as [|a acts IH]; intros s0 Hinv; [exact Hinv|].
  subst play. simpl.
  pose proof (dispatch_inv deviceId organizationId userId type toUpperCase a s0 Hinv)
    as Hinv'.
  destruct (Modal.dispatch _ _ _ _ _ a s0) as [s1 out]. simpl in Hinv'.
  specialize (IH s1 Hinv').
  destruct (Modal.play _ _ _ _ _ acts s1) as [s2 outs]. exact IH.
Qed.
End WorkflowEffects.

(** X7. Closing the modal, by the cross or by Cancel, at any point the
    operator can reach, throws away the step, the ticks, the reason and the
    typed confirmation: the modal is in its initial state again, nothing is
    created and the log is untouched. *)
Theorem close_discards_input
    (deviceId : Z) (organizationId userId : string)
    (type : Commands.CommandType) (toUpperCase : string -> string)
    (st0 : Commands.Storage) (acts : list Modal.Action) :
  let s := (Modal.play deviceId organizationId userId type toUpperCase acts
              (Modal.initial st0)).1 in
  Modal.isOpen s = true ->
  Modal.dispatch deviceId organizationId userId type toUpperCase Modal.ClickX s
  = (Modal.initial (Modal.storage s), None) /\
  Modal.dispatch deviceId organizationId userId type toUpperCase Modal.ClickCancel s
  = (Modal.initial (Modal.storage s), None).
Proof.
  intros s Hopen.
  pose proof (play_inv deviceId organizationId userId type toUpperCase acts
                (Modal.initial st0) (initial_inv st0)) as (_ & _ & _ & Hsub).
  fold s in Hsub.
  assert (E : Modal.handleClose s = Modal.initial (Modal.storage s)).
  { clear Hopen. destruct s; simpl in *; subst; reflexivity. }
  unfold Modal.dispatch. rewrite Hopen, Hsub. simpl. rewrite E. auto.
Qed.

Lemma close_discards_input_witness :
  let s := (Modal.play 7 "org-1" "u-1" Commands.IMMOBILISE Str.ascii_toUpperCase
              (take 9 careful_operator) (Modal.initial Commands.Missing)).1 in
  Modal.step s = 3 /\ Modal.confirmation s = "IMMOBILIZE" /\
  Modal.dispatch 7 "org-1" "u-1" Commands.IMMOBILISE Str.ascii_toUpperCase
    Modal.ClickX s = (Modal.initial Commands.Missing, None).
Proof.
  split; [reflexivity|]. split; [reflexivity|].
  apply (close_discards_input 7 "org-1" "u-1" Commands.IMMOBILISE
           Str.ascii_toUpperCase Commands.Missing (take 9 careful_operator)).
  reflexivity.
Defined.

(** X8. Submitting from the last step with the right phrase typed: on a
    readable (or absent) log exactly one record is appended, of the modal's
    type and device, with status requested and the trimmed reason, and the
    modal is reset and closed; on an unreadable log nothing is created and
    the operator's input stays as it is. *)
Theorem submit_outcome
    (deviceId : Z) (organizationId userId : string)
    (type : Commands.CommandType) (toUpperCase : string -> string)
    (uuid now : string) (s : Modal.State) :
  Modal.isOpen s = true -> Modal.isSubmitting s = false ->
  Modal.step s = 3 ->
  Modal.confirmation s = Modal.requiredConfirmation type ->
  let result := Modal.dispatch deviceId organizationId userId type toUpperCase
                  (Modal.ClickSubmit uuid now) s in
  let c := {| Commands.id := uuid; Commands.type := type;
              Commands.status := Commands.requested;
              Commands.deviceId := deviceId;
              Commands.organizationId := organizationId;
              Commands.userId := userId;
              Commands.reason := Str.trim (Modal.reason s);
              Commands.timestamp := now;
              Commands.executedAt := None; Commands.notes := None |} in
  (Modal.storage s = Commands.Unparsable -> result = (s, None)) /\
  (Modal.storage s <> Commands.Unparsable ->
   result
   = (Modal.initial (Commands.Stored (log_of (Modal.storage s) ++ [c])), Some c)).
Proof.
  intros Hopen Hsub Hstep Hconf result c. subst result.
  unfold Modal.dispatch. rewrite Hopen, Hsub. simpl.
  unfold Modal.canProceed. rewrite Hstep, Hconf. simpl.
  rewrite String.eqb_refl. simpl.
  unfold Modal.handleSubmit, Modal.canProceed. rewrite Hstep, Hconf. simpl.
  rewrite String.eqb_refl. simpl.
  split.
  - intros Hst. rewrite Hst. simpl.
    destruct s; simpl in *. subst. reflexivity.
  - intros Hst. destruct (Modal.storage s) as [| |l]; [|contradiction|]; reflexivity.
Qed.

Lemma submit_outcome_witness :
  Modal.dispatch 7 "org-1" "u-1" Commands.IMMOBILISE Str.ascii_toUpperCase
    (Modal.ClickSubmit "z" "2024-02-01T00:00:00.000Z")
    (ready_to_submit Commands.Unparsable)
  = (ready_to_submit Commands.Unparsable, None) /\
  (Modal.dispatch 7 "org-1" "u-1" Commands.IMMOBILISE Str.ascii_toUpperCase
     (Modal.ClickSubmit "z" "2024-02-01T00:00:00.000Z")
     (ready_to_submit (Commands.Stored [cmd_c]))).2
  = Some {| Commands.id := "z"; Commands.type := Commands.IMMOBILISE;
            Commands.status := Commands.requested; Commands.deviceId := 7;
            Commands.organizationId := "org-1"; Commands.userId := "u-1";
            Commands.reason := "theft reported";
            Commands.timestamp := "2024-02-01T00:00:00.000Z";
            Commands.executedAt := None; Commands.notes := None |}.
Proof.
  split.
  - apply (submit_outcome 7 "org-1" "u-1" Commands.IMMOBILISE
             Str.ascii_toUpperCase "z" "2024-02-01T00:00:00.000Z"
             (ready_to_submit Commands.Unparsable)); reflexivity.
  - destruct (submit_outcome 7 "org-1" "u-1" Commands.IMMOBILISE
                Str.ascii_toUpperCase "z" "2024-02-01T00:00:00.000Z"
                (ready_to_submit (Commands.Stored [cmd_c]))
                eq_refl eq_refl eq_refl eq_refl) as (_ & H).
    rewrite H by discriminate. reflexivity.
Defined.

(** X9. Over any sequence of actions the log only grows, and only by the
    commands the modal reports as created, in that order; when the stored
    log is unreadable no command can be created at all. *)
Theorem workflow_only_appends
    (deviceId : Z) (organizationId userId : string)
    (type : Commands.CommandType) (toUpperCase : string -> string)
    (acts : list Modal.Action) (s0 : Modal.State) :
  let r := Modal.play deviceId organizationId userId type toUpperCase acts s0 in
  log_of (Modal.storage r.1) = log_of (Modal.storage s0) ++ (snd <$> r.2) /\
  (Modal.storage s0 = Commands.Unparsable ->
   r.2 = [] /\ Modal.storage r.1 = Commands.Unparsable).
Proof.
  revert s0. induction acts as [|a acts IH]; intros s0; simpl.
  - split; [symmetry; apply app_nil_r|auto].
  - pose proof (dispatch_effect deviceId organizationId userId type toUpperCase a s0)
      as He.
    destruct (Modal.dispatch _ _ _ _ _ a s0) as [s1 out]. simpl in He.
    specialize (IH s1).
    destruct (Modal.play _ _ _ _ _ acts s1) as [s2 outs]. simpl in *.
    destruct IH as (IH1 & IH2).
    destruct out as [c|].
    + destruct He as (_ & Hst & -> & _). simpl in *.
      split; [rewrite IH1, <- app_assoc; reflexivity|].
      intros E. contradiction.
    + rewrite He in *. split; [exact IH1|exact IH2].
Qed.

Lemma workflow_only_appends_witness :
  let r := Modal.play 7 "org-1" "u-1" Commands.IMMOBILISE Str.ascii_toUpperCase
             careful_operator (Modal.initial Commands.Unparsable) in
  r.2 = [] /\ Modal.storage r.1 = Commands.Unparsable.
Proof.
  apply (workflow_only_appends 7 "org-1" "u-1" Commands.IMMOBILISE
           Str.ascii_toUpperCase careful_operator
           (Modal.initial Commands.Unparsable)).
  reflexivity.
Defined.

Lemma getDeviceCommands_log d o st :
  Commands.getDeviceCommands d o st
  = Commands.getDeviceCommands d o (Commands.Stored (log_of st)).
Proof. destruct st; reflexivity. Qed.


Section DevicePage.
Variable deviceId : Z.
Variable organizationId : string.
Variable userId : string.
Variable type : Commands.CommandType.
Variable toUpperCase : string -> string.

Let page_dispatch :=
  Pages.page_dispatch deviceId organizationId userId type toUpperCase.
Let page_play := Pages.page_play deviceId organizationId userId type toUpperCase.


End DevicePage.



(** X11. The command history of the device page lists the first five commands
    of the device, oldest first: once five are stored, a newly created
    command does not show up in it. *)
Theorem history_shows_oldest_five (uuid now : string)
    (command : Commands.NewCommand) (st st' : Commands.Storage)
    (c : Commands.Command) (d : Z) (o : string) :
  Commands.createCommand uuid now command st = Returned (c, st') ->
  ((5 <= List.length (Commands.getDeviceCommands d o st))%nat ->
   Pages.history (Commands.getDeviceCommands d o st')
   = Pages.history (Commands.getDeviceCommands d o st)) /\
  ((List.length (Commands.getDeviceCommands d o st) < 5)%nat ->
   Commands.n_deviceId command = d -> Commands.n_organizationId command = o ->
   Pages.history (Commands.getDeviceCommands d o st')
   = Commands.getDeviceCommands d o st ++ [c]).
Proof.
  intros Hc.
  destruct (createCommand_Returned _ _ _ _ _ _ Hc) as (Hst & -> & Hrec).
  unfold Pages.history.
  rewrite getDeviceCommands_snoc, <- getDeviceCommands_log.
  split.
  - intros Hlen. apply take_app_le. exact Hlen.
  - intros Hlen Hd Ho.
    rewrite decide_True by (rewrite Hrec; simpl; auto).
    apply take_ge. rewrite length_app. simpl. lia.
Qed.

Lemma history_shows_oldest_five_witness :
  exists c st',
    Commands.createCommand "z" "2024-02-01T00:00:00.000Z" new_restore
      (Commands.Stored five_commands) = Returned (c, st') /\
    Pages.history (Commands.getDeviceCommands 7 "org-1" st') = five_commands /\
    exists c2 st2,
      Commands.createCommand "z" "2024-02-01T00:00:00.000Z" new_restore
        (Commands.Stored [cmd_a]) = Returned (c2, st2) /\
      Pages.history (Commands.getDeviceCommands 7 "org-1" st2) = [cmd_a; c2].
Proof.
  eexists _, _. split; [reflexivity|].
  destruct (history_shows_oldest_five "z" "2024-02-01T00:00:00.000Z" new_restore
              (Commands.Stored five_commands) _ _ 7 "org-1" eq_refl) as (H1 & _).
  split; [rewrite H1 by (vm_compute; lia); reflexivity|].
  eexists _, _. split; [reflexivity|].
  destruct (history_shows_oldest_five "z" "2024-02-01T00:00:00.000Z" new_restore
              (Commands.Stored [cmd_a]) _ _ 7 "org-1" eq_refl) as (_ & H2).
  rewrite H2; [reflexivity | vm_compute; lia | reflexivity | reflexivity].
Defined.

(** ** Realtime client: disconnecting, connecting, connection state *)

Lemma disconnect_again s : Ws.disconnect (Ws.disconnect s) = Ws.disconnect s.
Proof.
  destruct (disconnect_fields s) as (Hc & Ha & _ & _ & _ & Hw & Hh).
  set (x := Ws.disconnect s) in *.
  unfold Ws.disconnect. rewrite Hw.
  destruct x; simpl in *; subst; reflexivity.
Qed.

(** X12. [disconnect] is safe on an idle client and idempotent: a fresh client
    is unchanged by it, a second call changes nothing, and afterwards
    [isConnected()] is false. *)
Theorem disconnect_idempotent :
  Ws.disconnect Ws.init = Ws.init /\
  (forall s, Ws.disconnect (Ws.disconnect s) = Ws.disconnect s) /\
  (forall s, Ws.isConnected (Ws.disconnect s) = false).
Proof.
  split; [reflexivity|]. split; [exact disconnect_again|].
  intros s. unfold Ws.isConnected.
  destruct (disconnect_fields s) as (_ & _ & _ & _ & _ & Hw & _).
  rewrite Hw. reflexivity.
Qed.

(** X13. [disconnect] drops every subscription: afterwards no handler is
    registered for any kind, an inbound message calls nobody, and the
    unsubscribe functions handed out earlier do nothing. *)
Theorem disconnect_clears_subscriptions (s : Ws.State) :
  (forall type, registered type (Ws.disconnect s) = []) /\
  (forall (Data : Type) (m : Ws.WebSocketMessage Data),
     Ws.handleMessage m (Ws.disconnect s) = []) /\
  (forall type h, Ws.unsubscribe type h (Ws.disconnect s) = Ws.disconnect s).
Proof.
  destruct (disconnect_fields s) as (_ & _ & _ & _ & _ & _ & Hh).
  split; [|split].
  - intros type. unfold registered. rewrite Hh, lookup_empty. reflexivity.
  - intros Data m. unfold Ws.handleMessage, Ws.notifyHandlers.
    rewrite Hh, !lookup_empty.
    destruct (Ws.m_positions m), (Ws.m_devices m), (Ws.m_events m); reflexivity.
  - intros type h. unfold Ws.unsubscribe. rewrite Hh, lookup_empty. reflexivity.
Qed.

Lemma run_without_config constructible es s :
  Forall (λ e, forall cfg, e <> Ws.Connect cfg) es ->
  Ws.config s = None ->
  let s' := Ws.run constructible es s in
  Ws.config s' = None /\
  List.length (Ws.sockets s') = List.length (Ws.sockets s) /\
  Ws.scheduled s' = Ws.scheduled s.
Proof.
  intros Hes Hc.
  induction es as [|e es IH] using rev_ind.
  - simpl. auto.
  - apply Forall_app in Hes as [Hes He]. apply Forall_cons in He as [He _].
    rewrite run_app. simpl.
    destruct (IH Hes) as (I1 & I2 & I3).
    destruct (step_without_config constructible e _ He I1) as (J1 & J2 & J3).
    split; [exact J1|]. split; congruence.
Qed.

Lemma disconnect_isConnecting s :
  Ws.isConnecting (Ws.disconnect s) = Ws.isConnecting s.
Proof.
  unfold Ws.disconnect, Ws.close_socket.
  destruct (Ws.ws s) as [i|]; simpl; [|reflexivity].
  destruct (Ws.sockets s !! i) as [sk|]; simpl; [|reflexivity].
  destruct (Ws.readyState sk); reflexivity.
Qed.

(** X14. [connect] is dropped while an attempt is in flight, and [disconnect]
    does not end the attempt ([isConnecting] stays set).  So
    [disconnect(); connect(cfg)] issued while the client is connecting, as
    [saveConfig] does, ignores [cfg]: the client is left without
    configuration, and until [connect] is called again it constructs no
    socket, whatever events follow. *)
Theorem connect_dropped_while_connecting
    (constructible : string -> bool) (s : Ws.State)
    (cfg : Api.TraccarConfig) (es : list Ws.Event) :
  Ws.isConnecting s = true ->
  Forall (λ e, forall cfg', e <> Ws.Connect cfg') es ->
  Ws.connect constructible (Some cfg) s = s /\
  Ws.connect constructible (Some cfg) (Ws.disconnect s) = Ws.disconnect s /\
  let s' := Ws.run constructible (Ws.Disconnect :: Ws.Connect cfg :: es) s in
  Ws.config s' = None /\
  List.length (Ws.sockets s') = List.length (Ws.sockets s).
Proof.
  intros Hi Hes.
  assert (E1 : forall x, Ws.isConnecting x = true ->
                 Ws.connect constructible (Some cfg) x = x).
  { intros x Hx. unfold Ws.connect. rewrite Hx. reflexivity. }
  assert (E2 : Ws.connect constructible (Some cfg) (Ws.disconnect s)
               = Ws.disconnect s).
  { apply E1. rewrite disconnect_isConnecting. exact Hi. }
  split; [apply E1, Hi|]. split; [exact E2|].
  change (Ws.run constructible (Ws.Disconnect :: Ws.Connect cfg :: es) s)
    with (Ws.run constructible es
            (Ws.connect constructible (Some cfg) (Ws.disconnect s))).
  rewrite E2.
  destruct (disconnect_fields s) as (Hc & _ & _ & _ & Hl & _).
  destruct (run_without_config constructible es _ Hes Hc) as (H1 & H2 & _).
  split; [exact H1|]. congruence.
Qed.

Lemma connect_dropped_while_connecting_witness :
  let s' := Ws.run accepts_all
              [Ws.Disconnect; Ws.Connect basic_config; Ws.SockClose 0;
               Ws.TimerFire 0]
              connecting_client in
  Ws.config s' = None /\ List.length (Ws.sockets s') = 1%nat.
Proof.
  destruct (connect_dropped_while_connecting accepts_all connecting_client
              basic_config [Ws.SockClose 0; Ws.TimerFire 0] eq_refl)
    as (_ & _ & H).
  - repeat (apply Forall_cons; split; [intros c; discriminate|]).
    apply Forall_nil. exact I.
  - exact H.
Defined.

(** X15. [isConnected()] follows the current socket: [connect] never changes
    it (the socket it creates is still opening), the open event of the
    current socket makes it true, its close event makes it false. *)
Theorem isConnected_follows_socket
    (constructible : string -> bool) (s : Ws.State) :
  (forall c, Ws.isConnected (Ws.connect constructible c s) = Ws.isConnected s) /\
  (forall i, Ws.ws s = Some i ->
     Ws.readyState_of i s = Some Ws.CONNECTING ->
     Ws.isConnected s = false /\
     Ws.isConnected (Ws.step constructible (Ws.SockOpen i) s) = true) /\
  (forall i, Ws.ws s = Some i ->
     Ws.isConnected (Ws.step constructible (Ws.SockClose i) s) = false).
Proof.
  split; [|split].
  - intros c.
    destruct (connect_cases constructible c s)
      as [E | [(cfg & u & _ & _ & _ & E) | E]]; simpl in *.
    + rewrite E. reflexivity.
    + assert (Hno : Ws.isConnected s = false).
      { unfold Ws.connect in E.
        destruct (Ws.isConnecting s || Ws.ws_open s) eqn:G.
        - (* the guard held, so the state cannot have changed *)
          apply (f_equal (λ x, List.length (Ws.sockets x))) in E.
          simpl in E. rewrite length_app in E. simpl in E. lia.
        - apply orb_false_iff in G as [_ G]. exact G. }
      rewrite E, Hno. unfold Ws.isConnected. simpl.
      rewrite lookup_app_r by lia. rewrite Nat.sub_diag. reflexivity.
    + rewrite E.
      match goal with |- context [Ws.attemptReconnect ?x] => set (s1 := x) end.
      destruct (attemptReconnect_fields s1) as (_ & E2 & E3 & _).
      unfold Ws.isConnected. rewrite E2, E3. reflexivity.
  - intros i Hw Hr.
    destruct (readyState_of_Some _ _ _ Hr) as (sk & Hsk & Hst).
    split.
    + unfold Ws.isConnected. rewrite Hw, Hsk, Hst. reflexivity.
    + simpl. rewrite Hr. unfold Ws.set_readyState. rewrite Hsk.
      unfold Ws.isConnected. simpl. rewrite Hw.
      rewrite list_lookup_insert_eq by (eapply lookup_lt_Some; eauto).
      reflexivity.
  - intros i Hw. simpl.
    destruct (Ws.readyState_of i s) as [r|] eqn:Hr.
    + destruct (readyState_of_Some _ _ _ Hr) as (sk & Hsk & Hst).
      assert (G : Ws.isConnected (Ws.onclose (Ws.set_readyState i Ws.CLOSED s))
                  = false).
      { unfold Ws.onclose.
        match goal with |- context [Ws.attemptReconnect ?x] => set (s1 := x) end.
        destruct (attemptReconnect_fields s1) as (_ & E2 & E3 & _).
        unfold Ws.isConnected. rewrite E2, E3. subst s1.
        unfold Ws.set_readyState. rewrite Hsk. simpl. rewrite Hw.
        rewrite list_lookup_insert_eq by (eapply lookup_lt_Some; eauto).
        reflexivity. }
      destruct r; try exact G.
      unfold Ws.isConnected. rewrite Hw, Hsk, Hst. reflexivity.
    + unfold Ws.readyState_of in Hr. unfold Ws.isConnected. rewrite Hw.
      destruct (Ws.sockets s !! i); [discriminate|reflexivity].
Qed.

Lemma isConnected_follows_socket_witness :
  Ws.isConnected connecting_client = false /\
  Ws.isConnected (Ws.step accepts_all (Ws.SockOpen 0) connecting_client) = true /\
  Ws.isConnected (Ws.step accepts_all (Ws.SockClose 0) connecting_client) = false.
Proof.
  destruct (isConnected_follows_socket accepts_all connecting_client)
    as (_ & H2 & H3).
  destruct (H2 0%nat eq_refl eq_refl) as (A & B).
  split; [exact A|]. split; [exact B|exact (H3 0%nat eq_refl)].
Defined.

(** ** Realtime client: invariants of every run *)

Lemma backoff_delay_listed a :
  0 <= a < Ws.maxReconnectAttempts ->
  Ws.reconnectDelay * 2 ^ a ∈ backoff_delays.
Proof.
  unfold Ws.maxReconnectAttempts. intros Ha.
  assert (a = 0 \/ a = 1 \/ a = 2 \/ a = 3 \/ a = 4) as H by lia.
  apply list_elem_of_In.
  destruct H as [->|[->|[->|[->| ->]]]]; vm_compute; tauto.
Qed.

(** How one step moves the retry counter and what it schedules. *)
Lemma step_backoff_fields constructible e s :
  let s' := Ws.step constructible e s in
  (Ws.scheduled s' = Ws.scheduled s /\
   (Ws.reconnectAttempts s' = Ws.reconnectAttempts s \/
    Ws.reconnectAttempts s' = 0)) \/
  (Ws.reconnectAttempts s < Ws.maxReconnectAttempts /\
   Ws.reconnectAttempts s' = Ws.reconnectAttempts s + 1 /\
   Ws.scheduled s' =
     Ws.scheduled s ++ [Ws.reconnectDelay * 2 ^ Ws.reconnectAttempts s]).
Proof.
  destruct e; simpl.
  - destruct (connect_fields constructible (Some cfg) s)
      as [(E1 & E2 & _) | (Hlt & E1 & E2 & _)]; [left|right]; auto.
  - destruct (disconnect_fields s) as (_ & H2 & _ & H4 & _). left. auto.
  - left. auto.
  - left. unfold Ws.unsubscribe. destruct (Ws.handlers s !! type); auto.
  - destruct (set_readyState_fields i Ws.OPEN s) as (_ & _ & H3 & _).
    left. destruct (Ws.readyState_of i s) as [[]|]; simpl; auto.
  - left. destruct (Ws.readyState_of i s) as [[]|]; auto.
  - destruct (set_readyState_fields i Ws.CLOSED s) as (_ & H2 & H3 & _).
    destruct (onclose_fields (Ws.set_readyState i Ws.CLOSED s))
      as [(G1 & G2 & _) | (Hlt & G1 & G2 & _)];
      simpl in *;
      destruct (Ws.readyState_of i s) as [[]|]; auto;
      first [ left; split; [congruence | left; congruence]
            | right; rewrite G1, G2, H2, H3; split; [lia|auto] ].
  - left. destruct (Ws.readyState_of i s) as [[]|]; auto. destruct parses; auto.
  - unfold Ws.fire_timer. destruct (Ws.timers s !! j); [|left; auto].
    unfold Ws.timer_callback.
    match goal with |- context [Ws.connect _ ?c ?x] =>
      destruct (connect_fields constructible c x)
        as [(E1 & E2 & _) | (Hlt & E1 & E2 & _)]
    end; simpl in *; [left|right]; auto.
Qed.

Lemma step_backoff_inv constructible e s :
  backoff_inv s -> backoff_inv (Ws.step constructible e s).
Proof.
  intros ((Hlo & Hhi) & Hsched). unfold backoff_inv.
  destruct (step_backoff_fields constructible e s)
    as [(E1 & [E2|E2]) | (Hlt & E1 & E2)]; simpl in *.
  - rewrite E1, E2. auto.
  - rewrite E1, E2. unfold Ws.maxReconnectAttempts. split; [lia|exact Hsched].
  - rewrite E1, E2. split; [lia|].
    apply Forall_app. split; [exact Hsched|].
    apply Forall_cons. split; [|apply Forall_nil; exact I].
    apply backoff_delay_listed. lia.
Qed.

(** X16. Whatever calls and events a fresh client goes through, its retry
    counter stays between 0 and 5, and every delay it has ever passed to
    [setTimeout] is one of 3000, 6000, 12000, 24000, 48000 ms. *)
Theorem backoff_always_bounded
    (constructible : string -> bool) (es : list Ws.Event) :
  let s := Ws.run constructible es Ws.init in
  0 <= Ws.reconnectAttempts s <= 5 /\
  Forall (λ d, d ∈ [3000; 6000; 12000; 24000; 48000]) (Ws.scheduled s).
Proof.
  assert (H : backoff_inv (Ws.run constructible es Ws.init)).
  { induction es as [|e es IH] using rev_ind.
    - unfold backoff_inv. simpl. unfold Ws.maxReconnectAttempts.
      split; [lia|apply Forall_nil; exact I].
    - rewrite run_app. simpl. apply step_backoff_inv, IH. }
  exact H.
Qed.

(** X17. A connection that opened resets the backoff: when a socket opens and
    later closes, the reconnect is scheduled after 3000 ms again and
    counts as attempt 1, however many attempts came before. *)
Theorem open_resets_backoff
    (constructible : string -> bool) (s : Ws.State) (i : nat)
    (cfg : Api.TraccarConfig) :
  Ws.config s = Some cfg ->
  Ws.readyState_of i s = Some Ws.CONNECTING ->
  let s' := Ws.run constructible [Ws.SockOpen i; Ws.SockClose i] s in
  Ws.reconnectAttempts s' = 1 /\
  Ws.scheduled s' = Ws.scheduled s ++ [3000] /\
  Ws.timers s' = Ws.timers s ++ [3000].
Proof.
  intros Hc Hr.
  destruct (readyState_of_Some _ _ _ Hr) as (sk & Hsk & Hst).
  unfold Ws.run. simpl. rewrite Hr.
  set (s1 := Ws.onopen (Ws.set_readyState i Ws.OPEN s)).
  destruct (set_readyState_fields i Ws.OPEN s) as (G1 & _ & G3 & G4 & _).
  assert (Hc1 : Ws.config s1 = Some cfg) by (simpl; congruence).
  assert (Ha1 : Ws.reconnectAttempts s1 = 0) by reflexivity.
  assert (Hs1 : Ws.scheduled s1 = Ws.scheduled s) by exact G3.
  assert (Ht1 : Ws.timers s1 = Ws.timers s) by exact G4.
  assert (Hr1 : Ws.readyState_of i s1 = Some Ws.OPEN).
  { unfold s1, Ws.readyState_of, Ws.set_readyState. rewrite Hsk. simpl.
    rewrite list_lookup_insert_eq by (eapply lookup_lt_Some; eauto).
    reflexivity. }
  rewrite Hr1.
  destruct (set_readyState_fields i Ws.CLOSED s1) as (K1 & K2 & K3 & K4 & _).
  unfold Ws.onclose.
  rewrite attemptReconnect_schedules with (cfg := cfg);
    [| simpl; congruence
     | simpl; rewrite K2, Ha1; unfold Ws.maxReconnectAttempts; lia ].
  simpl. rewrite K2, K3, K4, Ha1, Hs1, Ht1. auto.
Qed.

Lemma open_resets_backoff_witness :
  let s := Ws.run accepts_all (Ws.Connect token_config :: failures 3) Ws.init in
  let s' := Ws.run accepts_all [Ws.SockOpen 3; Ws.SockClose 3] s in
  Ws.reconnectAttempts s = 3 /\
  Ws.reconnectAttempts s' = 1 /\
  Ws.scheduled s' = [3000; 6000; 12000; 3000].
Proof.
  split; [reflexivity|].
  destruct (open_resets_backoff accepts_all
              (Ws.run accepts_all (Ws.Connect token_config :: failures 3) Ws.init)
              3 token_config eq_refl eq_refl) as (H1 & H2 & _).
  split; [exact H1|exact H2].
Defined.

Lemma connect_handlers constructible c s :
  Ws.handlers (Ws.connect constructible c s) = Ws.handlers s.
Proof.
  destruct (connect_cases constructible c s)
    as [E | [(cfg & u & _ & _ & _ & E) | E]]; simpl in *; rewrite E;
    try reflexivity.
  match goal with |- context [Ws.attemptReconnect ?x] => set (s1 := x) end.
  destruct (attemptReconnect_fields s1) as (_ & _ & _ & _ & E5 & _).
  rewrite E5. reflexivity.
Qed.

Lemma step_handlers_wf constructible e s :
  handlers_wf s -> handlers_wf (Ws.step constructible e s).
Proof.
  intros Hwf.
  assert (Hsame : forall s', Ws.handlers s' = Ws.handlers s -> handlers_wf s').
  { intros s' E type l. rewrite E. apply Hwf. }
  destruct e; simpl.
  - apply Hsame, connect_handlers.
  - intros type l. destruct (disconnect_fields s) as (_ & _ & _ & _ & _ & _ & Hh).
    rewrite Hh, lookup_empty. discriminate.
  - apply subscribe_wf, Hwf.
  - unfold Ws.unsubscribe.
    destruct (Ws.handlers s !! type) as [l0|] eqn:E; [|exact Hwf].
    intros type' l. simpl. rewrite lookup_insert.
    destruct (decide (type = type')) as [<-|Hne].
    + intros [= <-]. apply NoDup_filter. exact (Hwf _ _ E).
    + apply Hwf.
  - destruct (set_readyState_fields i Ws.OPEN s) as (_ & _ & _ & _ & H5 & _).
    destruct (Ws.readyState_of i s) as [[]|]; try exact Hwf.
    apply Hsame. simpl. exact H5.
  - destruct (Ws.readyState_of i s) as [[]|]; try exact Hwf; apply Hsame; reflexivity.
  - destruct (set_readyState_fields i Ws.CLOSED s) as (_ & _ & _ & _ & H5 & _).
    assert (G : Ws.handlers (Ws.onclose (Ws.set_readyState i Ws.CLOSED s))
                = Ws.handlers s).
    { unfold Ws.onclose.
      match goal with |- context [Ws.attemptReconnect ?x] => set (s1 := x) end.
      destruct (attemptReconnect_fields s1) as (_ & _ & _ & _ & E5 & _).
      rewrite E5. simpl. exact H5. }
    destruct (Ws.readyState_of i s) as [[]|]; try exact Hwf; apply Hsame, G.
  - destruct (Ws.readyState_of i s) as [[]|]; try exact Hwf.
    destruct parses; [exact Hwf|apply Hsame; reflexivity].
  - unfold Ws.fire_timer. destruct (Ws.timers s !! j); [|exact Hwf].
    apply Hsame. unfold Ws.timer_callback. rewrite connect_handlers. reflexivity.
Qed.

(** X18. In every state a fresh client can reach, no handler is registered
    twice for a kind, so an inbound message calls each handler at most
    once per kind. *)
Theorem delivery_at_most_once
    (constructible : string -> bool) (es : list Ws.Event) :
  let s := Ws.run constructible es Ws.init in
  (forall type, NoDup (registered type s)) /\
  (forall (Data : Type) (m : Ws.WebSocketMessage Data) h type,
     (calls_of h type (Ws.handleMessage m s) <= 1)%nat).
Proof.
  assert (Hwf : handlers_wf (Ws.run constructible es Ws.init)).
  { induction es as [|e es IH] using rev_ind.
    - apply init_handlers_wf.
    - rewrite run_app. simpl. apply step_handlers_wf, IH. }
  split.
  - intros type. apply registered_NoDup, Hwf.
  - intros Data m h type. rewrite calls_of_handleMessage.
    destruct (payload_of type m); [|lia].
    destruct (decide (h ∈ registered type (Ws.run constructible es Ws.init)))
      as [Hin|Hin].
    + rewrite count_in_set; [lia | apply registered_NoDup, Hwf | exact Hin].
    + rewrite count_not_in_set by exact Hin. lia.
Qed.

Lemma calls_for_notifyHandlers {Data : Type} type type' (d : Data) s :
  calls_for type (Ws.notifyHandlers type' d s)
  = if decide (type' = type)
    then (λ h, (h, type, d)) <$> registered type s
    else [].
Proof.
  unfold calls_for, Ws.notifyHandlers, registered.
  destruct (decide (type' = type)) as [->|Hne].
  - destruct (Ws.handlers s !! type) as [l|]; simpl; [|reflexivity].
    apply filter_all. intros x Hx.
    apply list_elem_of_fmap in Hx as (h & -> & _). reflexivity.
  - destruct (Ws.handlers s !! type') as [l|]; simpl; [|reflexivity].
    induction l as [|x l IH]; [reflexivity|].
    rewrite fmap_cons, filter_cons_False by (simpl; exact Hne). exact IH.
Qed.

Lemma calls_for_handleMessage {Data : Type}
    (m : Ws.WebSocketMessage Data) (s : Ws.State)
    (type : Ws.WebSocketMessageType) :
  calls_for type (Ws.handleMessage m s)
  = match payload_of type m with
    | Some d => (λ h, (h, type, d)) <$> registered type s
    | None => []
    end.
Proof.
  unfold Ws.handleMessage, calls_for. rewrite !filter_app.
  fold (calls_for type (match Ws.m_positions m with
                        | Some d => Ws.notifyHandlers Ws.positions d s
                        | None => [] end)).
  fold (calls_for type (match Ws.m_devices m with
                        | Some d => Ws.notifyHandlers Ws.devices d s
                        | None => [] end)).
  fold (calls_for type (match Ws.m_events m with
                        | Some d => Ws.notifyHandlers Ws.events d s
                        | None => [] end)).
  destruct m as [p d e]; simpl.
  destruct p, d, e, type; simpl; rewrite ?calls_for_notifyHandlers; simpl;
    rewrite ?app_nil_r; reflexivity.
Qed.

Lemma notifyHandlers_registered {Data : Type} type (d : Data) s :
  Ws.notifyHandlers type d s = (λ h, (h, type, d)) <$> registered type s.
Proof.
  unfold Ws.notifyHandlers, registered.
  destruct (Ws.handlers s !! type); reflexivity.
Qed.

(** Handlers subscribed one after the other to a fresh client are
    registered in that order. *)
Lemma registered_in_subscription_order type (hs : list nat) :
  NoDup hs ->
  registered type (foldl (λ s h, Ws.subscribe type h s) Ws.init hs) = hs.
Proof.
  induction hs as [|h hs IH] using rev_ind; intros Hnd.
  - reflexivity.
  - apply NoDup_app in Hnd as (Hnd & Hfresh & _).
    rewrite foldl_app. simpl. rewrite registered_subscribe.
    rewrite decide_True by reflexivity. rewrite IH by exact Hnd.
    unfold Ws.set_add. rewrite bool_decide_eq_false_2; [reflexivity|].
    intros Hin. apply (Hfresh h Hin). left.
Qed.

(** X19. An inbound message is delivered kind by kind (positions, then
    devices, then events).  Each kind present is delivered to the handlers
    registered for that kind, once each and with that kind's payload, in
    subscription order: subscribing a handler that is not yet registered
    for the kind adds one call behind the calls made before (and adds none
    when it is registered already), a subscription to another kind changes
    nothing, unsubscribing removes the handler's call and keeps the others
    in their order, and handlers subscribed one after the other to a fresh
    client are called in that order.  A kind that is absent calls
    nobody. *)
Theorem handleMessage_by_kind {Data : Type}
    (m : Ws.WebSocketMessage Data) (s : Ws.State)
    (type : Ws.WebSocketMessageType) :
  let deliver type s :=
    match payload_of type m with
    | Some d => (λ h, (h, type, d)) <$> registered type s
    | None => []
    end in
  Ws.handleMessage m s
  = deliver Ws.positions s ++ deliver Ws.devices s ++ deliver Ws.events s /\
  calls_for type (Ws.handleMessage m s) = deliver type s /\
  (forall h,
     calls_for type (Ws.handleMessage m (Ws.subscribe type h s))
     = calls_for type (Ws.handleMessage m s) ++
       match payload_of type m with
       | Some d => if decide (h ∈ registered type s) then [] else [(h, type, d)]
       | None => []
       end) /\
  (forall h type',
     type' <> type ->
     calls_for type (Ws.handleMessage m (Ws.subscribe type' h s))
     = calls_for type (Ws.handleMessage m s)) /\
  (forall h,
     calls_for type (Ws.handleMessage m (Ws.unsubscribe type h s))
     = filter (λ c, c.1.1 <> h) (calls_for type (Ws.handleMessage m s))) /\
  (forall hs,
     NoDup hs ->
     calls_for type
       (Ws.handleMessage m (foldl (λ s h, Ws.subscribe type h s) Ws.init hs))
     = match payload_of type m with
       | Some d => (λ h, (h, type, d)) <$> hs
       | None => []
       end).
Proof.
  intros deliver. subst deliver. cbv beta.
  split; [|split; [|split; [|split; [|split]]]].
  - unfold Ws.handleMessage, payload_of.
    destruct (Ws.m_positions m), (Ws.m_devices m), (Ws.m_events m);
      rewrite ?notifyHandlers_registered; reflexivity.
  - apply calls_for_handleMessage.
  - intros h. rewrite !calls_for_handleMessage.
    destruct (payload_of type m) as [d|]; [|reflexivity].
    rewrite registered_subscribe, decide_True by reflexivity.
    unfold Ws.set_add.
    destruct (decide (h ∈ registered type s)) as [Hin|Hin].
    + rewrite bool_decide_eq_true_2 by exact Hin. rewrite app_nil_r. reflexivity.
    + rewrite bool_decide_eq_false_2 by exact Hin. rewrite fmap_app. reflexivity.
  - intros h type' Hne. rewrite !calls_for_handleMessage.
    rewrite registered_subscribe, decide_False by exact Hne. reflexivity.
  - intros h. rewrite !calls_for_handleMessage.
    destruct (payload_of type m) as [d|]; [|reflexivity].
    rewrite registered_unsubscribe, decide_True by reflexivity.
    unfold Ws.set_delete.
    induction (registered type s) as [|x l IH]; [reflexivity|].
    rewrite fmap_cons. destruct (decide (x = h)) as [->|Hx].
    + rewrite filter_cons_False by (intros H; apply H; reflexivity).
      rewrite (filter_cons_False _ (h, type, d)) by (simpl; intros H; apply H; reflexivity).
      exact IH.
    + rewrite filter_cons_True by exact Hx.
      rewrite (filter_cons_True _ (x, type, d)) by (simpl; exact Hx).
      rewrite fmap_cons. f_equal. exact IH.
  - intros hs Hnd. rewrite calls_for_handleMessage.
    rewrite registered_in_subscription_order by exact Hnd. reflexivity.
Qed.

Lemma handleMessage_by_kind_witness :
  calls_for Ws.positions
    (Ws.handleMessage (positions_only 7)
       (foldl (λ s h, Ws.subscribe Ws.positions h s) Ws.init [5; 2; 9]%nat))
  = [(5%nat, Ws.positions, 7); (2%nat, Ws.positions, 7);
     (9%nat, Ws.positions, 7)].
Proof.
  refine (proj2 (proj2 (proj2 (proj2 (proj2
    (handleMessage_by_kind (positions_only 7) Ws.init Ws.positions)))))
    [5; 2; 9]%nat _).
  apply (bool_decide_unpack (NoDup [5; 2; 9]%nat)). vm_compute. exact I.
Defined.

(** ** REST client: the request, the probe and saving a configuration *)

(** X20. [apiRequest] decides from a single request: the one to the server URL
    without its trailing slash followed by the endpoint, carrying the
    caller's method and body and the configured headers, where a header
    given by the caller wins over the configured one.  Two networks that
    answer this request alike give the same result. *)
Theorem apiRequest_single_request {Json : Type}
    (fetch1 fetch2 : string -> Api.RequestInit -> Api.FetchResult Json)
    (config : Api.TraccarConfig) (endpoint : string)
    (options : Api.RequestInit) :
  let url := Str.strip_trailing_slash (Api.serverUrl config) +:+ endpoint in
  let init := request_init config options in
  (fetch1 url init = fetch2 url init ->
   Api.apiRequest fetch1 (Some config) endpoint options
   = Api.apiRequest fetch2 (Some config) endpoint options) /\
  Api.method init = Api.method options /\
  Api.body init = Api.body options /\
  (forall k, Api.headers init !! k
             = match Api.headers options !! k with
               | Some v => Some v
               | None => Api.getAuthHeaders config !! k
               end).
Proof.
  intros url init. split; [|split; [reflexivity|split; [reflexivity|]]].
  - intros E. unfold Api.apiRequest.
    destruct (Api.isValid config); simpl; [|reflexivity].
    fold url. change {| Api.method := Api.method options;
                        Api.body := Api.body options;
                        Api.headers := Api.headers options ∪ Api.getAuthHeaders config |}
      with init.
    rewrite E. reflexivity.
  - intros k. subst init. unfold request_init. simpl.
    rewrite lookup_union.
    destruct (Api.headers options !! k), (Api.getAuthHeaders config !! k);
      reflexivity.
Qed.

Lemma apiRequest_single_request_witness :
  Api.apiRequest (λ u i,
      if String.eqb u "http://track.example.com/api/devices"
      then Api.Responded ok_body else Api.Rejected)
    (Some basic_config) "/api/devices" delete_options
  = Api.apiRequest healthy (Some basic_config) "/api/devices" delete_options.
Proof.
  apply (apiRequest_single_request
           (λ u i, if String.eqb u "http://track.example.com/api/devices"
                   then Api.Responded ok_body else Api.Rejected)
           healthy basic_config "/api/devices" delete_options).
  reflexivity.
Defined.



(** X22. After a successful probe [saveConfig] restarts the realtime client:
    unless a connection attempt is in flight, the client holds the saved
    configuration and has one new socket opening on the endpoint derived
    from it, next to the sockets left by [disconnect]; [isConnected()] is
    false, the retry counter is zero and every subscription made before is
    gone. *)
Theorem saveConfig_restarts_client {Json : Type}
    (fetch : string -> Api.RequestInit -> Api.FetchResult Json)
    (constructible : string -> bool) (now : string)
    (newConfig : Api.TraccarConfig) (client : Ws.State) :
  let r := Settings.saveConfig fetch constructible now newConfig client in
  r.2 = true ->
  Ws.isConnecting client = false ->
  constructible (Ws.wsUrl (Api.serverUrl newConfig)) = true ->
  Ws.config r.1.2 = r.1.1 /\
  Ws.sockets r.1.2
  = Ws.sockets (Ws.disconnect client)
    ++ [ {| Ws.url := Ws.wsUrl (Api.serverUrl newConfig);
            Ws.readyState := Ws.CONNECTING |} ] /\
  Ws.ws r.1.2 = Some (List.length (Ws.sockets client)) /\
  Ws.isConnecting r.1.2 = true /\
  Ws.isConnected r.1.2 = false /\
  Ws.reconnectAttempts r.1.2 = 0 /\
  (forall type, registered type r.1.2 = []).
Proof.
  intros r Hok Hnc Hurl. subst r. unfold Settings.saveConfig in *.
  destruct (disconnect_fields client) as (Hc & Ha & _ & _ & Hl & Hw & Hh).
  pose proof (disconnect_isConnecting client) as Hi. rewrite Hnc in Hi.
  remember (Ws.disconnect client) as x eqn:Hx. clear Hx.
  remember (Api.testTraccarConnection fetch newConfig) as p eqn:Hp. clear Hp.
  simpl in Hok. subst p. simpl.
  unfold Ws.connect, Ws.ws_open. rewrite Hi, Hw. simpl. rewrite Hurl.
  unfold Ws.isConnected, registered.
  destruct x as [ws0 config0 att hs isC socks tms sched cons].
  simpl in *. subst.
  split; [reflexivity|]. split; [reflexivity|].
  split; [rewrite Hl; reflexivity|].
  split; [reflexivity|]. split.
  { rewrite lookup_app_r by lia. rewrite Nat.sub_diag. reflexivity. }
  split; [reflexivity|].
  intros type. rewrite lookup_empty. reflexivity.
Qed.

Lemma saveConfig_restarts_client_witness :
  let r := Settings.saveConfig healthy accepts_all "2024-02-01T00:00:00.000Z"
             basic_config
             (Ws.subscribe Ws.positions 1
                (Ws.step accepts_all (Ws.SockOpen 0) connecting_client)) in
  Ws.sockets r.1.2
  = [ {| Ws.url := "wss://x.test/api/socket"; Ws.readyState := Ws.CLOSING |};
      {| Ws.url := "ws://track.example.com/api/socket";
         Ws.readyState := Ws.CONNECTING |} ] /\
  registered Ws.positions r.1.2 = [].
Proof.
  destruct (saveConfig_restarts_client healthy accepts_all
              "2024-02-01T00:00:00.000Z" basic_config
              (Ws.subscribe Ws.positions 1
                 (Ws.step accepts_all (Ws.SockOpen 0) connecting_client))
              eq_refl eq_refl eq_refl) as (_ & H2 & _ & _ & _ & _ & H7).
  split; [exact H2|exact (H7 Ws.positions)].
Defined.

Lemma filter_none {A} (P : A -> Prop) `{forall x, Decision (P x)} (l : list A) :
  (forall x, x ∈ l -> ~ P x) -> filter P l = [].
Proof.
  induction l as [|a l IH]; intros Hall; [reflexivity|].
  rewrite filter_cons_False by (apply Hall; left).
  apply IH. intros x Hx. apply Hall. right. exact Hx.
Qed.

(** X23. Every device the server lists is tagged with the current organisation
    before the pages filter on it, so the organisation filter is all or
    nothing: with the organisation the client tagged with, it keeps every
    device, whichever tenant owns it on the server; with any other, it
    keeps none.  Tagging keeps the number and order of the devices, and
    the online and offline counts never exceed the total. *)
Theorem organisation_filter_all_or_nothing
    (tagged_with page_org : option Api.Organization)
    (devices : list Api.Device) :
  let listed := Api.addOrganizationScope tagged_with devices in
  (Api.orgId_or_empty page_org = Api.orgId_or_empty tagged_with ->
   Pages.orgDevices page_org listed = listed) /\
  (Api.orgId_or_empty page_org <> Api.orgId_or_empty tagged_with ->
   Pages.orgDevices page_org listed = []) /\
  Api.d_id <$> listed = Api.d_id <$> devices /\
  (Pages.onlineDevices (Pages.orgDevices page_org listed)
   + Pages.offlineDevices (Pages.orgDevices page_org listed)
   <= List.length (Pages.orgDevices page_org listed)
   <= List.length devices)%nat.
Proof.
  intros listed.
  assert (Htag : forall d, d ∈ listed ->
            Api.d_organizationId d = Some (Api.orgId_or_empty tagged_with)).
  { intros d Hd. apply list_elem_of_fmap in Hd as (x & -> & _). reflexivity. }
  split; [|split; [|split]].
  - intros E. apply filter_all. intros d Hd. rewrite E. apply Htag, Hd.
  - intros E. apply filter_none. intros d Hd H. rewrite (Htag d Hd) in H.
    injection H as H. apply E. symmetry. exact H.
  - subst listed. unfold Api.addOrganizationScope.
    rewrite <- list_fmap_compose. reflexivity.
  - replace (List.length devices) with (List.length listed)
      by (subst listed; apply length_fmap).
    split; [|apply length_filter].
    unfold Pages.onlineDevices, Pages.offlineDevices.
    generalize (Pages.orgDevices page_org listed). clear. intros l.
    induction l as [|d l IH]; [reflexivity|].
    destruct (Api.d_status d) eqn:E.
    + rewrite filter_cons_True by exact E.
      rewrite filter_cons_False by (rewrite E; discriminate). simpl. lia.
    + rewrite filter_cons_False by (rewrite E; discriminate).
      rewrite filter_cons_True by exact E. simpl. lia.
    + rewrite !filter_cons_False by (rewrite E; discriminate). simpl. lia.
Qed.

Lemma organisation_filter_all_or_nothing_witness :
  Pages.orgDevices (Some org_1)
    (Api.addOrganizationScope (Some org_1) [device_1; device_2])
  = Api.addOrganizationScope (Some org_1) [device_1; device_2] /\
  Pages.orgDevices None
    (Api.addOrganizationScope (Some org_1) [device_1; device_2]) = [].
Proof.
  destruct (organisation_filter_all_or_nothing (Some org_1) (Some org_1)
              [device_1; device_2]) as (H1 & _).
  destruct (organisation_filter_all_or_nothing (Some org_1) None
              [device_1; device_2]) as (_ & H2 & _).
  split; [exact (H1 eq_refl)|]. apply H2. discriminate.
Defined.

(** ** Live map: latest position per device *)

(** X24. After a batch of positions is applied to the map, each device shows
    the last position of the batch that is for it; a device the batch does
    not mention keeps the position it had. *)
Theorem live_positions_latest_wins {Position : Type}
    (deviceId : Position -> Z) (prev : gmap Z Position)
    (newPositions : list Position) (d : Z) :
  LiveMap.applyPositions deviceId prev newPositions !! d
  = match last (filter (λ pos, deviceId pos = d) newPositions) with
    | Some pos => Some pos
    | None => prev !! d
    end.
Proof.
  unfold LiveMap.applyPositions.
  induction newPositions as [|pos l IH] using rev_ind; [reflexivity|].
  rewrite foldl_app, filter_app. simpl.
  destruct (decide (deviceId pos = d)) as [E|E].
  - rewrite filter_cons_True by exact E. rewrite filter_nil, last_snoc.
    rewrite E. apply lookup_insert_eq.
  - rewrite filter_cons_False by exact E. rewrite filter_nil, app_nil_r.
    rewrite lookup_insert_ne by exact E. exact IH.
Qed.

(** ** Server URL: one trailing slash is forgiven *)

Lemma append_cons x (a b : string) : String x a +:+ b = String x (a +:+ b).
Proof. reflexivity. Qed.

Lemma append_assoc_s (a b c : string) : (a +:+ b) +:+ c = a +:+ (b +:+ c).
Proof.
  induction a as [|x a IH]; [reflexivity|].
  rewrite !append_cons. f_equal. exact IH.
Qed.

Lemma append_nil_r_s (a : string) : a +:+ "" = a.
Proof.
  induction a as [|x a IH]; [reflexivity|].
  rewrite append_cons. f_equal. exact IH.
Qed.

Lemma append_cancel_l (p a b : string) : p +:+ a = p +:+ b -> a = b.
Proof.
  induction p as [|x p IH]; intros H; [exact H|].
  rewrite !append_cons in H. injection H as H. apply IH, H.
Qed.

Lemma strip_cons c s :
  s <> "" ->
  Str.strip_trailing_slash (String c s) = String c (Str.strip_trailing_slash s).
Proof. destruct s; [contradiction|reflexivity]. Qed.

Lemma append_nonempty_r (a b : string) : b <> "" -> a +:+ b <> "".
Proof.
  destruct a; [auto|]. intros _. rewrite append_cons. discriminate.
Qed.

Lemma strip_append_slash s : Str.strip_trailing_slash (s +:+ "/") = s.
Proof.
  induction s as [|c s IH]; [reflexivity|].
  rewrite append_cons.
  rewrite strip_cons by (apply append_nonempty_r; discriminate).
  f_equal. exact IH.
Qed.

Lemma strip_append a b :
  b <> "" ->
  Str.strip_trailing_slash (a +:+ b) = a +:+ Str.strip_trailing_slash b.
Proof.
  intros Hb. induction a as [|c a IH]; [reflexivity|].
  rewrite !append_cons.
  rewrite strip_cons by (apply append_nonempty_r; exact Hb).
  f_equal. exact IH.
Qed.

(** A pattern without a slash matches [s/] exactly when it matches [s]. *)
Lemma strip_prefix_append_slash p s :
  (forall a b, p = a +:+ String "/"%char b -> False) ->
  Str.strip_prefix p (s +:+ "/")
  = (λ r, r +:+ "/") <$> Str.strip_prefix p s.
Proof.
  revert s.
  induction p as [|x p IH]; intros s ok; [reflexivity|].
  assert (okp : forall a b, p = a +:+ String "/"%char b -> False).
  { intros a b E. apply (ok (String x a) b). rewrite append_cons.
    f_equal. exact E. }
  destruct s as [|y s].
  - change ("" +:+ "/") with "/". simpl.
    destruct (Ascii.eqb x "/") eqn:E; [|reflexivity].
    apply Ascii.eqb_eq in E. subst x.
    exfalso. apply (ok "" p). reflexivity.
  - rewrite append_cons. simpl.
    destruct (Ascii.eqb x y); [|reflexivity]. apply IH, okp.
Qed.

Lemma replace_prefix_append_slash p r s :
  (forall a b, p = a +:+ String "/"%char b -> False) ->
  Str.replace_prefix p r (s +:+ "/") = Str.replace_prefix p r s +:+ "/".
Proof.
  intros ok. unfold Str.replace_prefix.
  rewrite strip_prefix_append_slash by exact ok.
  destruct (Str.strip_prefix p s) as [rest|]; simpl; [|reflexivity].
  symmetry. apply append_assoc_s.
Qed.

Lemma replace_prefix_keeps_end p r s :
  Str.strip_trailing_slash r = r ->
  Str.strip_trailing_slash s = s ->
  Str.strip_trailing_slash (Str.replace_prefix p r s) = Str.replace_prefix p r s.
Proof.
  intros Hr Hs. unfold Str.replace_prefix.
  destruct (Str.strip_prefix p s) as [rest|] eqn:E; [|exact Hs].
  apply strip_prefix_Some in E. subst s.
  destruct rest as [|c rest].
  - rewrite append_nil_r_s. exact Hr.
  - rewrite strip_append in Hs by discriminate.
    apply append_cancel_l in Hs.
    rewrite strip_append by discriminate. rewrite Hs. reflexivity.
Qed.

Lemma no_slash_in_http a b : "http:" = a +:+ String "/"%char b -> False.
Proof.
  do 5 (destruct a as [|? a]; [discriminate|];
        rewrite append_cons; intros H; injection H as _ H; revert H).
  destruct a; discriminate.
Qed.

Lemma no_slash_in_https a b : "https:" = a +:+ String "/"%char b -> False.
Proof.
  do 6 (destruct a as [|? a]; [discriminate|];
        rewrite append_cons; intros H; injection H as _ H; revert H).
  destruct a; discriminate.
Qed.

(** X25. A server URL may be entered with or without one trailing slash:
    for a URL [u] that does not end in a slash, the configurations with
    [u] and with [u/] issue the same REST requests, run the same probe and
    derive the same realtime endpoint. *)
Theorem trailing_slash_forgiven {Json : Type}
    (fetch : string -> Api.RequestInit -> Api.FetchResult Json)
    (u : string) (c : Api.TraccarConfig) :
  Str.strip_trailing_slash u = u ->
  (forall endpoint options,
     Api.apiRequest fetch (Some (with_serverUrl (u +:+ "/") c)) endpoint options
     = Api.apiRequest fetch (Some (with_serverUrl u c)) endpoint options) /\
  Api.testTraccarConnection fetch (with_serverUrl (u +:+ "/") c)
  = Api.testTraccarConnection fetch (with_serverUrl u c) /\
  Ws.wsUrl (u +:+ "/") = Ws.wsUrl u.
Proof.
  intros Hu. split; [|split].
  - intros endpoint options. unfold Api.apiRequest. simpl.
    rewrite strip_append_slash, Hu. reflexivity.
  - unfold Api.testTraccarConnection. simpl.
    rewrite strip_append_slash, Hu. reflexivity.
  - unfold Ws.wsUrl.
    rewrite (replace_prefix_append_slash "http:") by exact no_slash_in_http.
    rewrite (replace_prefix_append_slash "https:") by exact no_slash_in_https.
    rewrite strip_append_slash.
    assert (H1 : Str.strip_trailing_slash (Str.replace_prefix "http:" "ws:" u)
                 = Str.replace_prefix "http:" "ws:" u)
      by (apply replace_prefix_keeps_end; [reflexivity|exact Hu]).
    rewrite (replace_prefix_keeps_end "https:" "wss:" _ eq_refl H1).
    reflexivity.
Qed.

Lemma trailing_slash_forgiven_witness :
  Ws.wsUrl ("https://x.test" +:+ "/") = Ws.wsUrl "https://x.test" /\
  Api.testTraccarConnection healthy (with_serverUrl ("https://x.test" +:+ "/") token_config)
  = Api.testTraccarConnection healthy (with_serverUrl "https://x.test" token_config).
Proof.
  destruct (trailing_slash_forgiven healthy "https://x.test" token_config eq_refl)
    as (_ & H2 & H3).
  split; [exact H3|exact H2].
Defined.
